(** * note-to-self: the notification scheduling engine

    A shallow embedding of [NotificationService] (and of the parts of
    [StorageService] it calls) together with the properties of its
    scheduling logic.

    Instants.  A JavaScript [Date] holds an integral number of
    milliseconds.  The development works in a time zone with a fixed
    offset from UTC and counts milliseconds of local time, so that a
    calendar day is exactly [msPerDay] long and local midnight falls on
    the multiples of [msPerDay].

    Numbers.  Integral quantities (hours, minutes, timestamps, counts)
    are [Z].  The two places where the source multiplies by
    [Math.random()] or by [1.5] use exact rationals [Q] in place of
    IEEE doubles.

    Effects.  The asynchronous methods run in a small monad over a
    [World] that holds the message store, the pending trigger
    notifications of the platform and a log of the calls made.  A
    rejected promise is the outcome [Rejected]; it propagates through
    every [await] that is not inside a [try]. *)

From Stdlib Require Import ZArith QArith List String Ascii Bool Lia.
From Stdlib Require Import Permutation Sorted DecimalString Lqa Qround.
Import ListNotations.

Local Open Scope Z_scope.

(** ** Instants and the [Date] operations the service uses *)

Module Instant.

Definition msPerMinute : Z := 60 * 1000.
Definition msPerHour : Z := 60 * 60 * 1000.
Definition msPerDay : Z := 24 * 60 * 60 * 1000.

(** [new Date(y, m, d)] for the day of [t]: local midnight. *)
Definition startOfDay (t : Z) : Z := t / msPerDay * msPerDay.

(** [t.getHours()] *)
Definition getHours (t : Z) : Z := t mod msPerDay / msPerHour.

(** [t.setHours(h, 0, 0, 0)]; an [h] outside [0..23] carries into the
    neighbouring days, as it does in JavaScript. *)
Definition setHours (t h : Z) : Z := startOfDay t + h * msPerHour.

(** [t.setDate(t.getDate() + n)] *)
Definition addDays (t n : Z) : Z := t + n * msPerDay.

(** [h:00] on the day of [t], and on the following day. *)
Definition atHour (t h : Z) : Z := startOfDay t + h * msPerHour.
Definition atHourNextDay (t h : Z) : Z :=
  startOfDay t + msPerDay + h * msPerHour.

(** The [Date] constructor clips a number to an integral millisecond
    count by truncating toward zero. *)
Definition timeClip (q : Q) : Z := Z.quot (Qnum q) (Z.pos (Qden q)).

End Instant.

Import Instant.

(** ** Data model *)

Record Settings := mkSettings
  { notificationsEnabled : bool;
    dailyFrequency : Z;
    startHour : Z;
    endHour : Z;
    minGapHours : Z }.

Module Message.
Record t := mk
  { id : string;
    text : string;
    weight : Z;               (* 0 stands for any falsy value *)
    isNagMe : bool;
    nagIntervalMinutes : Z;
    createdAt : Z;
    lastShown : option Z }.
End Message.

(** [DEFAULT_SETTINGS] of the storage service. *)
Definition DEFAULT_SETTINGS : Settings :=
  {| notificationsEnabled := true;
     dailyFrequency := 3;
     startHour := 8;
     endHour := 22;
     minGapHours := 2 |}.

(** A result of [Math.random()]. *)
Definition unitDraw (u : Q) : Prop := (0 <= u)%Q /\ (u < 1)%Q.

(** ** Quiet-hours adjustment *)

(** The source reads [hour] once and then runs two independent [if]
    statements on the same (mutated) date object. *)
Definition adjustForQuietHours (time : Z) (settings : Settings) : Z :=
  let hour := getHours time in
  let time1 :=
    if hour <? startHour settings
    then setHours time (startHour settings)
    else time in
  let time2 :=
    if hour >=? endHour settings
    then setHours (addDays time1 1) (startHour settings)
    else time1 in
  time2.

(** Active hours: the local hour of day lies in [[startHour, endHour)]. *)
Definition inActiveHours (time : Z) (settings : Settings) : Prop :=
  startHour settings <= getHours time < endHour settings.

(** ** Window sampler *)

(** The window of the day of [now], moved to the next day as a whole
    when [now] is past its end. *)
Definition notificationWindow (settings : Settings) (now : Z) : Z * Z :=
  let today := startOfDay now in
  let startTime := setHours today (startHour settings) in
  let endTime := setHours today (endHour settings) in
  if now >? endTime
  then (addDays startTime 1, addDays endTime 1)
  else (startTime, endTime).

(** [times.some(t => Math.abs(candidateTime - t) < minGapMs)] *)
Definition tooClose (minGapMs candidateTime : Z) (times : list Z) : bool :=
  existsb (fun t => Z.abs (candidateTime - t) <? minGapMs) times.

(** [times.sort((a, b) => a - b)] *)
Fixpoint insertAscending (x : Z) (l : list Z) : list Z :=
  match l with
  | [] => [x]
  | y :: l' => if x <=? y then x :: l else y :: insertAscending x l'
  end.

Fixpoint sortAscending (l : list Z) : list Z :=
  match l with
  | [] => []
  | x :: l' => insertAscending x (sortAscending l')
  end.

Section WindowSampler.

(** [rand n] is the result of the [n]-th call of [Math.random()]. *)
Variable rand : nat -> Q.
Variable settings : Settings.
Variable now : Z.

Definition candidateTimeOf (startTime windowMs : Z) (u : Q) : Z :=
  let randomOffset := (u * inject_Z windowMs)%Q in
  timeClip (inject_Z startTime + randomOffset)%Q.

(** The inner [while (attempts < 50 && !validTime)] loop, with the
    number of attempts left; it returns the valid time, if one was
    drawn, and the position reached in the random source. *)
Fixpoint drawValidTime (startTime windowMs minGapMs : Z) (times : list Z)
    (attemptsLeft rng : nat) : option Z * nat :=
  match attemptsLeft with
  | O => (None, rng)
  | S attemptsLeft' =>
      let candidateTime := candidateTimeOf startTime windowMs (rand rng) in
      if negb (tooClose minGapMs candidateTime times) && (candidateTime >? now)
      then (Some candidateTime, S rng)
      else drawValidTime startTime windowMs minGapMs times attemptsLeft' (S rng)
  end.

(** The outer [for (let i = 0; i < count; i++)] loop, with the number
    of slots left. *)
Fixpoint fillSlots (startTime windowMs minGapMs : Z) (slotsLeft : nat)
    (times : list Z) (rng : nat) : list Z * nat :=
  match slotsLeft with
  | O => (times, rng)
  | S slotsLeft' =>
      let (validTime, rng') :=
        drawValidTime startTime windowMs minGapMs times 50 rng in
      let times' :=
        match validTime with
        | Some t => times ++ [t]
        | None => times
        end in
      fillSlots startTime windowMs minGapMs slotsLeft' times' rng'
  end.

Definition calculateNotificationTimes (rng : nat) : list Z * nat :=
  let (startTime, endTime) := notificationWindow settings now in
  let windowMs := endTime - startTime in
  let count := dailyFrequency settings in
  let minGapMs := minGapHours settings * 60 * 60 * 1000 in
  let (times, rng') :=
    fillSlots startTime windowMs minGapMs (Z.to_nat count) [] rng in
  (sortAscending times, rng').

End WindowSampler.

(** ** Weighted selector *)

Record WeightedMessage := mkWeighted
  { message : Message.t;
    effectiveWeight : Q }.

(** [StorageService.isMessageNew] *)
Definition isMessageNew (now : Z) (msg : Message.t) : bool :=
  let twoWeeks := 14 * 24 * 60 * 60 * 1000 in
  now - Message.createdAt msg <? twoWeeks.

(** The body of [regularMessages.map(msg => ...)]. *)
Definition weigh (now : Z) (msg : Message.t) : WeightedMessage :=
  let weight := if Message.weight msg =? 0 then 3 else Message.weight msg in
  let weight' :=
    if (weight =? 3) && isMessageNew now msg
    then (inject_Z weight * (3 # 2))%Q
    else inject_Z weight in
  {| message := msg; effectiveWeight := weight' |}.

Definition totalWeightOf (weightedMessages : list WeightedMessage) : Q :=
  fold_left (fun sum msg => (sum + effectiveWeight msg)%Q) weightedMessages 0%Q.

(** The [for (const msg of weightedMessages)] walk. *)
Fixpoint walk (random : Q) (weightedMessages : list WeightedMessage)
    : option WeightedMessage :=
  match weightedMessages with
  | [] => None
  | msg :: rest =>
      let random' := (random - effectiveWeight msg)%Q in
      if Qle_bool random' 0 then Some msg else walk random' rest
  end.

Definition pickWeighted (u : Q) (weightedMessages : list WeightedMessage)
    : option WeightedMessage :=
  let totalWeight := totalWeightOf weightedMessages in
  let random := (u * totalWeight)%Q in
  match walk random weightedMessages with
  | Some msg => Some msg
  | None => hd_error weightedMessages
  end.

(** ** Recurring nag planner *)

(** The [while (currentTime < endTime)] loop.  An interval that is not
    positive can keep it running for ever, so the loop carries fuel and
    answers [None] when the fuel runs out. *)
Fixpoint nagLoop (fuel : nat) (settings : Settings)
    (intervalMs endTime currentTime : Z) : option (list Z) :=
  match fuel with
  | O => None
  | S fuel' =>
      if currentTime <? endTime
      then
        let currentTime' :=
          adjustForQuietHours (currentTime + intervalMs) settings in
        match nagLoop fuel' settings intervalMs endTime currentTime' with
        | Some scheduledTimes => Some (currentTime :: scheduledTimes)
        | None => None
        end
      else Some []
  end.

Definition planNagTimes (fuel : nat) (msg : Message.t) (settings : Settings)
    (now : Z) : option (list Z) :=
  let intervalMs := Message.nagIntervalMinutes msg * 60 * 1000 in
  let nextTime := adjustForQuietHours (now + intervalMs) settings in
  let endTime := now + 24 * 60 * 60 * 1000 in
  nagLoop fuel settings intervalMs endTime nextTime.

(** ** The world of the asynchronous methods *)

Module Notification.
(** A trigger notification as the platform holds it: the fields of the
    notification the service sets, and the timestamp of its trigger.
    The Android presentation fields (importance, icon, colour, press
    action) are constants of the source and are left out. *)
Record t := mk
  { id : option string;
    title : string;
    body : string;
    channelId : string;
    timestamp : Z }.
End Notification.

Inductive Event : Type :=
| GetSettings
| GetMessages
| SaveMessages
| SaveState
| GetTriggerNotifications
| CancelTriggerNotifications (ids : list (option string))
| CreateTriggerNotification (n : Notification.t) (ok : bool).

Record World := mkWorld
  { clock : Z;                          (* [Date.now()], fixed during a pass *)
    rngPos : nat;                       (* calls of [Math.random()] so far *)
    storedMessages : list Message.t;    (* [@notetoself_messages] *)
    storedSettings : option Settings;   (* [@notetoself_settings] *)
    lastNotificationTime : option Z;    (* [@notetoself_state] *)
    pending : list Notification.t;      (* trigger notifications of notifee *)
    registerCalls : nat;                (* calls of [createTriggerNotification] *)
    log : list Event }.

Definition withLog (w : World) (e : Event) : World :=
  mkWorld (clock w) (rngPos w) (storedMessages w) (storedSettings w)
    (lastNotificationTime w) (pending w) (registerCalls w) (log w ++ [e]).

Definition withPending (w : World) (p : list Notification.t) : World :=
  mkWorld (clock w) (rngPos w) (storedMessages w) (storedSettings w)
    (lastNotificationTime w) p (registerCalls w) (log w).

Definition withMessages (w : World) (ms : list Message.t) : World :=
  mkWorld (clock w) (rngPos w) ms (storedSettings w)
    (lastNotificationTime w) (pending w) (registerCalls w) (log w).

Definition withRngPos (w : World) (n : nat) : World :=
  mkWorld (clock w) n (storedMessages w) (storedSettings w)
    (lastNotificationTime w) (pending w) (registerCalls w) (log w).

Definition withLastNotificationTime (w : World) (t : option Z) : World :=
  mkWorld (clock w) (rngPos w) (storedMessages w) (storedSettings w)
    t (pending w) (registerCalls w) (log w).

Definition withRegisterCalls (w : World) (n : nat) : World :=
  mkWorld (clock w) (rngPos w) (storedMessages w) (storedSettings w)
    (lastNotificationTime w) (pending w) n (log w).

(** How an awaited call ends: with a value, with a rejection, or not at
    all (a loop that ran out of fuel). *)
Inductive Outcome (A : Type) : Type :=
| Done (a : A)
| Rejected
| Diverged.

Arguments Done {A} a.
Arguments Rejected {A}.
Arguments Diverged {A}.

Definition M (A : Type) : Type := World -> Outcome A * World.

Definition ret {A : Type} (a : A) : M A := fun w => (Done a, w).

Definition bind {A B : Type} (m : M A) (k : A -> M B) : M B :=
  fun w =>
    match m w with
    | (Done a, w') => k a w'
    | (Rejected, w') => (Rejected, w')
    | (Diverged, w') => (Diverged, w')
    end.

Notation "x <- m ;; k" := (bind m (fun x => k))
  (at level 61, m at next level, right associativity).
Notation "m ;; k" := (bind m (fun _ => k))
  (at level 61, right associativity).

(** [for (const x of xs) { await f(x) }] *)
Fixpoint forEach {A : Type} (xs : list A) (f : A -> M unit) : M unit :=
  match xs with
  | [] => ret tt
  | x :: xs' => f x ;; forEach xs' f
  end.

Definition diverge {A : Type} : M A := fun w => (Diverged, w).

Definition dateNow : M Z := fun w => (Done (clock w), w).

Definition idEqb (a b : option string) : bool :=
  match a, b with
  | Some x, Some y => String.eqb x y
  | None, None => true
  | _, _ => false
  end.

(** [id?.startsWith(p)] *)
Definition idStartsWith (p : string) (n : Notification.t) : bool :=
  match Notification.id n with
  | Some s => String.prefix p s
  | None => false
  end.

(** Decimal rendering of a timestamp inside a template literal. *)
Definition numberToString (z : Z) : string :=
  NilZero.string_of_int (Z.to_int z).

Definition wisdomId (time : Z) : string :=
  "wisdom-" ++ numberToString time.

Definition nagId (msg : Message.t) (time : Z) : string :=
  "nag-" ++ Message.id msg ++ "-" ++ numberToString time.

Section Service.

(** [rand n] is the result of the [n]-th call of [Math.random()], and
    [registerFails n] tells whether the platform rejects the [n]-th
    call of [createTriggerNotification]. *)
Variable rand : nat -> Q.
Variable registerFails : nat -> bool.

(** *** Storage service *)

Definition getSettings : M Settings :=
  fun w =>
    (Done match storedSettings w with
          | Some s => s
          | None => DEFAULT_SETTINGS
          end,
     withLog w GetSettings).

Definition getMessages : M (list Message.t) :=
  fun w => (Done (storedMessages w), withLog w GetMessages).

Definition saveMessages (messages : list Message.t) : M bool :=
  fun w => (Done true, withLog (withMessages w messages) SaveMessages).

(** [messages[index] = { ...messages[index], lastShown }] at the first
    index whose [id] is the given one. *)
Fixpoint setLastShown (i : string) (t : Z) (messages : list Message.t)
    : option (list Message.t) :=
  match messages with
  | [] => None
  | m :: rest =>
      if String.eqb (Message.id m) i
      then Some (Message.mk (Message.id m) (Message.text m) (Message.weight m)
                   (Message.isNagMe m) (Message.nagIntervalMinutes m)
                   (Message.createdAt m) (Some t) :: rest)
      else option_map (cons m) (setLastShown i t rest)
  end.

Definition updateMessage (i : string) (t : Z) : M unit :=
  messages <- getMessages ;;
  match setLastShown i t messages with
  | Some messages' => _ <- saveMessages messages' ;; ret tt
  | None => ret tt
  end.

Definition saveState : M bool :=
  fun w =>
    (Done true, withLog (withLastNotificationTime w (Some (clock w))) SaveState).

(** *** The platform's trigger notifications

    The notification library is outside the repository.  Its calls are
    given the behaviour the service relies on: the pending trigger
    notifications can be listed, [cancelTriggerNotifications ids]
    removes the pending notifications whose id is among [ids], and
    [createTriggerNotification] either is rejected, leaving the pending
    notifications as they are, or registers the notification under its
    id. *)

Definition mathRandom : M Q :=
  fun w => (Done (rand (rngPos w)), withRngPos w (S (rngPos w))).

Definition getTriggerNotifications : M (list Notification.t) :=
  fun w => (Done (pending w), withLog w GetTriggerNotifications).

Definition cancelTriggerNotifications (ids : list (option string)) : M unit :=
  fun w =>
    (Done tt,
     withLog
       (withPending w
          (filter (fun n => negb (existsb (idEqb (Notification.id n)) ids))
             (pending w)))
       (CancelTriggerNotifications ids)).

(** A notification registered under an id that is already pending
    replaces the pending one. *)
Definition createTriggerNotification (n : Notification.t) : M unit :=
  fun w =>
    let w1 := withRegisterCalls w (S (registerCalls w)) in
    if registerFails (registerCalls w)
    then (Rejected, withLog w1 (CreateTriggerNotification n false))
    else
      (Done tt,
       withLog
         (withPending w1
            (filter (fun n' => negb (idEqb (Notification.id n') (Notification.id n)))
               (pending w1) ++ [n]))
         (CreateTriggerNotification n true)).

(** *** Notification service *)

Definition channelId : string := "notetoself-wisdom".
Definition nagChannelId : string := "notetoself-nag".

Definition selectNextMessage : M (option WeightedMessage) :=
  messages <- getMessages ;;
  let regularMessages := filter (fun m => negb (Message.isNagMe m)) messages in
  if (List.length regularMessages =? 0)%nat then ret None
  else
    now <- dateNow ;;
    let weightedMessages := map (weigh now) regularMessages in
    u <- mathRandom ;;
    ret (pickWeighted u weightedMessages).

Definition cancelAllWisdomNotifications : M unit :=
  scheduled <- getTriggerNotifications ;;
  let wisdomIds :=
    map Notification.id (filter (idStartsWith "wisdom-") scheduled) in
  cancelTriggerNotifications wisdomIds.

Definition cancelAllNagNotifications : M unit :=
  scheduled <- getTriggerNotifications ;;
  let nagIds :=
    map Notification.id (filter (idStartsWith "nag-") scheduled) in
  cancelTriggerNotifications nagIds.

(** [calculateNotificationTimes] reads the clock and draws from the
    random source. *)
Definition calculateNotificationTimesM (settings : Settings) : M (list Z) :=
  fun w =>
    let (times, rng') :=
      calculateNotificationTimes rand settings (clock w) (rngPos w) in
    (Done times, withRngPos w rng').

Definition wisdomNotification (time : Z) (msg : WeightedMessage)
    : Notification.t :=
  {| Notification.id := Some (wisdomId time);
     Notification.title := "💡 Note to Self";
     Notification.body := Message.text (message msg);
     Notification.channelId := channelId;
     Notification.timestamp := time |}.

(** The body of the [for (const time of times)] loop of the wisdom pass. *)
Definition scheduleWisdomAt (time : Z) : M unit :=
  msg <- selectNextMessage ;;
  match msg with
  | None => ret tt
  | Some msg =>
      createTriggerNotification (wisdomNotification time msg) ;;
      updateMessage (Message.id (message msg)) time
  end.

Definition scheduleWisdomNotifications : M unit :=
  settings <- getSettings ;;
  if negb (notificationsEnabled settings)
  then cancelAllWisdomNotifications
  else
    cancelAllWisdomNotifications ;;
    times <- calculateNotificationTimesM settings ;;
    forEach times scheduleWisdomAt ;;
    _ <- saveState ;;
    ret tt.

Definition nagNotification (msg : Message.t) (time : Z) : Notification.t :=
  {| Notification.id := Some (nagId msg time);
     Notification.title := "⏰ Reminder";
     Notification.body := Message.text msg;
     Notification.channelId := nagChannelId;
     Notification.timestamp := time |}.

Definition scheduleRepeatingNag (fuel : nat) (msg : Message.t)
    (settings : Settings) : M unit :=
  now <- dateNow ;;
  match planNagTimes fuel msg settings now with
  | None => diverge
  | Some scheduledTimes =>
      forEach scheduledTimes
        (fun time => createTriggerNotification (nagNotification msg time))
  end.

Definition scheduleNagNotifications (fuel : nat) : M unit :=
  messages <- getMessages ;;
  let nagMessages := filter Message.isNagMe messages in
  settings <- getSettings ;;
  cancelAllNagNotifications ;;
  forEach nagMessages (fun msg => scheduleRepeatingNag fuel msg settings).

End Service.

(** ** Notions used to state the properties *)

(** [nagChain settings intervalMs first l]: the first element of [l]
    is [first], and each later one is the adjustment of its predecessor
    plus the interval. *)
Fixpoint nagChain (settings : Settings) (intervalMs first : Z) (l : list Z)
    : Prop :=
  match l with
  | [] => True
  | x :: l' =>
      x = first /\
      nagChain settings intervalMs
        (adjustForQuietHours (x + intervalMs) settings) l'
  end.

(** [plansUntil settings intervalMs endTime first l]: [l] is the whole
    run of the planning loop from [first]: as long as the current
    instant is before [endTime] it is the next element of [l] and the
    loop goes on from its adjusted successor, and [l] ends at the first
    current instant that is not before [endTime]. *)
Fixpoint plansUntil (settings : Settings) (intervalMs endTime first : Z)
    (l : list Z) : Prop :=
  match l with
  | [] => endTime <= first
  | x :: l' =>
      x = first /\ first < endTime /\
      plansUntil settings intervalMs endTime
        (adjustForQuietHours (x + intervalMs) settings) l'
  end.

(** Neighbours in [l] are at least [d] apart, in increasing order. *)
Fixpoint stepsAtLeast (d : Z) (l : list Z) : Prop :=
  match l with
  | [] => True
  | x :: l' =>
      match l' with
      | [] => True
      | y :: _ => x + d <= y /\ stepsAtLeast d l'
      end
  end.

Definition horizonMs : Z := 24 * 60 * 60 * 1000.

Definition intervalMsOf (msg : Message.t) : Z :=
  Message.nagIntervalMinutes msg * 60 * 1000.

(** Two instants are at least [d] apart; every two instants of a list
    are. *)
Definition apart (d a b : Z) : Prop := d <= Z.abs (a - b).

Definition pairwiseApart (d : Z) (l : list Z) : Prop :=
  ForallOrdPairs (apart d) l.

(** The test that accepts a candidate of the window sampler. *)
Definition acceptable (now minGapMs : Z) (times : list Z) (c : Z) : bool :=
  negb (tooClose minGapMs c times) && (c >? now).

(** The sum of the effective weights of the first [k] candidates. *)
Fixpoint sumWeights (l : list WeightedMessage) : Q :=
  match l with
  | [] => 0%Q
  | msg :: l' => (effectiveWeight msg + sumWeights l')%Q
  end.

Definition prefixWeight (l : list WeightedMessage) (k : nat) : Q :=
  sumWeights (firstn k l).

(** The candidates of the selector in a world: the stored messages
    that are not nag messages, each with its effective weight. *)
Definition regularMessagesOf (w : World) : list Message.t :=
  filter (fun m => negb (Message.isNagMe m)) (storedMessages w).

Definition candidatesOf (w : World) : list WeightedMessage :=
  map (weigh (clock w)) (regularMessagesOf w).

(** The settings [getSettings] answers in a world. *)
Definition settingsOf (w : World) : Settings :=
  match storedSettings w with
  | Some s => s
  | None => DEFAULT_SETTINGS
  end.

(** Every registration among the events is under an id that starts
    with [p]. *)
Definition createsOnly (p : string) (evs : list Event) : Prop :=
  forall n ok, In (CreateTriggerNotification n ok) evs -> idStartsWith p n = true.

(** From [w] to [w'] only pending notifications whose id starts with
    [p] were cancelled, replaced or registered. *)
Definition touchesOnly (p : string) (w w' : World) : Prop :=
  (forall n, In n (pending w) -> idStartsWith p n = false -> In n (pending w')) /\
  (forall n, In n (pending w') -> In n (pending w) \/ idStartsWith p n = true) /\
  exists evs, log w' = log w ++ evs /\ createsOnly p evs.

(** A computation keeps a relation between the world it starts in and
    the world it ends in. *)
Definition respects (R : World -> World -> Prop) {A : Type} (m : M A) : Prop :=
  forall w, R w (snd (m w)).

Definition noFailedRegister (evs : list Event) : Prop :=
  forall n, ~ In (CreateTriggerNotification n false) evs.

(** A computation stops at the first registration that fails.  In
    this model, where no other call of the platform fails, it is
    rejected exactly when a registration failed, and then the failed
    call is the last thing it did. *)
Definition stopsAtFailure {A : Type} (m : M A) : Prop :=
  forall w,
    exists evs,
      log (snd (m w)) = log w ++ evs /\
      match fst (m w) with
      | Rejected =>
          exists evs0 n,
            evs = evs0 ++ [CreateTriggerNotification n false] /\
            noFailedRegister evs0
      | _ => noFailedRegister evs
      end.

(** Every id that is pending in [w] is still pending in [w']. *)
Definition idsStay (w w' : World) : Prop :=
  forall i,
    (exists n, In n (pending w) /\ Notification.id n = i) ->
    exists n, In n (pending w') /\ Notification.id n = i.

(** A computation aborts at a registration that fails: when one of
    its registrations failed, it is rejected, that registration is the
    last thing it did and no other registration failed before it. *)
Definition abortsAtFailedRegister {A : Type} (m : M A) : Prop :=
  forall w,
    exists evs,
      log (snd (m w)) = log w ++ evs /\
      forall n,
        In (CreateTriggerNotification n false) evs ->
        fst (m w) = Rejected /\
        exists evs0,
          evs = evs0 ++ [CreateTriggerNotification n false] /\
          noFailedRegister evs0.

(** A registration of [n] was attempted. *)
Definition attempted (n : Notification.t) (w : World) : Prop :=
  exists ok, In (CreateTriggerNotification n ok) (log w).

(** Best effort, as a reading of the error-handling design would have
    it for the registrations of one nag message: every planned
    registration is attempted, whichever of them fail. *)
Definition bestEffortNag (registerFails : nat -> bool) (fuel : nat)
    (msg : Message.t) (settings : Settings) (w : World) : Prop :=
  forall scheduledTimes,
    planNagTimes fuel msg settings (clock w) = Some scheduledTimes ->
    forall time,
      In time scheduledTimes ->
      attempted (nagNotification msg time)
        (snd (scheduleRepeatingNag registerFails fuel msg settings w)).

(** Fuel that is enough for the planning loop of a message with a
    positive interval: one round more than the horizon holds intervals. *)
Definition nagFuel (msg : Message.t) : nat :=
  S (Z.to_nat (horizonMs / intervalMsOf msg)).

(** ** Notions used for the further properties *)

(** A message without its [lastShown]. *)
Definition withoutLastShown (m : Message.t) : Message.t :=
  Message.mk (Message.id m) (Message.text m) (Message.weight m)
    (Message.isNagMe m) (Message.nagIntervalMinutes m) (Message.createdAt m)
    None.

(** From [w] to [w'] the stored messages are the same, one by one, but
    for [lastShown], which is as it was or one of [times]. *)
Definition storeKept (times : list Z) (w w' : World) : Prop :=
  Forall2
    (fun m m' =>
       withoutLastShown m' = withoutLastShown m /\
       (Message.lastShown m' = Message.lastShown m \/
        exists t, In t times /\ Message.lastShown m' = Some t))
    (storedMessages w) (storedMessages w').

(** The pending notifications of each kind. *)
Definition wisdomPending (w : World) : list Notification.t :=
  filter (idStartsWith "wisdom-") (pending w).

Definition nagPending (w : World) : list Notification.t :=
  filter (idStartsWith "nag-") (pending w).

(** What the slots of a wisdom pass keep between two worlds: the store
    but for [lastShown]; every pending notification is an old one or a
    wisdom notification for one of [times] with the text of a stored
    message that is not a nag; and the wisdom notifications grow by at
    most the number of registrations. *)
Definition slotKeeps (times : list Z) (w w' : World) : Prop :=
  storeKept times w w' /\
  (forall n, In n (pending w') ->
     In n (pending w) \/
     exists time msg,
       In time times /\ n = wisdomNotification time msg /\
       In (Message.text (message msg))
         (map Message.text (regularMessagesOf w))) /\
  (List.length (wisdomPending w') + registerCalls w
   <= List.length (wisdomPending w) + registerCalls w')%nat /\
  (registerCalls w <= registerCalls w')%nat.

(** What the registrations of a nag pass keep between two worlds, for
    the nag messages [msgs] and the settings [s] of the pass: the clock
    and the store; and every pending notification is an old one or the
    notification of one of [msgs] at an instant of its plan. *)
Definition nagKeeps (fuel : nat) (msgs : list Message.t) (s : Settings)
    (w w' : World) : Prop :=
  clock w' = clock w /\
  storedMessages w' = storedMessages w /\
  storedSettings w' = storedSettings w /\
  forall n, In n (pending w') ->
    In n (pending w) \/
    exists msg t ts,
      In msg msgs /\ planNagTimes fuel msg s (clock w) = Some ts /\
      In t ts /\ n = nagNotification msg t.

(** The world with other stored settings. *)
Definition withStoredSettings (w : World) (s : option Settings) : World :=
  mkWorld (clock w) (rngPos w) (storedMessages w) s
    (lastNotificationTime w) (pending w) (registerCalls w) (log w).

(** A computation that neither reads nor writes the stored settings. *)
Definition ignoresSettings {A : Type} (m : M A) : Prop :=
  forall w s,
    m (withStoredSettings w s)
    = (fst (m w), withStoredSettings (snd (m w)) s).

(** ** The other methods of the storage service *)

(** An [updates] object of [updateMessage]: each key is present or
    absent.  The callers pass the four fields of the edit screen, or
    [lastShown] alone. *)
Record Updates := mkUpdates
  { newText : option string;
    newWeight : option Z;
    newIsNagMe : option bool;
    newNagIntervalMinutes : option Z;
    newLastShown : option Z }.

(** [{ ...m, ...updates }] *)
Definition spread (m : Message.t) (updates : Updates) : Message.t :=
  Message.mk (Message.id m)
    (match newText updates with Some x => x | None => Message.text m end)
    (match newWeight updates with Some x => x | None => Message.weight m end)
    (match newIsNagMe updates with
     | Some x => x
     | None => Message.isNagMe m
     end)
    (match newNagIntervalMinutes updates with
     | Some x => x
     | None => Message.nagIntervalMinutes m
     end)
    (Message.createdAt m)
    (match newLastShown updates with
     | Some x => Some x
     | None => Message.lastShown m
     end).

(** [messageData] of the edit screen: the object it passes to
    [addMessage] and [updateMessage]. *)
Record MessageData := mkMessageData
  { dataText : string;
    dataWeight : Z;
    dataIsNagMe : bool;
    dataNagIntervalMinutes : Z }.

Definition updatesOfData (d : MessageData) : Updates :=
  {| newText := Some (dataText d);
     newWeight := Some (dataWeight d);
     newIsNagMe := Some (dataIsNagMe d);
     newNagIntervalMinutes := Some (dataNagIntervalMinutes d);
     newLastShown := None |}.

(** [messages.findIndex(m => m.id === id)] followed by the assignment
    [messages[index] = { ...messages[index], ...updates }]: the new
    list and the new element, or nothing when no message has the id. *)
Fixpoint replaceFirst (i : string) (updates : Updates)
    (messages : list Message.t) : option (list Message.t * Message.t) :=
  match messages with
  | [] => None
  | m :: rest =>
      if String.eqb (Message.id m) i
      then Some (spread m updates :: rest, spread m updates)
      else
        match replaceFirst i updates rest with
        | Some (rest', m') => Some (m :: rest', m')
        | None => None
        end
  end.

(** [StorageService.updateMessage] for any [updates]; [updateMessage]
    above is the call with [{ lastShown }] of the wisdom pass. *)
Definition updateMessageWith (i : string) (updates : Updates)
    : M (option Message.t) :=
  messages <- getMessages ;;
  match replaceFirst i updates messages with
  | Some (messages', m') => _ <- saveMessages messages' ;; ret (Some m')
  | None => ret None
  end.

(** [StorageService.addMessage] on the [messageData] of the edit
    screen.  The defaults come first and the spread of [message] after
    them, so that a key of [message] always wins. *)
Definition addMessage (message : MessageData) : M Message.t :=
  messages <- getMessages ;;
  id <- dateNow ;;
  createdAt <- dateNow ;;
  let defaults :=
    Message.mk (numberToString id) (dataText message)
      (if dataWeight message =? 0 then 3 else dataWeight message)
      (dataIsNagMe message || false)
      (if dataNagIntervalMinutes message =? 0
       then 90
       else dataNagIntervalMinutes message)
      createdAt None in
  let newMessage := spread defaults (updatesOfData message) in
  _ <- saveMessages (messages ++ [newMessage]) ;;
  ret newMessage.

(** [StorageService.deleteMessage] *)
Definition deleteMessage (i : string) : M bool :=
  messages <- getMessages ;;
  let filtered :=
    filter (fun m => negb (String.eqb (Message.id m) i)) messages in
  _ <- saveMessages filtered ;;
  ret true.

(** ** The screens *)

(** [array.sort(cmp)]: the sort is stable, so that for a comparator
    that orders the elements its result is the one of an insertion that
    puts an element before the first one it does not follow. *)
Fixpoint insertBy {A : Type} (cmp : A -> A -> Z) (x : A) (l : list A)
    : list A :=
  match l with
  | [] => [x]
  | y :: l' => if cmp x y <=? 0 then x :: l else y :: insertBy cmp x l'
  end.

Fixpoint sortBy {A : Type} (cmp : A -> A -> Z) (l : list A) : list A :=
  match l with
  | [] => []
  | x :: l' => insertBy cmp x (sortBy cmp l')
  end.

(** The comparator of the library screen: nag messages first, then by
    creation date. *)
Definition libraryCompare (a b : Message.t) : Z :=
  if Message.isNagMe a && negb (Message.isNagMe b) then -1
  else if negb (Message.isNagMe a) && Message.isNagMe b then 1
  else Message.createdAt b - Message.createdAt a.

(** [loadMessages] of the library screen; its result is the list the
    screen shows. *)
Definition loadMessages : M (list Message.t) :=
  data <- getMessages ;;
  ret (sortBy libraryCompare data).

(** [a] may come before [b] in the library. *)
Definition libraryBefore (a b : Message.t) : Prop :=
  (Message.isNagMe b = true -> Message.isNagMe a = true) /\
  (Message.isNagMe a = Message.isNagMe b ->
   Message.createdAt b <= Message.createdAt a).

(** [formatNextNotification] of the home screen, for the time of the
    next notification it holds and the clock. *)
Definition formatNextNotification (nextNotificationTime : option Z)
    (now : Z) : string :=
  match nextNotificationTime with
  | None => "Not scheduled"
  | Some next =>
      let diff := next - now in
      if diff <? 0 then "Pending..."
      else
        let hours := diff / (1000 * 60 * 60) in
        let minutes := Z.rem diff (1000 * 60 * 60) / (1000 * 60) in
        if hours >? 0
        then "In " ++ numberToString hours ++ "h "
             ++ numberToString minutes ++ "m"
        else "In " ++ numberToString minutes ++ "m"
  end.

(** The state of the home screen that [loadData] sets, apart from the
    flags [loading] and [refreshing], which it clears in any case. *)
Record HomeState := mkHomeState
  { currentMessage : option Message.t;
    nextNotificationTime : option Z;
    messageCount : nat }.

(** [Math.floor] *)
Definition mathFloor (q : Q) : Z := Qfloor q.

(** [array[index]] for an integral index: undefined outside the array. *)
Definition at_ {A : Type} (l : list A) (index : Z) : option A :=
  if index <? 0 then None else nth_error l (Z.to_nat index).

Section HomeScreen.

Variable rand : nat -> Q.

(** [loadData] of the home screen, from the state it finds.  No call
    it makes can fail here, so its [catch] is not entered. *)
Definition loadData (st : HomeState) : M HomeState :=
  messages <- getMessages ;;
  let regularMessages := filter (fun m => negb (Message.isNagMe m)) messages in
  current <-
    (if (0 <? List.length regularMessages)%nat
     then
       u <- mathRandom rand ;;
       let randomIndex :=
         mathFloor (u * inject_Z (Z.of_nat (List.length regularMessages))) in
       ret (at_ regularMessages randomIndex)
     else ret (currentMessage st)) ;;
  scheduled <- getTriggerNotifications ;;
  let wisdomNotifs :=
    sortBy
      (fun a b => Notification.timestamp a - Notification.timestamp b)
      (filter (idStartsWith "wisdom-") scheduled) in
  ret {| currentMessage := current;
         nextNotificationTime :=
           match wisdomNotifs with
           | n :: _ => Some (Notification.timestamp n)
           | [] => None
           end;
         messageCount := List.length messages |}.

End HomeScreen.

(** [try { body } catch { handler }]: a rejection inside the body is
    caught. *)
Definition tryCatch {A : Type} (body handler : M A) : M A :=
  fun w =>
    match body w with
    | (Rejected, w') => handler w'
    | r => r
    end.

(** How [handleSave] ends: with one of its alerts or by going back. *)
Inductive SaveOutcome : Type :=
| AlertEnterMessage
| AlertValidInterval
| WentBack
| AlertFailedToSave.

(** [!s] for a string *)
Definition isEmptyString (s : string) : bool :=
  match s with
  | EmptyString => true
  | String _ _ => false
  end.

Section Screens.

Variable rand : nat -> Q.
Variable registerFails : nat -> bool.
Variable fuel : nat.

(** [String.prototype.trim] and the global [parseInt], which answers
    no number ([NaN]) on a string that does not start with one.  A
    [NaN] interval is written to the store as null, which the planner
    multiplies as 0. *)
Variable trim : string -> string.
Variable parseInt : string -> option Z.

(** [handleSave] of the edit screen, for the message being edited, if
    any, and the state of the form. *)
Definition handleSave (existingMessage : option Message.t) (text : string)
    (weight : Z) (isNagMe : bool) (nagIntervalMinutes : string)
    : M SaveOutcome :=
  if isEmptyString (trim text) then ret AlertEnterMessage
  else if isNagMe
          && (isEmptyString nagIntervalMinutes
              || match parseInt nagIntervalMinutes with
                 | Some n => n <? 1
                 | None => false
                 end)
  then ret AlertValidInterval
  else
    tryCatch
      (let messageData :=
         {| dataText := trim text;
            dataWeight := weight;
            dataIsNagMe := isNagMe;
            dataNagIntervalMinutes :=
              if isNagMe
              then match parseInt nagIntervalMinutes with
                   | Some n => n
                   | None => 0
                   end
              else 90 |} in
       match existingMessage with
       | Some m =>
           _ <- updateMessageWith (Message.id m) (updatesOfData messageData) ;;
           ret tt
       | None => _ <- addMessage messageData ;; ret tt
       end ;;
       scheduleWisdomNotifications rand registerFails ;;
       (if isNagMe then scheduleNagNotifications registerFails fuel
        else ret tt) ;;
       ret WentBack)
      (ret AlertFailedToSave).

(** The [onPress] of the Delete button of [handleDelete] (library
    screen); the edit screen deletes in the same way. *)
Definition handleDeleteConfirmed (message : Message.t)
    : M (list Message.t) :=
  _ <- deleteMessage (Message.id message) ;;
  (if Message.isNagMe message then scheduleNagNotifications registerFails fuel
   else ret tt) ;;
  loadMessages.



End Screens.

Section Reschedule.

Variable rand : nat -> Q.
Variable registerFails : nat -> bool.
Variable fuel : nat.

(** [handleReschedule] of the home screen. *)
Definition handleReschedule (st : HomeState) : M HomeState :=
  scheduleWisdomNotifications rand registerFails ;;
  scheduleNagNotifications registerFails fuel ;;
  loadData rand st.

End Reschedule.

(** ** The settings screen *)

(** A key of the settings with its new value, as [updateSetting]
    receives them. *)
Inductive SettingChange : Type :=
| SetNotificationsEnabled (value : bool)
| SetDailyFrequency (value : Z)
| SetStartHour (value : Z)
| SetEndHour (value : Z)
| SetMinGapHours (value : Z).

(** [{ ...settings, [key]: value }] *)
Definition applyChange (settings : Settings) (change : SettingChange)
    : Settings :=
  match change with
  | SetNotificationsEnabled value =>
      mkSettings value (dailyFrequency settings) (startHour settings)
        (endHour settings) (minGapHours settings)
  | SetDailyFrequency value =>
      mkSettings (notificationsEnabled settings) value (startHour settings)
        (endHour settings) (minGapHours settings)
  | SetStartHour value =>
      mkSettings (notificationsEnabled settings) (dailyFrequency settings)
        value (endHour settings) (minGapHours settings)
  | SetEndHour value =>
      mkSettings (notificationsEnabled settings) (dailyFrequency settings)
        (startHour settings) value (minGapHours settings)
  | SetMinGapHours value =>
      mkSettings (notificationsEnabled settings) (dailyFrequency settings)
        (startHour settings) (endHour settings) value
  end.

(** [StorageService.saveSettings].  The log of a world records the
    calls of the passes; this call of the settings screen is not among
    its events. *)
Definition saveSettings (settings : Settings) : M bool :=
  fun w => (Done true, withStoredSettings w (Some settings)).

Section SettingsScreen.

Variable rand : nat -> Q.
Variable registerFails : nat -> bool.
Variable fuel : nat.

(** [updateSetting] of the settings screen, for the settings the
    screen holds; it answers the settings and, when it counted them,
    the number of scheduled notifications the screen holds next. *)
Definition updateSetting (settings : Settings) (change : SettingChange)
    : M (Settings * option nat) :=
  let newSettings := applyChange settings change in
  _ <- saveSettings newSettings ;;
  if notificationsEnabled settings
  then
    scheduleWisdomNotifications rand registerFails ;;
    scheduleNagNotifications registerFails fuel ;;
    scheduled <- getTriggerNotifications ;;
    ret (newSettings, Some (List.length scheduled))
  else ret (newSettings, None).

End SettingsScreen.

(** * Properties *)

(** ** Arithmetic of days and hours *)

Lemma msPerDay_eq : msPerDay = 86400000.
Proof. reflexivity. Qed.

Lemma msPerHour_eq : msPerHour = 3600000.
Proof. reflexivity. Qed.

Lemma msPerMinute_eq : msPerMinute = 60000.
Proof. reflexivity. Qed.

Ltac unfold_time :=
  unfold atHour, atHourNextDay, setHours, addDays, getHours, startOfDay in *;
  rewrite ?msPerDay_eq, ?msPerHour_eq, ?msPerMinute_eq in *.

Lemma startOfDay_le (t : Z) : startOfDay t <= t < startOfDay t + msPerDay.
Proof. unfold_time. Z.to_euclidean_division_equations. lia. Qed.

Lemma getHours_range (t : Z) : 0 <= getHours t < 24.
Proof. unfold_time. Z.to_euclidean_division_equations. lia. Qed.

Lemma getHours_bounds (t : Z) :
  startOfDay t + getHours t * msPerHour <= t
  < startOfDay t + (getHours t + 1) * msPerHour.
Proof. unfold_time. Z.to_euclidean_division_equations. lia. Qed.

Lemma startOfDay_shift (t k : Z) :
  startOfDay (t + k * msPerDay) = startOfDay t + k * msPerDay.
Proof.
  unfold startOfDay. rewrite Z.div_add by (rewrite msPerDay_eq; lia). ring.
Qed.

Lemma startOfDay_atHour (t h : Z) :
  0 <= h < 24 -> startOfDay (startOfDay t + h * msPerHour) = startOfDay t.
Proof.
  intros Hh. unfold_time. Z.to_euclidean_division_equations. lia.
Qed.

Lemma getHours_atHour (t h : Z) :
  0 <= h < 24 -> getHours (startOfDay t + h * msPerHour) = h.
Proof.
  intros Hh. unfold_time. Z.to_euclidean_division_equations. lia.
Qed.

Lemma getHours_shift (t k : Z) : getHours (t + k * msPerDay) = getHours t.
Proof.
  unfold getHours. rewrite Z.mod_add by (rewrite msPerDay_eq; lia).
  reflexivity.
Qed.

(** ** The three cases of the adjustment *)

Lemma adjust_early (t : Z) (s : Settings) :
  startHour s < endHour s -> getHours t < startHour s ->
  adjustForQuietHours t s = atHour t (startHour s).
Proof.
  intros Hse Hlt. unfold adjustForQuietHours. rewrite Z.geb_leb.
  destruct (Z.ltb_spec (getHours t) (startHour s)); [|lia].
  destruct (Z.leb_spec (endHour s) (getHours t)); [lia|reflexivity].
Qed.

Lemma adjust_late (t : Z) (s : Settings) :
  startHour s < endHour s -> endHour s <= getHours t ->
  adjustForQuietHours t s = atHourNextDay t (startHour s).
Proof.
  intros Hse Hge. unfold adjustForQuietHours. rewrite Z.geb_leb.
  destruct (Z.ltb_spec (getHours t) (startHour s)); [lia|].
  destruct (Z.leb_spec (endHour s) (getHours t)); [|lia].
  unfold setHours, addDays, atHourNextDay.
  rewrite startOfDay_shift. ring.
Qed.

Lemma adjust_inside (t : Z) (s : Settings) :
  inActiveHours t s -> adjustForQuietHours t s = t.
Proof.
  intros [Hlo Hhi]. unfold adjustForQuietHours. rewrite Z.geb_leb.
  destruct (Z.ltb_spec (getHours t) (startHour s)); [lia|].
  destruct (Z.leb_spec (endHour s) (getHours t)); [lia|reflexivity].
Qed.

(** Whatever the instant, the adjusted one is inside active hours, as
    long as [startHour] is an hour of the day. *)
Lemma adjust_inActiveHours (t : Z) (s : Settings) :
  0 <= startHour s < 24 -> startHour s < endHour s ->
  inActiveHours (adjustForQuietHours t s) s.
Proof.
  intros Hr Hse.
  destruct (Z.lt_ge_cases (getHours t) (startHour s)) as [Hlt|Hge].
  - rewrite adjust_early by assumption. unfold inActiveHours, atHour.
    rewrite getHours_atHour by assumption. lia.
  - destruct (Z.lt_ge_cases (getHours t) (endHour s)) as [Hlt'|Hge'].
    + rewrite adjust_inside by (split; assumption). split; assumption.
    + rewrite adjust_late by assumption. unfold inActiveHours, atHourNextDay.
      replace (startOfDay t + msPerDay + startHour s * msPerHour)
        with (startOfDay t + startHour s * msPerHour + 1 * msPerDay) by ring.
      rewrite getHours_shift, getHours_atHour by assumption. lia.
Qed.

(** The adjustment never moves an instant backward. *)
Lemma adjust_ge (t : Z) (s : Settings) :
  0 <= startHour s -> startHour s < endHour s ->
  t <= adjustForQuietHours t s.
Proof.
  intros Hr Hse.
  pose proof (getHours_bounds t) as Hb. pose proof (startOfDay_le t) as Hd.
  destruct (Z.lt_ge_cases (getHours t) (startHour s)) as [Hlt|Hge].
  - rewrite adjust_early by assumption. unfold atHour.
    rewrite msPerHour_eq in *. nia.
  - destruct (Z.lt_ge_cases (getHours t) (endHour s)) as [Hlt'|Hge'].
    + rewrite adjust_inside by (split; assumption). lia.
    + rewrite adjust_late by assumption. unfold atHourNextDay.
      rewrite msPerHour_eq in *. nia.
Qed.

(** The examples of the quiet-hours adjustment with active hours
    8 to 22: 03:00 goes to 08:00 of the same day, 23:00 to 08:00 of the
    next day, 14:00 stays. *)
Example adjust_0300 :
  adjustForQuietHours (5 * msPerDay + 3 * msPerHour) DEFAULT_SETTINGS
  = 5 * msPerDay + 8 * msPerHour.
Proof. reflexivity. Qed.

Example adjust_2300 :
  adjustForQuietHours (5 * msPerDay + 23 * msPerHour) DEFAULT_SETTINGS
  = 6 * msPerDay + 8 * msPerHour.
Proof. reflexivity. Qed.

Example adjust_1400 :
  adjustForQuietHours (5 * msPerDay + 14 * msPerHour) DEFAULT_SETTINGS
  = 5 * msPerDay + 14 * msPerHour.
Proof. reflexivity. Qed.

(** C4: with [startHour < endHour] (and [startHour] an hour of the
    day, as the settings have it), the quiet-hours adjustment returns
    [startHour:00] of the same day when the hour of day is below
    [startHour], [startHour:00] of the next day when it is at least
    [endHour], and the instant itself otherwise; an instant inside
    active hours is a fixed point, and adjusting twice is adjusting
    once. *)
Theorem adjustForQuietHours_spec (t : Z) (s : Settings) :
  0 <= startHour s < 24 ->
  startHour s < endHour s ->
  (getHours t < startHour s ->
   adjustForQuietHours t s = atHour t (startHour s)) /\
  (endHour s <= getHours t ->
   adjustForQuietHours t s = atHourNextDay t (startHour s)) /\
  (startHour s <= getHours t < endHour s ->
   adjustForQuietHours t s = t) /\
  adjustForQuietHours (adjustForQuietHours t s) s = adjustForQuietHours t s.
Proof.
  intros Hr Hse. repeat split.
  - intros H. now apply adjust_early.
  - intros H. now apply adjust_late.
  - intros H. now apply adjust_inside.
  - apply adjust_inside. now apply adjust_inActiveHours.
Qed.

Lemma adjustForQuietHours_spec_witness :
  let t := 5 * msPerDay + 23 * msPerHour + 1234 in
  let s := DEFAULT_SETTINGS in
  (getHours t < startHour s ->
   adjustForQuietHours t s = atHour t (startHour s)) /\
  (endHour s <= getHours t ->
   adjustForQuietHours t s = atHourNextDay t (startHour s)) /\
  (startHour s <= getHours t < endHour s ->
   adjustForQuietHours t s = t) /\
  adjustForQuietHours (adjustForQuietHours t s) s = adjustForQuietHours t s.
Proof.
  apply (adjustForQuietHours_spec
           (5 * msPerDay + 23 * msPerHour + 1234) DEFAULT_SETTINGS).
  - simpl. lia.
  - simpl. lia.
Defined.


(** ** Recurring nag planner *)

Lemma nagLoop_more_fuel (s : Settings) (intervalMs endTime : Z) :
  forall (fuel fuel' : nat) (cur : Z) (l : list Z),
    nagLoop fuel s intervalMs endTime cur = Some l ->
    (fuel <= fuel')%nat ->
    nagLoop fuel' s intervalMs endTime cur = Some l.
Proof.
  induction fuel as [|fuel IH]; intros fuel' cur l Hrun Hle.
  - discriminate.
  - destruct fuel' as [|fuel']; [lia|]. simpl in *.
    destruct (cur <? endTime); [|assumption].
    destruct (nagLoop fuel s intervalMs endTime _) as [rest|] eqn:Hrest;
      [|discriminate].
    rewrite (IH fuel' _ rest Hrest) by lia. assumption.
Qed.

Lemma nagLoop_sound (s : Settings) (intervalMs endTime : Z) :
  0 <= startHour s < 24 -> startHour s < endHour s ->
  forall (fuel : nat) (cur : Z) (l : list Z),
    inActiveHours cur s ->
    nagLoop fuel s intervalMs endTime cur = Some l ->
    Forall (fun x => x < endTime) l /\
    Forall (fun x => inActiveHours x s) l /\
    nagChain s intervalMs cur l.
Proof.
  intros Hr Hse. induction fuel as [|fuel IH]; intros cur l Hin Hrun.
  - discriminate.
  - simpl in Hrun. destruct (Z.ltb_spec cur endTime) as [Hlt|Hge].
    + destruct (nagLoop fuel s intervalMs endTime _) as [rest|] eqn:Hrest;
        [|discriminate].
      injection Hrun as <-.
      destruct (IH _ _ (adjust_inActiveHours _ s Hr Hse) Hrest)
        as (Hend & Hact & Hchain).
      repeat split; try constructor; assumption.
    + injection Hrun as <-. repeat split; constructor.
Qed.

Lemma nagLoop_S (s : Settings) (intervalMs endTime cur : Z) (fuel : nat) :
  nagLoop (S fuel) s intervalMs endTime cur =
  if cur <? endTime
  then
    match
      nagLoop fuel s intervalMs endTime
        (adjustForQuietHours (cur + intervalMs) s)
    with
    | Some scheduledTimes => Some (cur :: scheduledTimes)
    | None => None
    end
  else Some [].
Proof. reflexivity. Qed.

(** With a positive interval the loop ends: [n] rounds are enough when
    the horizon is at most [n] intervals away. *)
Lemma nagLoop_total (s : Settings) (intervalMs endTime : Z) :
  0 <= startHour s -> startHour s < endHour s -> 0 < intervalMs ->
  forall (n : nat) (cur : Z),
    endTime - cur <= Z.of_nat n * intervalMs ->
    exists l,
      nagLoop (S n) s intervalMs endTime cur = Some l /\
      (List.length l <= n)%nat /\
      stepsAtLeast intervalMs l /\
      hd cur l = cur.
Proof.
  intros Hr Hse Hpos. induction n as [|n IH]; intros cur Hgap.
  - exists []. simpl. destruct (Z.ltb_spec cur endTime); [lia|].
    repeat split; lia.
  - pose proof (adjust_ge (cur + intervalMs) s Hr Hse) as Hadv.
    rewrite nagLoop_S. destruct (Z.ltb_spec cur endTime) as [Hlt|Hge].
    + destruct (IH (adjustForQuietHours (cur + intervalMs) s))
        as (l & Hl & Hlen & Hsteps & Hhd); [nia|].
      rewrite Hl. exists (cur :: l). repeat split.
      * simpl. lia.
      * destruct l as [|y l']; [exact I|].
        simpl in Hhd. subst y. split; [lia|assumption].
    + exists []. repeat split; simpl; lia.
Qed.

Lemma planNagTimes_total (msg : Message.t) (s : Settings) (now : Z) :
  1 <= Message.nagIntervalMinutes msg ->
  0 <= startHour s -> startHour s < endHour s ->
  exists l,
    planNagTimes (nagFuel msg) msg s now = Some l /\
    Z.of_nat (List.length l) <= horizonMs / intervalMsOf msg /\
    stepsAtLeast (intervalMsOf msg) l.
Proof.
  intros Hm Hr Hse. unfold planNagTimes, nagFuel.
  fold (intervalMsOf msg). fold horizonMs.
  assert (Hpos : 0 < intervalMsOf msg) by (unfold intervalMsOf; lia).
  pose proof (adjust_ge (now + intervalMsOf msg) s Hr Hse) as Hadv.
  assert (Hq : 0 <= horizonMs / intervalMsOf msg)
    by (apply Z.div_pos; [unfold horizonMs|]; lia).
  destruct (nagLoop_total s (intervalMsOf msg) (now + horizonMs) Hr Hse Hpos
              (Z.to_nat (horizonMs / intervalMsOf msg))
              (adjustForQuietHours (now + intervalMsOf msg) s))
    as (l & Hl & Hlen & Hsteps & _).
  - rewrite Z2Nat.id by assumption.
    pose proof (Z.div_mod horizonMs (intervalMsOf msg)) as Hdm.
    pose proof (Z.mod_pos_bound horizonMs (intervalMsOf msg) Hpos) as Hmod.
    nia.
  - exists l. repeat split; [assumption| lia |assumption].
Qed.

Lemma planNagTimes_det (msg : Message.t) (s : Settings) (now : Z)
    (fuel fuel' : nat) (l l' : list Z) :
  planNagTimes fuel msg s now = Some l ->
  planNagTimes fuel' msg s now = Some l' ->
  l' = l.
Proof.
  unfold planNagTimes. intros H H'.
  apply nagLoop_more_fuel with (fuel' := Nat.max fuel fuel') in H; [|lia].
  apply nagLoop_more_fuel with (fuel' := Nat.max fuel fuel') in H'; [|lia].
  congruence.
Qed.

(** The example of the planner: every 90 minutes from 09:00 with active
    hours 8 to 22 gives 10:30, 12:00, ... 21:00 and then 08:00 of the
    next day. *)
Example planNagTimes_90 :
  planNagTimes 20
    (Message.mk "m" "stretch" 3 true 90 0 None) DEFAULT_SETTINGS
    (5 * msPerDay + 9 * msPerHour)
  = Some (map (fun minutes => 5 * msPerDay + minutes * msPerMinute)
            [630; 720; 810; 900; 990; 1080; 1170; 1260; 1440 + 480]).
Proof. vm_compute. reflexivity. Qed.

Lemma nagLoop_plansUntil (s : Settings) (intervalMs endTime : Z) :
  forall (fuel : nat) (cur : Z) (l : list Z),
    nagLoop fuel s intervalMs endTime cur = Some l ->
    plansUntil s intervalMs endTime cur l.
Proof.
  induction fuel as [|fuel IH]; intros cur l Hrun; [discriminate|].
  rewrite nagLoop_S in Hrun. destruct (Z.ltb_spec cur endTime) as [Hlt|Hge].
  - destruct (nagLoop fuel s intervalMs endTime _) as [rest|] eqn:Hrest;
      [|discriminate].
    injection Hrun as <-. cbn [plansUntil].
    split; [reflexivity|]. split; [assumption|]. now apply IH.
  - injection Hrun as <-. exact Hge.
Qed.

Lemma plansUntil_head (s : Settings) (intervalMs endTime first : Z)
    (l : list Z) :
  plansUntil s intervalMs endTime first l ->
  first < endTime -> exists rest, l = first :: rest.
Proof.
  destruct l as [|x rest]; cbn [plansUntil].
  - lia.
  - intros (-> & _ & _) _. now exists rest.
Qed.

Lemma plansUntil_last (s : Settings) (intervalMs endTime : Z) :
  forall (l : list Z) (first d : Z),
    plansUntil s intervalMs endTime first l ->
    l <> [] ->
    endTime <= adjustForQuietHours (last l d + intervalMs) s.
Proof.
  induction l as [|x l IH]; intros first d Hplan Hne; [contradiction|].
  cbn [plansUntil] in Hplan. destruct Hplan as (-> & _ & Hrest).
  destruct l as [|y l'].
  - exact Hrest.
  - change (last (first :: y :: l') d) with (last (y :: l') d).
    apply (IH _ d Hrest). discriminate.
Qed.

(** C3: for a message with [nagIntervalMinutes >= 1] and settings with
    [startHour < endHour] (and [startHour] an hour of the day), the
    planning loop of [scheduleRepeatingNag] produces a sequence whose
    instants are all strictly before [now + 24h] and inside active
    hours; its first instant is the adjustment of
    [now + nagIntervalMinutes] and each later one is the adjustment of
    its predecessor plus [nagIntervalMinutes].  The sequence is the
    whole run to the horizon: the adjustment of
    [now + nagIntervalMinutes] is planned as soon as it is before
    [now + 24h], every adjusted successor that is before [now + 24h] is
    planned too, and the sequence ends only where the next one is not
    before [now + 24h]. *)
Theorem planNagTimes_spec (msg : Message.t) (s : Settings) (now : Z) :
  1 <= Message.nagIntervalMinutes msg ->
  0 <= startHour s < 24 ->
  startHour s < endHour s ->
  exists l,
    planNagTimes (nagFuel msg) msg s now = Some l /\
    (forall fuel l', planNagTimes fuel msg s now = Some l' -> l' = l) /\
    Forall (fun x => x < now + 24 * msPerHour) l /\
    Forall (fun x => inActiveHours x s) l /\
    nagChain s (Message.nagIntervalMinutes msg * msPerMinute)
      (adjustForQuietHours
         (now + Message.nagIntervalMinutes msg * msPerMinute) s) l /\
    plansUntil s (Message.nagIntervalMinutes msg * msPerMinute)
      (now + 24 * msPerHour)
      (adjustForQuietHours
         (now + Message.nagIntervalMinutes msg * msPerMinute) s) l /\
    (adjustForQuietHours
       (now + Message.nagIntervalMinutes msg * msPerMinute) s
     < now + 24 * msPerHour ->
     exists rest,
       l = adjustForQuietHours
             (now + Message.nagIntervalMinutes msg * msPerMinute) s
           :: rest) /\
    (l = [] ->
     now + 24 * msPerHour
     <= adjustForQuietHours
          (now + Message.nagIntervalMinutes msg * msPerMinute) s) /\
    (forall d, l <> [] ->
       now + 24 * msPerHour
       <= adjustForQuietHours
            (last l d + Message.nagIntervalMinutes msg * msPerMinute) s).
Proof.
  intros Hm Hr Hse.
  destruct (planNagTimes_total msg s now Hm (proj1 Hr) Hse) as (l & Hl & _).
  exists l. split; [assumption|]. split.
  - intros fuel l' Hl'. exact (planNagTimes_det _ _ _ _ _ _ _ Hl Hl').
  - unfold planNagTimes in Hl.
    replace (Message.nagIntervalMinutes msg * msPerMinute)
      with (Message.nagIntervalMinutes msg * 60 * 1000)
      by (rewrite msPerMinute_eq; ring).
    replace (now + 24 * msPerHour) with (now + 24 * 60 * 60 * 1000)
      by (rewrite msPerHour_eq; ring).
    pose proof (nagLoop_plansUntil _ _ _ _ _ _ Hl) as Hplan.
    apply nagLoop_sound in Hl;
      [|assumption|assumption|now apply adjust_inActiveHours].
    destruct Hl as (Hend & Hact & Hchain).
    repeat (split; [assumption|]). split; [|split].
    + now apply (plansUntil_head _ _ _ _ _ Hplan).
    + intros ->. exact Hplan.
    + intros d Hne. exact (plansUntil_last _ _ _ _ _ d Hplan Hne).
Qed.

Lemma planNagTimes_spec_witness :
  let msg := Message.mk "m" "stretch" 3 true 90 0 None in
  let s := DEFAULT_SETTINGS in
  let now := 5 * msPerDay + 9 * msPerHour in
  exists l,
    planNagTimes (nagFuel msg) msg s now = Some l /\
    (forall fuel l', planNagTimes fuel msg s now = Some l' -> l' = l) /\
    Forall (fun x => x < now + 24 * msPerHour) l /\
    Forall (fun x => inActiveHours x s) l /\
    nagChain s (Message.nagIntervalMinutes msg * msPerMinute)
      (adjustForQuietHours
         (now + Message.nagIntervalMinutes msg * msPerMinute) s) l /\
    plansUntil s (Message.nagIntervalMinutes msg * msPerMinute)
      (now + 24 * msPerHour)
      (adjustForQuietHours
         (now + Message.nagIntervalMinutes msg * msPerMinute) s) l /\
    (adjustForQuietHours
       (now + Message.nagIntervalMinutes msg * msPerMinute) s
     < now + 24 * msPerHour ->
     exists rest,
       l = adjustForQuietHours
             (now + Message.nagIntervalMinutes msg * msPerMinute) s
           :: rest) /\
    (l = [] ->
     now + 24 * msPerHour
     <= adjustForQuietHours
          (now + Message.nagIntervalMinutes msg * msPerMinute) s) /\
    (forall d, l <> [] ->
       now + 24 * msPerHour
       <= adjustForQuietHours
            (last l d + Message.nagIntervalMinutes msg * msPerMinute) s).
Proof.
  apply (planNagTimes_spec
           (Message.mk "m" "stretch" 3 true 90 0 None) DEFAULT_SETTINGS
           (5 * msPerDay + 9 * msPerHour)).
  - simpl. lia.
  - simpl. lia.
  - simpl. lia.
Defined.

(** The run of [plansUntil] is unique: two sequences that meet it from
    the same first instant are equal, so that neither an empty plan nor
    one cut short meets it where the full plan does. *)
Lemma plansUntil_unique (s : Settings) (intervalMs endTime : Z) :
  forall (l l' : list Z) (first : Z),
    plansUntil s intervalMs endTime first l ->
    plansUntil s intervalMs endTime first l' ->
    l = l'.
Proof.
  induction l as [|x l IH]; intros l' first H H'.
  - destruct l' as [|x' l']; [reflexivity|].
    cbn [plansUntil] in *. lia.
  - destruct l' as [|x' l']; cbn [plansUntil] in *; [lia|].
    destruct H as (-> & _ & H), H' as (-> & _ & H').
    f_equal. exact (IH _ _ H H').
Qed.

(** C7: for a message with [nagIntervalMinutes >= 1] and settings with
    [startHour < endHour] (and [startHour] not negative), the adjustment
    never moves an instant backward, the planning loop of
    [scheduleRepeatingNag] ends (any fuel from [nagFuel] on gives the
    same finite sequence), consecutive instants are at least one
    interval apart, and the length of the sequence is at most the
    24-hour horizon divided by the interval. *)
Theorem planNagTimes_terminates (msg : Message.t) (s : Settings) (now : Z) :
  1 <= Message.nagIntervalMinutes msg ->
  0 <= startHour s ->
  startHour s < endHour s ->
  (forall t, t <= adjustForQuietHours t s) /\
  exists l,
    (forall fuel, (nagFuel msg <= fuel)%nat ->
                  planNagTimes fuel msg s now = Some l) /\
    stepsAtLeast (Message.nagIntervalMinutes msg * msPerMinute) l /\
    Z.of_nat (List.length l)
    <= (24 * msPerHour) / (Message.nagIntervalMinutes msg * msPerMinute).
Proof.
  intros Hm Hr Hse. split.
  - intros t. now apply adjust_ge.
  - destruct (planNagTimes_total msg s now Hm Hr Hse)
      as (l & Hl & Hlen & Hsteps).
    replace (Message.nagIntervalMinutes msg * msPerMinute)
      with (intervalMsOf msg)
      by (unfold intervalMsOf; rewrite msPerMinute_eq; ring).
    exists l. repeat split; try assumption.
    intros fuel Hfuel. unfold planNagTimes in *.
    now apply nagLoop_more_fuel with (fuel := nagFuel msg).
Qed.

Lemma planNagTimes_terminates_witness :
  let msg := Message.mk "m" "stretch" 3 true 1 0 None in
  let s := DEFAULT_SETTINGS in
  let now := 5 * msPerDay + 9 * msPerHour in
  (forall t, t <= adjustForQuietHours t s) /\
  exists l,
    (forall fuel, (nagFuel msg <= fuel)%nat ->
                  planNagTimes fuel msg s now = Some l) /\
    stepsAtLeast (Message.nagIntervalMinutes msg * msPerMinute) l /\
    Z.of_nat (List.length l)
    <= (24 * msPerHour) / (Message.nagIntervalMinutes msg * msPerMinute).
Proof.
  apply (planNagTimes_terminates
           (Message.mk "m" "stretch" 3 true 1 0 None) DEFAULT_SETTINGS
           (5 * msPerDay + 9 * msPerHour)).
  - simpl. lia.
  - simpl. lia.
  - simpl. lia.
Defined.

(** ** Window sampler *)

Lemma timeClip_between (q : Q) (a b : Z) :
  (inject_Z a <= q)%Q -> (q <= inject_Z b)%Q -> a <= timeClip q <= b.
Proof.
  destruct q as [n d]. unfold Qle, timeClip. simpl. intros Ha Hb.
  pose proof (Pos2Z.is_pos d) as Hd.
  Z.to_euclidean_division_equations. nia.
Qed.

Lemma candidateTimeOf_between (startTime windowMs : Z) (u : Q) :
  unitDraw u -> 0 <= windowMs ->
  startTime <= candidateTimeOf startTime windowMs u <= startTime + windowMs.
Proof.
  intros [H0 H1] Hw. unfold candidateTimeOf.
  assert (Hw' : (0 <= inject_Z windowMs)%Q)
    by (change 0%Q with (inject_Z 0); now rewrite <- Zle_Qle).
  apply timeClip_between.
  - nra.
  - rewrite inject_Z_plus. nra.
Qed.

Section SamplerLoops.

Variable rand : nat -> Q.
Variable now startTime windowMs minGapMs : Z.

Let draw := drawValidTime rand now startTime windowMs minGapMs.
Let fill := fillSlots rand now startTime windowMs minGapMs.

Lemma drawValidTime_Some (times : list Z) :
  forall (attempts rng rng' : nat) (c : Z),
    draw times attempts rng = (Some c, rng') ->
    (exists k, c = candidateTimeOf startTime windowMs (rand k)) /\
    acceptable now minGapMs times c = true.
Proof.
  induction attempts as [|attempts IH]; intros rng rng' c Hrun.
  - discriminate.
  - unfold draw in *. simpl in Hrun.
    fold (acceptable now minGapMs times
            (candidateTimeOf startTime windowMs (rand rng))) in Hrun.
    destruct (acceptable _ _ _ _) eqn:Hacc.
    + injection Hrun as <- <-. split; [now exists rng|assumption].
    + now apply IH in Hrun.
Qed.

(** When every one of the attempts draws a candidate that is refused,
    the loop gives up with no valid time. *)
Lemma drawValidTime_None (times : list Z) :
  forall (attempts rng : nat),
    (forall i, (i < attempts)%nat ->
       acceptable now minGapMs times
         (candidateTimeOf startTime windowMs (rand (rng + i))) = false) ->
    draw times attempts rng = (None, (rng + attempts)%nat).
Proof.
  induction attempts as [|attempts IH]; intros rng Hrej.
  - unfold draw. simpl. now rewrite Nat.add_0_r.
  - unfold draw in *. simpl.
    fold (acceptable now minGapMs times
            (candidateTimeOf startTime windowMs (rand rng))).
    pose proof (Hrej 0%nat ltac:(lia)) as H0. rewrite Nat.add_0_r in H0.
    rewrite H0, IH.
    + f_equal. lia.
    + intros i Hi. replace (S rng + i)%nat with (rng + S i)%nat by lia.
      apply Hrej. lia.
Qed.

Lemma acceptable_spec (times : list Z) (c : Z) :
  acceptable now minGapMs times c = true ->
  Forall (fun t => apart minGapMs t c) times /\ now < c.
Proof.
  unfold acceptable, tooClose. intros H.
  apply andb_prop in H as [Hclose Hnow]. split; [|lia].
  apply negb_true_iff in Hclose. apply Forall_forall. intros t Ht.
  unfold apart.
  assert (Hlt : (Z.abs (c - t) <? minGapMs) = false).
  { destruct (Z.abs (c - t) <? minGapMs) eqn:E; [|reflexivity].
    rewrite <- Hclose. symmetry. apply existsb_exists. now exists t. }
  apply Z.ltb_ge in Hlt. lia.
Qed.

Lemma pairwiseApart_snoc (l : list Z) (c : Z) :
  pairwiseApart minGapMs l ->
  Forall (fun t => apart minGapMs t c) l ->
  pairwiseApart minGapMs (l ++ [c]).
Proof.
  unfold pairwiseApart. induction 1 as [|a l Ha Hl IH]; intros Hc; simpl.
  - repeat constructor.
  - inversion Hc; subst. constructor.
    + apply Forall_app. split; [assumption|now constructor].
    + now apply IH.
Qed.

Lemma fillSlots_S (slots : nat) (times : list Z) (rng : nat) :
  fill (S slots) times rng =
  let (validTime, rng') := draw times 50 rng in
  fill slots
    match validTime with
    | Some t => times ++ [t]
    | None => times
    end rng'.
Proof. reflexivity. Qed.

(** What the slot loop keeps true of the accepted times. *)
Lemma fillSlots_inv (P : Z -> Prop) :
  (forall k c, c = candidateTimeOf startTime windowMs (rand k) ->
               now < c -> P c) ->
  forall (slots : nat) (times times' : list Z) (rng rng' : nat),
    fill slots times rng = (times', rng') ->
    Forall P times -> pairwiseApart minGapMs times ->
    Forall P times' /\
    pairwiseApart minGapMs times' /\
    (List.length times' <= List.length times + slots)%nat.
Proof.
  intros HP. induction slots as [|slots IH];
    intros times times' rng rng' Hrun HPt Hgap.
  - unfold fill in Hrun. simpl in Hrun. injection Hrun as <- <-.
    repeat split; [assumption|assumption|lia].
  - rewrite fillSlots_S in Hrun.
    destruct (draw times 50 rng) as [[c|] rng1] eqn:Hdraw.
    + apply drawValidTime_Some in Hdraw as [[k Hk] Hacc].
      apply acceptable_spec in Hacc as [Hfar Hnow].
      apply IH in Hrun.
      * destruct Hrun as (H1 & H2 & H3). repeat split; try assumption.
        rewrite length_app in H3. simpl in H3. lia.
      * apply Forall_app. split; [assumption|]. constructor; [|constructor].
        now apply (HP k).
      * now apply pairwiseApart_snoc.
    + apply IH in Hrun; try assumption.
      destruct Hrun as (H1 & H2 & H3). repeat split; try assumption. lia.
Qed.

(** A slot whose fifty attempts are all refused leaves the accepted
    times as they are. *)
Lemma fillSlots_skip (slots : nat) (times : list Z) (rng : nat) :
  (forall i, (i < 50)%nat ->
     acceptable now minGapMs times
       (candidateTimeOf startTime windowMs (rand (rng + i))) = false) ->
  fill (S slots) times rng = fill slots times (rng + 50)%nat.
Proof.
  intros Hrej. rewrite fillSlots_S.
  now rewrite (drawValidTime_None times 50 rng Hrej).
Qed.

End SamplerLoops.

(** *** Sorting *)

Lemma insertAscending_perm (x : Z) (l : list Z) :
  Permutation (insertAscending x l) (x :: l).
Proof.
  induction l as [|y l IH]; simpl; [reflexivity|].
  destruct (x <=? y); [reflexivity|].
  rewrite IH. apply perm_swap.
Qed.

Lemma sortAscending_perm (l : list Z) : Permutation (sortAscending l) l.
Proof.
  induction l as [|x l IH]; simpl; [reflexivity|].
  rewrite insertAscending_perm. now constructor.
Qed.

Lemma insertAscending_sorted (x : Z) (l : list Z) :
  StronglySorted Z.le l -> StronglySorted Z.le (insertAscending x l).
Proof.
  induction 1 as [|y l Hl IH Hy]; simpl.
  - repeat constructor.
  - destruct (Z.leb_spec x y) as [Hle|Hgt].
    + constructor; [now constructor|]. constructor; [assumption|].
      eapply Forall_impl; [|exact Hy]. simpl. intros; lia.
    + constructor; [assumption|].
      apply (Permutation_Forall (x := x :: l)).
      * symmetry. apply insertAscending_perm.
      * constructor; [lia|assumption].
Qed.

Lemma sortAscending_sorted (l : list Z) : StronglySorted Z.le (sortAscending l).
Proof.
  induction l as [|x l IH]; simpl; [constructor|].
  now apply insertAscending_sorted.
Qed.

Lemma apart_sym (d a b : Z) : apart d a b -> apart d b a.
Proof. unfold apart. lia. Qed.

Lemma insertAscending_apart (d x : Z) (l : list Z) :
  Forall (apart d x) l -> pairwiseApart d l ->
  pairwiseApart d (insertAscending x l).
Proof.
  unfold pairwiseApart. intros Hx Hl. revert Hx.
  induction Hl as [|y l Hy Hl IH]; intros Hx; simpl.
  - repeat constructor.
  - inversion Hx; subst. destruct (x <=? y).
    + constructor; [assumption|now constructor].
    + constructor; [|now apply IH].
      apply (Permutation_Forall (x := x :: l)).
      * symmetry. apply insertAscending_perm.
      * constructor; [now apply apart_sym|assumption].
Qed.

Lemma sortAscending_apart (d : Z) (l : list Z) :
  pairwiseApart d l -> pairwiseApart d (sortAscending l).
Proof.
  unfold pairwiseApart. induction 1 as [|x l Hx Hl IH]; simpl.
  - constructor.
  - apply insertAscending_apart; [|assumption].
    apply (Permutation_Forall (x := l)); [|assumption].
    symmetry. apply sortAscending_perm.
Qed.

Lemma pairwiseApart_nth (d : Z) (l : list Z) :
  pairwiseApart d l ->
  forall (i j : nat) (a b : Z),
    i <> j -> nth_error l i = Some a -> nth_error l j = Some b ->
    d <= Z.abs (a - b).
Proof.
  unfold pairwiseApart. induction 1 as [|x l Hx Hl IH]; intros i j a b Hij Ha Hb.
  - destruct i; discriminate.
  - rewrite Forall_forall in Hx.
    destruct i as [|i], j as [|j]; simpl in *.
    + congruence.
    + injection Ha as <-. apply nth_error_In in Hb. now apply Hx.
    + injection Hb as <-. apply nth_error_In in Ha.
      apply apart_sym. now apply Hx.
    + apply (IH i j); auto.
Qed.

(** *** The window and the sampled times *)

Lemma startOfDay_idem (t : Z) : startOfDay (startOfDay t) = startOfDay t.
Proof.
  unfold startOfDay. rewrite Z.div_mul by (rewrite msPerDay_eq; lia).
  reflexivity.
Qed.

Lemma notificationWindow_eq (s : Settings) (now : Z) :
  notificationWindow s now =
  if now >? atHour now (endHour s)
  then (atHour now (startHour s) + msPerDay, atHour now (endHour s) + msPerDay)
  else (atHour now (startHour s), atHour now (endHour s)).
Proof.
  unfold notificationWindow, setHours, addDays, atHour.
  rewrite startOfDay_idem.
  destruct (now >? _); f_equal; ring.
Qed.

Lemma calculateNotificationTimes_inv (rand : nat -> Q) (s : Settings)
    (now : Z) (rng : nat) (P : Z -> Prop) :
  (forall k c,
     c = candidateTimeOf (fst (notificationWindow s now))
           (snd (notificationWindow s now) - fst (notificationWindow s now))
           (rand k) ->
     now < c -> P c) ->
  Forall P (fst (calculateNotificationTimes rand s now rng)) /\
  pairwiseApart (minGapHours s * 60 * 60 * 1000)
    (fst (calculateNotificationTimes rand s now rng)) /\
  (List.length (fst (calculateNotificationTimes rand s now rng))
   <= Z.to_nat (dailyFrequency s))%nat.
Proof.
  intros HP. unfold calculateNotificationTimes.
  destruct (notificationWindow s now) as [startTime endTime]. simpl in HP.
  destruct (fillSlots _ _ _ _ _ _ _ _) as [times rng'] eqn:Hfill. simpl.
  apply (fillSlots_inv rand now startTime (endTime - startTime) _ P HP)
    in Hfill; [|constructor|constructor].
  destruct Hfill as (H1 & H2 & H3). repeat split.
  - apply (Permutation_Forall (x := times)); [|assumption].
    symmetry. apply sortAscending_perm.
  - now apply sortAscending_apart.
  - rewrite (Permutation_length (sortAscending_perm times)). simpl in H3. lia.
Qed.

(** A run of the sampler on the default settings at 09:00, with draws
    that cycle through sevenths: three times inside 08:00 to 22:00,
    ascending and two hours apart. *)
Example calculateNotificationTimes_run :
  fst (calculateNotificationTimes
         (fun n => Z.of_nat (n * 3 mod 7) # 7) DEFAULT_SETTINGS
         (5 * msPerDay + 9 * msPerHour) 0)
  = map (fun minutes => 5 * msPerDay + minutes * msPerMinute)
      [720; 840; 1200].
Proof. vm_compute. reflexivity. Qed.

(** C1: with [startHour < endHour] and draws of [Math.random()] in
    [[0, 1)], when [now] is strictly before [endHour:00] of its day
    every instant returned by [calculateNotificationTimes] lies in
    today's window [[startHour:00, endHour:00]] and is strictly after
    [now]; when [now] is past [endHour:00], every returned instant lies
    in that window moved forward by exactly one day, both ends
    together. *)
Theorem calculateNotificationTimes_window (rand : nat -> Q) (s : Settings)
    (now : Z) (rng : nat) :
  (forall n, unitDraw (rand n)) ->
  startHour s < endHour s ->
  (now < atHour now (endHour s) ->
   Forall (fun t => atHour now (startHour s) <= t <= atHour now (endHour s)
                    /\ now < t)
     (fst (calculateNotificationTimes rand s now rng))) /\
  (atHour now (endHour s) < now ->
   Forall (fun t => atHour now (startHour s) + msPerDay <= t
                    <= atHour now (endHour s) + msPerDay
                    /\ now < t)
     (fst (calculateNotificationTimes rand s now rng))).
Proof.
  intros Hrand Hse.
  assert (Hw : 0 <= atHour now (endHour s) - atHour now (startHour s))
    by (unfold atHour; rewrite msPerHour_eq; lia).
  split; intros Hnow;
    apply (calculateNotificationTimes_inv rand s now rng);
    intros k c Hc Hlt; rewrite notificationWindow_eq in Hc.
  - destruct (Z.gtb_spec now (atHour now (endHour s))); [lia|].
    simpl in Hc.
    pose proof (candidateTimeOf_between (atHour now (startHour s)) _
                  (rand k) (Hrand k) Hw).
    subst c. lia.
  - destruct (Z.gtb_spec now (atHour now (endHour s))); [|lia].
    simpl in Hc.
    pose proof (candidateTimeOf_between (atHour now (startHour s) + msPerDay)
                  (atHour now (endHour s) + msPerDay
                   - (atHour now (startHour s) + msPerDay))
                  (rand k) (Hrand k) ltac:(lia)).
    subst c. lia.
Qed.

Lemma calculateNotificationTimes_window_witness :
  let rand := fun n : nat => Z.of_nat (n * 3 mod 7) # 7 in
  let s := DEFAULT_SETTINGS in
  let now := 5 * msPerDay + 9 * msPerHour in
  (now < atHour now (endHour s) ->
   Forall (fun t => atHour now (startHour s) <= t <= atHour now (endHour s)
                    /\ now < t)
     (fst (calculateNotificationTimes rand s now 0))) /\
  (atHour now (endHour s) < now ->
   Forall (fun t => atHour now (startHour s) + msPerDay <= t
                    <= atHour now (endHour s) + msPerDay
                    /\ now < t)
     (fst (calculateNotificationTimes rand s now 0))).
Proof.
  apply (calculateNotificationTimes_window
           (fun n : nat => Z.of_nat (n * 3 mod 7) # 7) DEFAULT_SETTINGS
           (5 * msPerDay + 9 * msPerHour) 0).
  - intros n. unfold unitDraw, Qle, Qlt. cbn [Qnum Qden].
    pose proof (Nat.mod_upper_bound (n * 3) 7). lia.
  - simpl. lia.
Defined.

(** C2: the sequence returned by [calculateNotificationTimes] has at
    most [dailyFrequency] elements, is sorted in ascending order, and
    any two of its instants at different positions are at least
    [minGapHours] hours apart; a slot whose fifty attempts are all
    refused is passed over and leaves the accepted times as they
    were. *)
Theorem calculateNotificationTimes_shape (rand : nat -> Q) (s : Settings)
    (now : Z) (rng : nat) :
  0 <= dailyFrequency s ->
  Z.of_nat (List.length (fst (calculateNotificationTimes rand s now rng)))
  <= dailyFrequency s /\
  StronglySorted Z.le (fst (calculateNotificationTimes rand s now rng)) /\
  (forall (i j : nat) (a b : Z),
     i <> j ->
     nth_error (fst (calculateNotificationTimes rand s now rng)) i = Some a ->
     nth_error (fst (calculateNotificationTimes rand s now rng)) j = Some b ->
     minGapHours s * msPerHour <= Z.abs (a - b)) /\
  (forall (startTime windowMs minGapMs : Z) (slots : nat) (times : list Z)
          (k : nat),
     (forall i, (i < 50)%nat ->
        acceptable now minGapMs times
          (candidateTimeOf startTime windowMs (rand (k + i)%nat)) = false) ->
     fillSlots rand now startTime windowMs minGapMs (S slots) times k
     = fillSlots rand now startTime windowMs minGapMs slots times
         (k + 50)%nat).
Proof.
  intros Hfreq.
  destruct (calculateNotificationTimes_inv rand s now rng (fun _ => True))
    as (_ & Hgap & Hlen); [trivial|].
  repeat split.
  - lia.
  - unfold calculateNotificationTimes.
    destruct (notificationWindow s now) as [startTime endTime].
    destruct (fillSlots _ _ _ _ _ _ _ _) as [times rng']. simpl.
    apply sortAscending_sorted.
  - replace (minGapHours s * msPerHour) with (minGapHours s * 60 * 60 * 1000)
      by (rewrite msPerHour_eq; ring).
    now apply pairwiseApart_nth.
  - intros startTime windowMs minGapMs slots times k Hrej.
    now apply fillSlots_skip.
Qed.

Lemma calculateNotificationTimes_shape_witness :
  let rand := fun n : nat => Z.of_nat (n * 3 mod 7) # 7 in
  let s := DEFAULT_SETTINGS in
  let now := 5 * msPerDay + 9 * msPerHour in
  Z.of_nat (List.length (fst (calculateNotificationTimes rand s now 0)))
  <= dailyFrequency s /\
  StronglySorted Z.le (fst (calculateNotificationTimes rand s now 0)) /\
  (forall (i j : nat) (a b : Z),
     i <> j ->
     nth_error (fst (calculateNotificationTimes rand s now 0)) i = Some a ->
     nth_error (fst (calculateNotificationTimes rand s now 0)) j = Some b ->
     minGapHours s * msPerHour <= Z.abs (a - b)) /\
  (forall (startTime windowMs minGapMs : Z) (slots : nat) (times : list Z)
          (k : nat),
     (forall i, (i < 50)%nat ->
        acceptable now minGapMs times
          (candidateTimeOf startTime windowMs (rand (k + i)%nat)) = false) ->
     fillSlots rand now startTime windowMs minGapMs (S slots) times k
     = fillSlots rand now startTime windowMs minGapMs slots times
         (k + 50)%nat).
Proof.
  apply (calculateNotificationTimes_shape
           (fun n : nat => Z.of_nat (n * 3 mod 7) # 7) DEFAULT_SETTINGS
           (5 * msPerDay + 9 * msPerHour) 0).
  simpl. lia.
Defined.

(** Under-delivery: with a gap of 20 hours only one of the three slots
    of the same run can be filled. *)
Example calculateNotificationTimes_saturated :
  fst (calculateNotificationTimes
         (fun n => Z.of_nat (n * 3 mod 7) # 7)
         (mkSettings true 3 8 22 20)
         (5 * msPerDay + 9 * msPerHour) 0)
  = [5 * msPerDay + 840 * msPerMinute].
Proof. vm_compute. reflexivity. Qed.

(** ** Weighted selector *)

Lemma weigh_message (now : Z) (msg : Message.t) : message (weigh now msg) = msg.
Proof. reflexivity. Qed.

Lemma isMessageNew_spec (now : Z) (msg : Message.t) :
  isMessageNew now msg = true <-> now - Message.createdAt msg < 14 * msPerDay.
Proof.
  unfold isMessageNew. rewrite Z.ltb_lt, msPerDay_eq. lia.
Qed.

(** C6: for a message with weight in 1..5, the effective weight is the
    weight times 1.5 exactly when the weight is 3 and the age since
    [createdAt] is strictly under 14 days, and the weight itself
    otherwise; a weight-3 message created one day ago weighs 4.5, one
    created twenty days ago weighs 3. *)
Theorem effectiveWeight_boost (now : Z) (msg : Message.t) :
  1 <= Message.weight msg <= 5 ->
  (Message.weight msg = 3 /\ now - Message.createdAt msg < 14 * msPerDay ->
   effectiveWeight (weigh now msg)
   = (inject_Z (Message.weight msg) * (3 # 2))%Q) /\
  (~ (Message.weight msg = 3 /\ now - Message.createdAt msg < 14 * msPerDay) ->
   effectiveWeight (weigh now msg) = inject_Z (Message.weight msg)) /\
  (Message.weight msg = 3 -> now - Message.createdAt msg = 1 * msPerDay ->
   effectiveWeight (weigh now msg) = (9 # 2)%Q) /\
  (Message.weight msg = 3 -> now - Message.createdAt msg = 20 * msPerDay ->
   effectiveWeight (weigh now msg) = (3 # 1)%Q).
Proof.
  intros Hw. unfold weigh. cbn [effectiveWeight].
  destruct (Z.eqb_spec (Message.weight msg) 0) as [H0|_]; [lia|].
  pose proof (isMessageNew_spec now msg) as Hnew.
  rewrite msPerDay_eq in *.
  destruct (isMessageNew now msg);
    destruct (Z.eqb_spec (Message.weight msg) 3) as [H3|H3];
    cbn [andb]; repeat split; intros; try rewrite H3;
    try reflexivity; lia.
Qed.

Lemma effectiveWeight_boost_witness :
  let now := 30 * msPerDay in
  let msg := Message.mk "m" "breathe" 3 false 90 (29 * msPerDay) None in
  (Message.weight msg = 3 /\ now - Message.createdAt msg < 14 * msPerDay ->
   effectiveWeight (weigh now msg)
   = (inject_Z (Message.weight msg) * (3 # 2))%Q) /\
  (~ (Message.weight msg = 3 /\ now - Message.createdAt msg < 14 * msPerDay) ->
   effectiveWeight (weigh now msg) = inject_Z (Message.weight msg)) /\
  (Message.weight msg = 3 -> now - Message.createdAt msg = 1 * msPerDay ->
   effectiveWeight (weigh now msg) = (9 # 2)%Q) /\
  (Message.weight msg = 3 -> now - Message.createdAt msg = 20 * msPerDay ->
   effectiveWeight (weigh now msg) = (3 # 1)%Q).
Proof.
  apply (effectiveWeight_boost (30 * msPerDay)
           (Message.mk "m" "breathe" 3 false 90 (29 * msPerDay) None)).
  simpl. lia.
Defined.

Example effectiveWeight_one_day :
  effectiveWeight
    (weigh (30 * msPerDay)
       (Message.mk "m" "breathe" 3 false 90 (29 * msPerDay) None))
  = (9 # 2)%Q.
Proof. reflexivity. Qed.

Example effectiveWeight_twenty_days :
  effectiveWeight
    (weigh (30 * msPerDay)
       (Message.mk "m" "breathe" 3 false 90 (10 * msPerDay) None))
  = (3 # 1)%Q.
Proof. reflexivity. Qed.

(** The walk returns the first candidate at which the draw minus the
    running sum of the effective weights is not positive. *)
Lemma walk_hit (ws : list WeightedMessage) :
  forall (r : Q) (k : nat) (msg : WeightedMessage),
    nth_error ws k = Some msg ->
    (r - prefixWeight ws (S k) <= 0)%Q ->
    (forall j, (j < k)%nat -> ~ (r - prefixWeight ws (S j) <= 0)%Q) ->
    walk r ws = Some msg.
Proof.
  unfold prefixWeight.
  induction ws as [|m ws IH]; intros r k msg Hnth Hle Hfirst.
  - destruct k; discriminate.
  - cbn [walk]. destruct k as [|k].
    + injection Hnth as <-. cbn [firstn sumWeights] in Hle.
      replace (Qle_bool (r - effectiveWeight m) 0) with true; [reflexivity|].
      symmetry. apply Qle_bool_iff. lra.
    + pose proof (Hfirst 0%nat ltac:(lia)) as H0.
      cbn [firstn sumWeights] in H0.
      destruct (Qle_bool (r - effectiveWeight m) 0) eqn:E.
      * apply Qle_bool_iff in E. exfalso. apply H0. lra.
      * apply (IH _ k); [exact Hnth| |].
        -- cbn [firstn sumWeights] in Hle. cbn [firstn]. lra.
        -- intros j Hj Hc. apply (Hfirst (S j)); [lia|].
           cbn [firstn sumWeights]. cbn [firstn] in Hc. lra.
Qed.

Lemma walk_miss (ws : list WeightedMessage) :
  forall (r : Q),
    (forall j, (j < List.length ws)%nat ->
               ~ (r - prefixWeight ws (S j) <= 0)%Q) ->
    walk r ws = None.
Proof.
  unfold prefixWeight.
  induction ws as [|m ws IH]; intros r Hmiss; [reflexivity|].
  cbn [walk]. pose proof (Hmiss 0%nat ltac:(simpl; lia)) as H0.
  cbn [firstn sumWeights] in H0.
  destruct (Qle_bool (r - effectiveWeight m) 0) eqn:E.
  - apply Qle_bool_iff in E. exfalso. apply H0. lra.
  - apply IH. intros j Hj Hc. apply (Hmiss (S j)); [simpl; lia|].
    cbn [firstn sumWeights]. cbn [firstn] in Hc. lra.
Qed.

Lemma walk_In (ws : list WeightedMessage) :
  forall (r : Q) (msg : WeightedMessage),
    walk r ws = Some msg -> In msg ws.
Proof.
  induction ws as [|m ws IH]; intros r msg Hwalk; [discriminate|].
  cbn [walk] in Hwalk. destruct (Qle_bool _ _).
  - injection Hwalk as <-. now left.
  - right. eapply IH. eassumption.
Qed.

Lemma pickWeighted_In (u : Q) (ws : list WeightedMessage)
    (msg : WeightedMessage) :
  pickWeighted u ws = Some msg -> In msg ws.
Proof.
  unfold pickWeighted. destruct (walk _ ws) eqn:Hwalk; intros H.
  - injection H as <-. eapply walk_In. eassumption.
  - destruct ws; [discriminate|]. injection H as <-. now left.
Qed.

(** What one call of [selectNextMessage] does to a world. *)
Lemma selectNextMessage_run (rand : nat -> Q) (w : World) :
  selectNextMessage rand w =
  match regularMessagesOf w with
  | [] => (Done None, withLog w GetMessages)
  | _ :: _ =>
      (Done (pickWeighted (rand (rngPos w)) (candidatesOf w)),
       withRngPos (withLog w GetMessages) (S (rngPos w)))
  end.
Proof.
  unfold selectNextMessage, bind, getMessages, candidatesOf, regularMessagesOf.
  cbn [storedMessages withLog].
  destruct (filter _ (storedMessages w)); reflexivity.
Qed.

(** Three candidates of weights 4.5, 1 and 5 (the nag message is left
    out) and the draws 0.1, 0.5 and 0.9 of a total of 10.5. *)
Example selectNextMessage_picks :
  let a := Message.mk "a" "fresh" 3 false 90 (29 * msPerDay) None in
  let n := Message.mk "n" "nag" 5 true 30 0 None in
  let b := Message.mk "b" "low" 1 false 90 0 None in
  let c := Message.mk "c" "high" 5 false 90 0 None in
  let w := mkWorld (30 * msPerDay) 0 [a; n; b; c] None None [] 0 [] in
  map (fun u => fst (selectNextMessage (fun _ => u) w))
    [(1 # 10)%Q; (1 # 2)%Q; (9 # 10)%Q]
  = [Done (Some (mkWeighted a (9 # 2)));
     Done (Some (mkWeighted b (1 # 1)));
     Done (Some (mkWeighted c (5 # 1)))].
Proof. vm_compute. reflexivity. Qed.

(** C5: [selectNextMessage] works on exactly the stored messages with
    [isNagMe] false.  With no such message it returns none (and draws
    nothing).  Otherwise, for the draw [r] (the result of
    [Math.random()] times the total effective weight), it returns the
    first candidate in list order at which [r] minus the running sum of
    the effective weights is not positive, and the first candidate when
    no candidate is such. *)
Theorem selectNextMessage_spec (rand : nat -> Q) (w : World) :
  let r := (rand (rngPos w) * totalWeightOf (candidatesOf w))%Q in
  (forall msg,
     fst (selectNextMessage rand w) = Done (Some msg) ->
     In (message msg) (storedMessages w) /\
     Message.isNagMe (message msg) = false /\
     In msg (candidatesOf w)) /\
  (regularMessagesOf w = [] ->
   selectNextMessage rand w = (Done None, withLog w GetMessages)) /\
  (regularMessagesOf w <> [] ->
   (forall (k : nat) (msg : WeightedMessage),
      nth_error (candidatesOf w) k = Some msg ->
      (r - prefixWeight (candidatesOf w) (S k) <= 0)%Q ->
      (forall j, (j < k)%nat ->
                 ~ (r - prefixWeight (candidatesOf w) (S j) <= 0)%Q) ->
      fst (selectNextMessage rand w) = Done (Some msg)) /\
   ((forall j, (j < List.length (candidatesOf w))%nat ->
               ~ (r - prefixWeight (candidatesOf w) (S j) <= 0)%Q) ->
    fst (selectNextMessage rand w) = Done (hd_error (candidatesOf w)) /\
    hd_error (candidatesOf w) <> None)).
Proof.
  intros r. rewrite selectNextMessage_run. repeat split.
  - destruct (regularMessagesOf w) eqn:Hreg; [discriminate|].
    simpl in H. injection H as H. apply pickWeighted_In in H.
    unfold candidatesOf in H. apply in_map_iff in H as (m & <- & Hm).
    rewrite weigh_message. unfold regularMessagesOf in Hm.
    now apply filter_In in Hm.
  - destruct (regularMessagesOf w) eqn:Hreg; [discriminate|].
    simpl in H. injection H as H. apply pickWeighted_In in H.
    unfold candidatesOf in H. apply in_map_iff in H as (m & <- & Hm).
    rewrite weigh_message. unfold regularMessagesOf in Hm.
    apply filter_In in Hm as [_ Hm]. now apply negb_true_iff in Hm.
  - destruct (regularMessagesOf w) eqn:Hreg; [discriminate|].
    simpl in H. injection H as H. now apply pickWeighted_In in H.
  - intros ->. reflexivity.
  - intros k msg Hnth Hle Hfirst.
    destruct (regularMessagesOf w) eqn:Hreg; [contradiction|].
    simpl. unfold pickWeighted. fold r.
    now rewrite (walk_hit _ r k msg Hnth Hle Hfirst).
  - destruct (regularMessagesOf w) eqn:Hreg; [contradiction|].
    simpl. unfold pickWeighted. fold r.
    now rewrite (walk_miss _ r H0).
  - unfold candidatesOf.
    destruct (regularMessagesOf w) eqn:Hreg; [contradiction|discriminate].
Qed.

(** The fallback: a draw beyond the total weight (as rounding could
    produce) exhausts the walk and the first candidate is returned. *)
Example selectNextMessage_fallback :
  let a := Message.mk "a" "fresh" 3 false 90 (29 * msPerDay) None in
  let b := Message.mk "b" "low" 1 false 90 0 None in
  let w := mkWorld (30 * msPerDay) 0 [a; b] None None [] 0 [] in
  walk ((2 # 1) * totalWeightOf (candidatesOf w)) (candidatesOf w) = None /\
  fst (selectNextMessage (fun _ => (2 # 1)%Q) w)
  = Done (Some (mkWeighted a (9 # 2))).
Proof. split; vm_compute; reflexivity. Qed.

(** ** Ids and prefixes *)

Lemma idEqb_eq (a b : option string) : idEqb a b = true <-> a = b.
Proof.
  destruct a as [x|], b as [y|]; simpl; try (split; congruence).
  rewrite String.eqb_eq. split; congruence.
Qed.

Lemma prefix_append (p s : string) : String.prefix p (p ++ s) = true.
Proof.
  induction p as [|c p IH]; simpl.
  - now destruct s.
  - destruct (ascii_dec c c); [assumption|congruence].
Qed.

Lemma wisdomNotification_prefix (time : Z) (msg : WeightedMessage) :
  idStartsWith "wisdom-" (wisdomNotification time msg) = true.
Proof. apply prefix_append. Qed.

Lemma nagNotification_prefix (msg : Message.t) (time : Z) :
  idStartsWith "nag-" (nagNotification msg time) = true.
Proof. apply prefix_append. Qed.

Lemma prefix_cons (c d : ascii) (p s : string) :
  String.prefix (String c p) (String d s)
  = if ascii_dec c d then String.prefix p s else false.
Proof. reflexivity. Qed.

Lemma nag_not_wisdom (n : Notification.t) :
  idStartsWith "nag-" n = true -> idStartsWith "wisdom-" n = false.
Proof.
  unfold idStartsWith. destruct (Notification.id n) as [[|c s]|];
    try discriminate.
  rewrite !prefix_cons.
  destruct (ascii_dec "n" c) as [E|E]; [|discriminate].
  subst c. reflexivity.
Qed.

Lemma wisdom_not_nag (n : Notification.t) :
  idStartsWith "wisdom-" n = true -> idStartsWith "nag-" n = false.
Proof.
  intros H. destruct (idStartsWith "nag-" n) eqn:E; [|reflexivity].
  apply nag_not_wisdom in E. congruence.
Qed.

(** Cancelling the ids of the pending notifications that start with
    [p] removes exactly those notifications. *)
Lemma cancel_by_prefix (p : string) (l : list Notification.t) :
  filter
    (fun n =>
       negb (existsb (idEqb (Notification.id n))
               (map Notification.id (filter (idStartsWith p) l)))) l
  = filter (fun n => negb (idStartsWith p n)) l.
Proof.
  apply filter_ext_in. intros n Hn. f_equal.
  destruct (idStartsWith p n) eqn:Hp.
  - apply existsb_exists. exists (Notification.id n). split.
    + apply in_map. apply filter_In. now split.
    + now apply idEqb_eq.
  - destruct (existsb _ _) eqn:E; [|reflexivity].
    apply existsb_exists in E as (i & Hi & Heq).
    apply idEqb_eq in Heq. apply in_map_iff in Hi as (n' & Hid & Hn').
    apply filter_In in Hn' as [_ Hp'].
    unfold idStartsWith in *. rewrite Heq, <- Hid, Hp' in Hp. discriminate.
Qed.

Lemma cancelAllWisdomNotifications_run (w : World) :
  cancelAllWisdomNotifications w =
  (Done tt,
   withLog
     (withPending (withLog w GetTriggerNotifications)
        (filter (fun n => negb (idStartsWith "wisdom-" n)) (pending w)))
     (CancelTriggerNotifications
        (map Notification.id (filter (idStartsWith "wisdom-") (pending w))))).
Proof.
  unfold cancelAllWisdomNotifications, bind, getTriggerNotifications,
    cancelTriggerNotifications.
  cbn [pending withLog]. now rewrite cancel_by_prefix.
Qed.

Lemma cancelAllNagNotifications_run (w : World) :
  cancelAllNagNotifications w =
  (Done tt,
   withLog
     (withPending (withLog w GetTriggerNotifications)
        (filter (fun n => negb (idStartsWith "nag-" n)) (pending w)))
     (CancelTriggerNotifications
        (map Notification.id (filter (idStartsWith "nag-") (pending w))))).
Proof.
  unfold cancelAllNagNotifications, bind, getTriggerNotifications,
    cancelTriggerNotifications.
  cbn [pending withLog]. now rewrite cancel_by_prefix.
Qed.

(** ** The wisdom pass with notifications disabled *)

(** C8: whatever the prior state, the wisdom pass with
    [notificationsEnabled] false cancels every pending notification
    whose id starts with [wisdom-] (and no other), registers nothing,
    and stops: it reads the settings and the pending notifications and
    issues the cancellation, without reading the messages or drawing a
    time. *)
Theorem scheduleWisdomNotifications_disabled (rand : nat -> Q)
    (registerFails : nat -> bool) (w : World) :
  notificationsEnabled (settingsOf w) = false ->
  fst (scheduleWisdomNotifications rand registerFails w) = Done tt /\
  pending (snd (scheduleWisdomNotifications rand registerFails w))
  = filter (fun n => negb (idStartsWith "wisdom-" n)) (pending w) /\
  (forall n,
     In n (pending (snd (scheduleWisdomNotifications rand registerFails w))) ->
     idStartsWith "wisdom-" n = false) /\
  log (snd (scheduleWisdomNotifications rand registerFails w))
  = log w ++
    [GetSettings; GetTriggerNotifications;
     CancelTriggerNotifications
       (map Notification.id (filter (idStartsWith "wisdom-") (pending w)))] /\
  registerCalls (snd (scheduleWisdomNotifications rand registerFails w))
  = registerCalls w /\
  rngPos (snd (scheduleWisdomNotifications rand registerFails w)) = rngPos w /\
  storedMessages (snd (scheduleWisdomNotifications rand registerFails w))
  = storedMessages w.
Proof.
  intros Hoff. unfold scheduleWisdomNotifications, bind, getSettings.
  fold (settingsOf w). rewrite Hoff. cbn [negb].
  rewrite cancelAllWisdomNotifications_run. cbn.
  repeat split.
  - intros n Hn. apply filter_In in Hn as [_ Hn].
    now apply negb_true_iff in Hn.
  - rewrite <- !app_assoc. reflexivity.
Qed.

Lemma scheduleWisdomNotifications_disabled_witness :
  let rand := fun _ : nat => (1 # 2)%Q in
  let fails := fun _ : nat => false in
  let w :=
    mkWorld (5 * msPerDay) 0 [] (Some (mkSettings false 3 8 22 2)) None
      [Notification.mk (Some "wisdom-1"%string) "t" "b" "c" 1;
       Notification.mk (Some "nag-a-2"%string) "t" "b" "c" 2;
       Notification.mk (Some "wisdom-3"%string) "t" "b" "c" 3] 0 [] in
  fst (scheduleWisdomNotifications rand fails w) = Done tt /\
  pending (snd (scheduleWisdomNotifications rand fails w))
  = filter (fun n => negb (idStartsWith "wisdom-" n)) (pending w) /\
  (forall n,
     In n (pending (snd (scheduleWisdomNotifications rand fails w))) ->
     idStartsWith "wisdom-" n = false) /\
  log (snd (scheduleWisdomNotifications rand fails w))
  = log w ++
    [GetSettings; GetTriggerNotifications;
     CancelTriggerNotifications
       (map Notification.id (filter (idStartsWith "wisdom-") (pending w)))] /\
  registerCalls (snd (scheduleWisdomNotifications rand fails w))
  = registerCalls w /\
  rngPos (snd (scheduleWisdomNotifications rand fails w)) = rngPos w /\
  storedMessages (snd (scheduleWisdomNotifications rand fails w))
  = storedMessages w.
Proof.
  apply (scheduleWisdomNotifications_disabled
           (fun _ : nat => (1 # 2)%Q) (fun _ : nat => false)
           (mkWorld (5 * msPerDay) 0 [] (Some (mkSettings false 3 8 22 2)) None
              [Notification.mk (Some "wisdom-1"%string) "t" "b" "c" 1;
               Notification.mk (Some "nag-a-2"%string) "t" "b" "c" 2;
               Notification.mk (Some "wisdom-3"%string) "t" "b" "c" 3] 0 [])).
  reflexivity.
Defined.

(** ** Relations kept by the computations of a pass *)

Section Respects.

Variable R : World -> World -> Prop.
Hypothesis R_refl : forall w, R w w.
Hypothesis R_trans : forall w1 w2 w3, R w1 w2 -> R w2 w3 -> R w1 w3.

Lemma respects_ret {A : Type} (a : A) : respects R (ret a).
Proof. intros w. apply R_refl. Qed.

Lemma respects_bind {A B : Type} (m : M A) (k : A -> M B) :
  respects R m -> (forall a, respects R (k a)) -> respects R (bind m k).
Proof.
  intros Hm Hk w. unfold bind. specialize (Hm w).
  destruct (m w) as [[a| |] w1]; simpl in *; try assumption.
  eapply R_trans; [eassumption|apply Hk].
Qed.

Lemma respects_forEach {A : Type} (xs : list A) (f : A -> M unit) :
  (forall x, respects R (f x)) -> respects R (forEach xs f).
Proof.
  intros Hf. induction xs as [|x xs IH]; simpl.
  - apply respects_ret.
  - apply respects_bind; [apply Hf|intros _; exact IH].
Qed.

End Respects.

Lemma createsOnly_app (p : string) (evs1 evs2 : list Event) :
  createsOnly p evs1 -> createsOnly p evs2 -> createsOnly p (evs1 ++ evs2).
Proof.
  intros H1 H2 n ok Hin. apply in_app_or in Hin as [Hin|Hin]; eauto.
Qed.

Lemma touchesOnly_refl (p : string) (w : World) : touchesOnly p w w.
Proof.
  repeat split; auto. exists []. split; [now rewrite app_nil_r|].
  intros n ok [].
Qed.

Lemma touchesOnly_trans (p : string) (w1 w2 w3 : World) :
  touchesOnly p w1 w2 -> touchesOnly p w2 w3 -> touchesOnly p w1 w3.
Proof.
  intros (Hk1 & Hn1 & evs1 & Hl1 & Hc1) (Hk2 & Hn2 & evs2 & Hl2 & Hc2).
  repeat split.
  - auto.
  - intros n Hn. destruct (Hn2 n Hn) as [H|H]; auto.
  - exists (evs1 ++ evs2). split.
    + now rewrite Hl2, Hl1, app_assoc.
    + now apply createsOnly_app.
Qed.

(** A step that leaves the pending notifications alone and logs no
    registration touches nothing. *)
Lemma touchesOnly_quiet (p : string) (w w' : World) (evs : list Event) :
  pending w' = pending w ->
  log w' = log w ++ evs ->
  (forall n ok, ~ In (CreateTriggerNotification n ok) evs) ->
  touchesOnly p w w'.
Proof.
  intros Hp Hl Hno. unfold touchesOnly. rewrite Hp. repeat split; auto.
  exists evs. split; [assumption|]. intros n ok Hin. now apply Hno in Hin.
Qed.

Ltac quiet_with evs :=
  intros w; apply (touchesOnly_quiet _ _ _ evs);
  [reflexivity
  |cbn; rewrite ?app_nil_r; reflexivity
  |intros n ok Hin; simpl in Hin; intuition discriminate].

Section Touches.

Variable p : string.
Variable rand : nat -> Q.
Variable registerFails : nat -> bool.

Lemma getSettings_touches : respects (touchesOnly p) getSettings.
Proof. quiet_with [GetSettings]. Qed.

Lemma getMessages_touches : respects (touchesOnly p) getMessages.
Proof. quiet_with [GetMessages]. Qed.

Lemma saveMessages_touches (ms : list Message.t) :
  respects (touchesOnly p) (saveMessages ms).
Proof. quiet_with [SaveMessages]. Qed.

Lemma saveState_touches : respects (touchesOnly p) saveState.
Proof. quiet_with [SaveState]. Qed.

Lemma dateNow_touches : respects (touchesOnly p) dateNow.
Proof. quiet_with (@nil Event). Qed.

Lemma diverge_touches {A : Type} : respects (touchesOnly p) (@diverge A).
Proof. quiet_with (@nil Event). Qed.

Lemma mathRandom_touches : respects (touchesOnly p) (mathRandom rand).
Proof. quiet_with (@nil Event). Qed.

Lemma calculateNotificationTimesM_touches (s : Settings) :
  respects (touchesOnly p) (calculateNotificationTimesM rand s).
Proof.
  intros w. unfold calculateNotificationTimesM.
  destruct (calculateNotificationTimes rand s (clock w) (rngPos w)) as [ts k].
  apply (touchesOnly_quiet _ _ _ []);
    [reflexivity|cbn; now rewrite app_nil_r|intros n ok []].
Qed.

Lemma touches_bind {A B : Type} (m : M A) (k : A -> M B) :
  respects (touchesOnly p) m -> (forall a, respects (touchesOnly p) (k a)) ->
  respects (touchesOnly p) (bind m k).
Proof.
  exact (respects_bind _ (touchesOnly_trans p) m k).
Qed.

Lemma touches_ret {A : Type} (a : A) : respects (touchesOnly p) (ret a).
Proof. exact (respects_ret _ (touchesOnly_refl p) a). Qed.

Lemma touches_forEach {A : Type} (xs : list A) (f : A -> M unit) :
  (forall x, respects (touchesOnly p) (f x)) ->
  respects (touchesOnly p) (forEach xs f).
Proof.
  exact (respects_forEach _ (touchesOnly_refl p) (touchesOnly_trans p) xs f).
Qed.

Lemma updateMessage_touches (i : string) (t : Z) :
  respects (touchesOnly p) (updateMessage i t).
Proof.
  unfold updateMessage. apply touches_bind; [apply getMessages_touches|].
  intros ms. destruct (setLastShown i t ms).
  - apply touches_bind; [apply saveMessages_touches|intros _; apply touches_ret].
  - apply touches_ret.
Qed.

Lemma selectNextMessage_touches :
  respects (touchesOnly p) (selectNextMessage rand).
Proof.
  unfold selectNextMessage. apply touches_bind; [apply getMessages_touches|].
  intros ms. destruct (_ =? _)%nat; [apply touches_ret|].
  apply touches_bind; [apply dateNow_touches|]. intros now.
  apply touches_bind; [apply mathRandom_touches|]. intros u.
  apply touches_ret.
Qed.

(** Registering under an id that starts with [p]. *)
Lemma createTriggerNotification_touches (n : Notification.t) :
  idStartsWith p n = true ->
  respects (touchesOnly p) (createTriggerNotification registerFails n).
Proof.
  intros Hn w. unfold createTriggerNotification.
  destruct (registerFails (registerCalls w)); cbn [snd].
  - unfold touchesOnly. cbn. repeat split; auto.
    exists [CreateTriggerNotification n false]. split; [reflexivity|].
    intros n' ok [H|[]]. now injection H as <- _.
  - unfold touchesOnly. cbn. repeat split.
    + intros n0 Hin Hp. apply in_or_app. left. apply filter_In.
      split; [assumption|]. apply negb_true_iff.
      destruct (idEqb (Notification.id n0) (Notification.id n)) eqn:E;
        [|reflexivity].
      apply idEqb_eq in E. unfold idStartsWith in *. rewrite E, Hn in Hp.
      discriminate.
    + intros n0 Hin. apply in_app_or in Hin as [Hin|[<-|[]]].
      * left. now apply filter_In in Hin.
      * now right.
    + exists [CreateTriggerNotification n true]. split; [reflexivity|].
      intros n' ok [H|[]]. now injection H as <- _.
Qed.

End Touches.

Lemma cancelAllWisdomNotifications_touches :
  respects (touchesOnly "wisdom-") cancelAllWisdomNotifications.
Proof.
  intros w. rewrite cancelAllWisdomNotifications_run. unfold touchesOnly. cbn.
  repeat split.
  - intros n Hin Hp. apply filter_In. split; [assumption|]. now rewrite Hp.
  - intros n Hin. left. now apply filter_In in Hin.
  - eexists. split; [now rewrite <- app_assoc|].
    intros n ok Hin. simpl in Hin. intuition discriminate.
Qed.

Lemma cancelAllNagNotifications_touches :
  respects (touchesOnly "nag-") cancelAllNagNotifications.
Proof.
  intros w. rewrite cancelAllNagNotifications_run. unfold touchesOnly. cbn.
  repeat split.
  - intros n Hin Hp. apply filter_In. split; [assumption|]. now rewrite Hp.
  - intros n Hin. left. now apply filter_In in Hin.
  - eexists. split; [now rewrite <- app_assoc|].
    intros n ok Hin. simpl in Hin. intuition discriminate.
Qed.

(** The wisdom pass touches only notifications under [wisdom-], the nag
    pass only notifications under [nag-]. *)
Lemma scheduleWisdomNotifications_touches (rand : nat -> Q)
    (registerFails : nat -> bool) :
  respects (touchesOnly "wisdom-")
    (scheduleWisdomNotifications rand registerFails).
Proof.
  unfold scheduleWisdomNotifications.
  apply touches_bind; [apply getSettings_touches|]. intros s.
  destruct (negb (notificationsEnabled s));
    [apply cancelAllWisdomNotifications_touches|].
  apply touches_bind; [apply cancelAllWisdomNotifications_touches|]. intros _.
  apply touches_bind; [apply calculateNotificationTimesM_touches|]. intros ts.
  apply touches_bind.
  - apply touches_forEach. intros time. unfold scheduleWisdomAt.
    apply touches_bind; [apply selectNextMessage_touches|].
    intros [msg|]; [|apply touches_ret].
    apply touches_bind; [|intros _; apply updateMessage_touches].
    apply createTriggerNotification_touches, wisdomNotification_prefix.
  - intros _. apply touches_bind; [apply saveState_touches|].
    intros _. apply touches_ret.
Qed.

Lemma scheduleNagNotifications_touches (registerFails : nat -> bool)
    (fuel : nat) :
  respects (touchesOnly "nag-") (scheduleNagNotifications registerFails fuel).
Proof.
  unfold scheduleNagNotifications.
  apply touches_bind; [apply getMessages_touches|]. intros ms.
  apply touches_bind; [apply getSettings_touches|]. intros s.
  apply touches_bind; [apply cancelAllNagNotifications_touches|]. intros _.
  apply touches_forEach. intros msg. unfold scheduleRepeatingNag.
  apply touches_bind; [apply dateNow_touches|]. intros now.
  destruct (planNagTimes fuel msg s now) as [ts|]; [|apply diverge_touches].
  apply touches_forEach. intros time.
  apply createTriggerNotification_touches, nagNotification_prefix.
Qed.

(** C10: the two passes leave each other's entries alone.  Every id the
    wisdom pass generates starts with [wisdom-] and every id the nag
    pass generates starts with [nag-], in the notifications they build
    and in every registration they log; [cancelAllWisdomNotifications]
    removes exactly the pending notifications whose id starts with
    [wisdom-] and keeps every one under [nag-], and
    [cancelAllNagNotifications] does the converse; so a pending [nag-]
    entry is still pending after a whole wisdom pass, and a pending
    [wisdom-] entry after a whole nag pass. *)
Theorem passes_keep_apart (rand : nat -> Q) (registerFails : nat -> bool)
    (fuel : nat) :
  (forall time msg,
     idStartsWith "wisdom-" (wisdomNotification time msg) = true) /\
  (forall msg time,
     idStartsWith "nag-" (nagNotification msg time) = true) /\
  (forall w, exists evs,
     log (snd (scheduleWisdomNotifications rand registerFails w))
     = log w ++ evs /\ createsOnly "wisdom-" evs) /\
  (forall w, exists evs,
     log (snd (scheduleNagNotifications registerFails fuel w))
     = log w ++ evs /\ createsOnly "nag-" evs) /\
  (forall w,
     pending (snd (cancelAllWisdomNotifications w))
     = filter (fun n => negb (idStartsWith "wisdom-" n)) (pending w) /\
     forall n, In n (pending w) -> idStartsWith "nag-" n = true ->
               In n (pending (snd (cancelAllWisdomNotifications w)))) /\
  (forall w,
     pending (snd (cancelAllNagNotifications w))
     = filter (fun n => negb (idStartsWith "nag-" n)) (pending w) /\
     forall n, In n (pending w) -> idStartsWith "wisdom-" n = true ->
               In n (pending (snd (cancelAllNagNotifications w)))) /\
  (forall w n,
     In n (pending w) -> idStartsWith "nag-" n = true ->
     In n (pending (snd (scheduleWisdomNotifications rand registerFails w)))) /\
  (forall w n,
     In n (pending w) -> idStartsWith "wisdom-" n = true ->
     In n (pending (snd (scheduleNagNotifications registerFails fuel w)))).
Proof.
  split; [exact wisdomNotification_prefix|].
  split; [exact nagNotification_prefix|].
  split; [intros w; apply scheduleWisdomNotifications_touches|].
  split; [intros w; apply scheduleNagNotifications_touches|].
  split; [|split; [|split]].
  - intros w. rewrite cancelAllWisdomNotifications_run. cbn. split; [reflexivity|].
    intros n Hin Hnag. apply filter_In. split; [assumption|].
    now rewrite (nag_not_wisdom n Hnag).
  - intros w. rewrite cancelAllNagNotifications_run. cbn. split; [reflexivity|].
    intros n Hin Hwis. apply filter_In. split; [assumption|].
    now rewrite (wisdom_not_nag n Hwis).
  - intros w n Hin Hnag.
    destruct (scheduleWisdomNotifications_touches rand registerFails w)
      as (Hkeep & _).
    apply Hkeep; [assumption|now apply nag_not_wisdom].
  - intros w n Hin Hwis.
    destruct (scheduleNagNotifications_touches registerFails fuel w)
      as (Hkeep & _).
    apply Hkeep; [assumption|now apply wisdom_not_nag].
Qed.

(** A wisdom pass over a sink that holds one entry of each kind: the
    [wisdom-] entry is replaced by three fresh ones, the [nag-] entry
    stays. *)
Example scheduleWisdomNotifications_run :
  let a := Message.mk "a" "fresh" 3 false 90 (29 * msPerDay) None in
  let w :=
    mkWorld (5 * msPerDay + 9 * msPerHour) 0 [a] None None
      [Notification.mk (Some "wisdom-1"%string) "t" "b" "c" 1;
       Notification.mk (Some "nag-a-2"%string) "t" "b" "c" 2] 0 [] in
  let w' :=
    snd (scheduleWisdomNotifications
           (fun n => Z.of_nat (n * 3 mod 7) # 7) (fun _ => false) w) in
  map Notification.id (pending w')
  = [Some "nag-a-2"%string; Some "wisdom-475200000"%string;
     Some "wisdom-482400000"%string; Some "wisdom-504000000"%string] /\
  map Message.lastShown (storedMessages w') = [Some 504000000] /\
  lastNotificationTime w' = Some (5 * msPerDay + 9 * msPerHour).
Proof. vm_compute. repeat split. Qed.

(** ** A failed registration *)

Lemma noFailedRegister_app (evs1 evs2 : list Event) :
  noFailedRegister evs1 -> noFailedRegister evs2 ->
  noFailedRegister (evs1 ++ evs2).
Proof.
  intros H1 H2 n Hin. apply in_app_or in Hin as [Hin|Hin];
    [now apply (H1 n)|now apply (H2 n)].
Qed.

(** A step that is never rejected and logs no failed registration. *)
Lemma stops_quiet {A : Type} (m : M A) :
  (forall w,
     fst (m w) <> Rejected /\
     exists evs, log (snd (m w)) = log w ++ evs /\ noFailedRegister evs) ->
  stopsAtFailure m.
Proof.
  intros H w. destruct (H w) as (Hr & evs & Hl & Hno).
  exists evs. split; [assumption|].
  destruct (fst (m w)); [assumption|congruence|assumption].
Qed.

Lemma stops_ret {A : Type} (a : A) : stopsAtFailure (ret a).
Proof.
  apply stops_quiet. intros w. split; [discriminate|].
  exists []. split; [simpl; now rewrite app_nil_r|intros n []].
Qed.

Lemma stops_bind {A B : Type} (m : M A) (k : A -> M B) :
  stopsAtFailure m -> (forall a, stopsAtFailure (k a)) ->
  stopsAtFailure (bind m k).
Proof.
  intros Hm Hk w. unfold bind. destruct (Hm w) as (evs1 & Hl1 & Hr1).
  destruct (m w) as [[a| |] w1]; cbn [fst snd] in *.
  - destruct (Hk a w1) as (evs2 & Hl2 & Hr2).
    exists (evs1 ++ evs2). split; [now rewrite Hl2, Hl1, app_assoc|].
    destruct (fst (k a w1)).
    + now apply noFailedRegister_app.
    + destruct Hr2 as (evs0 & n & -> & Hno).
      exists (evs1 ++ evs0), n. split; [now rewrite app_assoc|].
      now apply noFailedRegister_app.
    + now apply noFailedRegister_app.
  - exists evs1. now split.
  - exists evs1. now split.
Qed.

Lemma stops_forEach {A : Type} (xs : list A) (f : A -> M unit) :
  (forall x, stopsAtFailure (f x)) -> stopsAtFailure (forEach xs f).
Proof.
  intros Hf. induction xs as [|x xs IH]; simpl.
  - apply stops_ret.
  - apply stops_bind; [apply Hf|intros _; exact IH].
Qed.

Ltac stops_with evs :=
  apply stops_quiet; intros w; split; [discriminate|];
  exists evs; split;
  [cbn; rewrite ?app_nil_r; reflexivity
  |intros n Hin; simpl in Hin; intuition discriminate].

Section Stops.

Variable rand : nat -> Q.
Variable registerFails : nat -> bool.

Lemma getSettings_stops : stopsAtFailure getSettings.
Proof. stops_with [GetSettings]. Qed.

Lemma getMessages_stops : stopsAtFailure getMessages.
Proof. stops_with [GetMessages]. Qed.

Lemma saveMessages_stops (ms : list Message.t) :
  stopsAtFailure (saveMessages ms).
Proof. stops_with [SaveMessages]. Qed.

Lemma saveState_stops : stopsAtFailure saveState.
Proof. stops_with [SaveState]. Qed.

Lemma dateNow_stops : stopsAtFailure dateNow.
Proof. stops_with (@nil Event). Qed.

Lemma diverge_stops {A : Type} : stopsAtFailure (@diverge A).
Proof. stops_with (@nil Event). Qed.

Lemma mathRandom_stops : stopsAtFailure (mathRandom rand).
Proof. stops_with (@nil Event). Qed.

Lemma getTriggerNotifications_stops : stopsAtFailure getTriggerNotifications.
Proof. stops_with [GetTriggerNotifications]. Qed.

Lemma cancelTriggerNotifications_stops (ids : list (option string)) :
  stopsAtFailure (cancelTriggerNotifications ids).
Proof. stops_with [CancelTriggerNotifications ids]. Qed.

Lemma calculateNotificationTimesM_stops (s : Settings) :
  stopsAtFailure (calculateNotificationTimesM rand s).
Proof.
  apply stops_quiet. intros w. unfold calculateNotificationTimesM.
  destruct (calculateNotificationTimes rand s (clock w) (rngPos w)) as [ts k].
  split; [discriminate|]. exists []. split; [cbn; now rewrite app_nil_r|].
  intros n [].
Qed.

Lemma createTriggerNotification_stops (n : Notification.t) :
  stopsAtFailure (createTriggerNotification registerFails n).
Proof.
  intros w. unfold createTriggerNotification.
  destruct (registerFails (registerCalls w)); cbn [fst snd].
  - exists [CreateTriggerNotification n false]. split; [reflexivity|].
    exists [], n. split; [reflexivity|intros n' []].
  - exists [CreateTriggerNotification n true]. split; [reflexivity|].
    intros n' [H|[]]. discriminate.
Qed.

Lemma cancelAllWisdomNotifications_stops :
  stopsAtFailure cancelAllWisdomNotifications.
Proof.
  apply stops_bind; [apply getTriggerNotifications_stops|].
  intros l. apply cancelTriggerNotifications_stops.
Qed.

Lemma cancelAllNagNotifications_stops :
  stopsAtFailure cancelAllNagNotifications.
Proof.
  apply stops_bind; [apply getTriggerNotifications_stops|].
  intros l. apply cancelTriggerNotifications_stops.
Qed.

Lemma updateMessage_stops (i : string) (t : Z) :
  stopsAtFailure (updateMessage i t).
Proof.
  unfold updateMessage. apply stops_bind; [apply getMessages_stops|].
  intros ms. destruct (setLastShown i t ms).
  - apply stops_bind; [apply saveMessages_stops|intros _; apply stops_ret].
  - apply stops_ret.
Qed.

Lemma selectNextMessage_stops : stopsAtFailure (selectNextMessage rand).
Proof.
  unfold selectNextMessage. apply stops_bind; [apply getMessages_stops|].
  intros ms. destruct (_ =? _)%nat; [apply stops_ret|].
  apply stops_bind; [apply dateNow_stops|]. intros now.
  apply stops_bind; [apply mathRandom_stops|]. intros u.
  apply stops_ret.
Qed.

Lemma scheduleWisdomNotifications_stops :
  stopsAtFailure (scheduleWisdomNotifications rand registerFails).
Proof.
  unfold scheduleWisdomNotifications.
  apply stops_bind; [apply getSettings_stops|]. intros s.
  destruct (negb (notificationsEnabled s));
    [apply cancelAllWisdomNotifications_stops|].
  apply stops_bind; [apply cancelAllWisdomNotifications_stops|]. intros _.
  apply stops_bind; [apply calculateNotificationTimesM_stops|]. intros ts.
  apply stops_bind.
  - apply stops_forEach. intros time. unfold scheduleWisdomAt.
    apply stops_bind; [apply selectNextMessage_stops|].
    intros [msg|]; [|apply stops_ret].
    apply stops_bind; [|intros _; apply updateMessage_stops].
    apply createTriggerNotification_stops.
  - intros _. apply stops_bind; [apply saveState_stops|].
    intros _. apply stops_ret.
Qed.

Lemma scheduleRepeatingNag_stops (fuel : nat) (msg : Message.t)
    (s : Settings) :
  stopsAtFailure (scheduleRepeatingNag registerFails fuel msg s).
Proof.
  unfold scheduleRepeatingNag.
  apply stops_bind; [apply dateNow_stops|]. intros now.
  destruct (planNagTimes fuel msg s now) as [ts|]; [|apply diverge_stops].
  apply stops_forEach. intros time. apply createTriggerNotification_stops.
Qed.

Lemma scheduleNagNotifications_stops (fuel : nat) :
  stopsAtFailure (scheduleNagNotifications registerFails fuel).
Proof.
  unfold scheduleNagNotifications.
  apply stops_bind; [apply getMessages_stops|]. intros ms.
  apply stops_bind; [apply getSettings_stops|]. intros s.
  apply stops_bind; [apply cancelAllNagNotifications_stops|]. intros _.
  apply stops_forEach. intros msg. apply scheduleRepeatingNag_stops.
Qed.

End Stops.

(** The registrations of a nag message every eight hours, planned at
    09:00, are due at 17:00 and at 08:00 of the next day.  When the
    platform rejects the first one, the second is never attempted. *)
Lemma bestEffortNag_fails :
  let msg := Message.mk "m" "stretch" 3 true 480 0 None in
  let w :=
    mkWorld (5 * msPerDay + 9 * msPerHour) 0 [msg] None None [] 0 [] in
  planNagTimes 20 msg DEFAULT_SETTINGS (clock w)
  = Some [5 * msPerDay + 17 * msPerHour; 6 * msPerDay + 8 * msPerHour] /\
  fst (scheduleRepeatingNag (fun n => (n =? 0)%nat) 20 msg DEFAULT_SETTINGS w)
  = Rejected /\
  registerCalls
    (snd (scheduleRepeatingNag (fun n => (n =? 0)%nat) 20 msg
            DEFAULT_SETTINGS w)) = 1%nat /\
  ~ bestEffortNag (fun n => (n =? 0)%nat) 20 msg DEFAULT_SETTINGS w.
Proof.
  intros msg w. split; [reflexivity|]. split; [reflexivity|].
  split; [reflexivity|]. intros Hbest.
  destruct (Hbest [5 * msPerDay + 17 * msPerHour; 6 * msPerDay + 8 * msPerHour]
              eq_refl (6 * msPerDay + 8 * msPerHour))
    as [ok Hin].
  - right. now left.
  - vm_compute in Hin. destruct Hin as [Heq|[]]. discriminate Heq.
Qed.

Lemma createTriggerNotification_idsStay (registerFails : nat -> bool)
    (n : Notification.t) :
  respects idsStay (createTriggerNotification registerFails n).
Proof.
  intros w i (n0 & Hin & Hid). unfold createTriggerNotification.
  destruct (registerFails (registerCalls w)); cbn.
  - now exists n0.
  - destruct (idEqb (Notification.id n0) (Notification.id n)) eqn:E.
    + apply idEqb_eq in E. exists n. split; [|congruence].
      apply in_or_app. right. now left.
    + exists n0. split; [|assumption]. apply in_or_app. left.
      apply filter_In. split; [assumption|]. now rewrite E.
Qed.

Lemma registrations_idsStay (registerFails : nat -> bool) (msg : Message.t)
    (ts : list Z) :
  respects idsStay
    (forEach ts
       (fun time =>
          createTriggerNotification registerFails (nagNotification msg time))).
Proof.
  apply respects_forEach.
  - intros w i H. exact H.
  - intros w1 w2 w3 H12 H23 i H. apply H23, H12, H.
  - intros time. apply createTriggerNotification_idsStay.
Qed.

Lemma registrations_cons_ok (registerFails : nat -> bool) (msg : Message.t)
    (x : Z) (ts : list Z) (w : World) :
  registerFails (registerCalls w) = false ->
  forEach (x :: ts)
    (fun time =>
       createTriggerNotification registerFails (nagNotification msg time)) w
  = forEach ts
      (fun time =>
         createTriggerNotification registerFails (nagNotification msg time))
      (withLog
         (withPending (withRegisterCalls w (S (registerCalls w)))
            (filter
               (fun n' =>
                  negb (idEqb (Notification.id n')
                          (Notification.id (nagNotification msg x))))
               (pending w) ++ [nagNotification msg x]))
         (CreateTriggerNotification (nagNotification msg x) true)).
Proof.
  intros Hok. cbn [forEach]. unfold bind at 1.
  unfold createTriggerNotification at 1. now rewrite Hok.
Qed.

(** The registration loop of a nag message when the calls for [pre]
    succeed and the next one fails. *)
Lemma registrations_fail_at (registerFails : nat -> bool) (msg : Message.t)
    (t : Z) (post : list Z) :
  forall (pre : list Z) (w : World),
    (forall i, (i < List.length pre)%nat ->
               registerFails (registerCalls w + i)%nat = false) ->
    registerFails (registerCalls w + List.length pre)%nat = true ->
    let run :=
      forEach (pre ++ t :: post)
        (fun time =>
           createTriggerNotification registerFails (nagNotification msg time))
        w in
    fst run = Rejected /\
    log (snd run)
    = log w
      ++ map (fun x => CreateTriggerNotification (nagNotification msg x) true)
           pre
      ++ [CreateTriggerNotification (nagNotification msg t) false] /\
    forall x, In x pre ->
      exists n, In n (pending (snd run)) /\
                Notification.id n = Some (nagId msg x).
Proof.
  induction pre as [|x pre IH]; intros w Hok Hfail; cbn zeta.
  - cbn [app forEach map List.length] in *. rewrite Nat.add_0_r in Hfail.
    unfold bind, createTriggerNotification. rewrite Hfail. cbn.
    repeat split. intros x [].
  - pose proof (Hok 0%nat ltac:(simpl; lia)) as H0.
    rewrite Nat.add_0_r in H0.
    cbn [app]. rewrite (registrations_cons_ok _ _ _ _ _ H0).
    match goal with
    | |- context [forEach _ _ ?w1] => set (w' := w1)
    end.
    destruct (IH w') as (Hrej & Hlog & Hpend).
    + intros i Hi. subst w'. cbn [registerCalls withLog withPending withRegisterCalls].
      replace (S (registerCalls w) + i)%nat with (registerCalls w + S i)%nat
        by lia.
      apply Hok. simpl. lia.
    + subst w'. cbn [registerCalls withLog withPending withRegisterCalls].
      replace (S (registerCalls w) + List.length pre)%nat
        with (registerCalls w + List.length (x :: pre))%nat by (simpl; lia).
      exact Hfail.
    + split; [exact Hrej|]. split.
      * rewrite Hlog. subst w'.
        cbn [log withLog withPending withRegisterCalls map].
        now rewrite <- app_assoc.
      * intros y [<-|Hy]; [|now apply Hpend].
        apply (registrations_idsStay registerFails msg (pre ++ t :: post) w').
        exists (nagNotification msg x). split; [|reflexivity].
        subst w'. cbn [pending withLog withPending]. apply in_or_app.
        right. now left.
Qed.

Lemma stops_aborts {A : Type} (m : M A) :
  stopsAtFailure m -> abortsAtFailedRegister m.
Proof.
  intros Hstops w. destruct (Hstops w) as (evs & Hlog & Hout).
  exists evs. split; [assumption|]. intros n Hin.
  destruct (fst (m w)) as [a| |].
  - now destruct (Hout n).
  - split; [reflexivity|]. destruct Hout as (evs0 & n' & -> & Hno).
    apply in_app_or in Hin as [Hin|[Heq|[]]]; [now destruct (Hno n)|].
    injection Heq as <-. now exists evs0.
  - now destruct (Hout n).
Qed.

(** C9, as the code has it: a registration that fails stops the pass.
    When one of the registrations of a pass fails, the pass is rejected
    and the failed registration is the last call the pass made, so that
    none of the remaining registrations is attempted.  For the
    registrations of one nag message: when the calls for the first
    instants succeed and the next one fails, [scheduleRepeatingNag]
    ends rejected, it has attempted those instants and the failing one
    and no other, and the ids registered before the failure are still
    pending (nothing is rolled back). *)
Theorem passes_stop_at_failure (rand : nat -> Q) (registerFails : nat -> bool)
    (fuel : nat) :
  abortsAtFailedRegister (scheduleWisdomNotifications rand registerFails) /\
  abortsAtFailedRegister (scheduleNagNotifications registerFails fuel) /\
  (forall (msg : Message.t) (s : Settings) (w : World) (t : Z)
          (pre post : list Z),
     planNagTimes fuel msg s (clock w) = Some (pre ++ t :: post) ->
     (forall i, (i < List.length pre)%nat ->
                registerFails (registerCalls w + i)%nat = false) ->
     registerFails (registerCalls w + List.length pre)%nat = true ->
     fst (scheduleRepeatingNag registerFails fuel msg s w) = Rejected /\
     log (snd (scheduleRepeatingNag registerFails fuel msg s w))
     = log w
       ++ map (fun x => CreateTriggerNotification (nagNotification msg x) true)
            pre
       ++ [CreateTriggerNotification (nagNotification msg t) false] /\
     forall x, In x pre ->
       exists n,
         In n (pending (snd (scheduleRepeatingNag registerFails fuel msg s w)))
         /\ Notification.id n = Some (nagId msg x)).
Proof.
  split; [apply stops_aborts, scheduleWisdomNotifications_stops|].
  split; [apply stops_aborts, scheduleNagNotifications_stops|].
  intros msg s w t pre post Hplan Hok Hfail.
  unfold scheduleRepeatingNag, bind, dateNow. rewrite Hplan.
  exact (registrations_fail_at registerFails msg t post pre w Hok Hfail).
Qed.

(** A nag pass in which the second registration fails: the first stays
    registered, the third is not attempted, and the pass is rejected. *)
Example scheduleNagNotifications_second_fails :
  let msg := Message.mk "m" "stretch" 3 true 300 0 None in
  let w :=
    mkWorld (5 * msPerDay + 9 * msPerHour) 0 [msg] None None [] 0 [] in
  let run := scheduleNagNotifications (fun n => (n =? 1)%nat) 20 w in
  planNagTimes 20 msg DEFAULT_SETTINGS (clock w)
  = Some [5 * msPerDay + 14 * msPerHour; 5 * msPerDay + 19 * msPerHour;
          6 * msPerDay + 8 * msPerHour] /\
  fst run = Rejected /\
  map Notification.timestamp (pending (snd run))
  = [5 * msPerDay + 14 * msPerHour] /\
  registerCalls (snd run) = 2%nat.
Proof. vm_compute. repeat split. Qed.

(** * Further properties of the engine *)

(** ** The walk of the selector over a draw inside the total weight *)

Lemma totalWeightOf_sum (ws : list WeightedMessage) :
  (totalWeightOf ws == sumWeights ws)%Q.
Proof.
  unfold totalWeightOf.
  assert (H : forall acc,
            (fold_left (fun sum msg => sum + effectiveWeight msg) ws acc
             == acc + sumWeights ws)%Q).
  { induction ws as [|m ws IH]; intros acc; simpl.
    - lra.
    - rewrite IH. lra. }
  rewrite H. lra.
Qed.

Lemma prefixWeight_all (ws : list WeightedMessage) :
  prefixWeight ws (List.length ws) = sumWeights ws.
Proof. unfold prefixWeight. now rewrite firstn_all. Qed.

(** A draw that does not exceed the sum of the weights stops the walk
    at the candidate whose share of the weights it falls in. *)
Lemma walk_within (ws : list WeightedMessage) :
  forall r : Q,
    ws <> [] ->
    (r <= sumWeights ws)%Q ->
    exists (k : nat) (msg : WeightedMessage),
      nth_error ws k = Some msg /\
      walk r ws = Some msg /\
      (r <= prefixWeight ws (S k))%Q /\
      (k <> 0%nat -> (prefixWeight ws k < r)%Q).
Proof.
  unfold prefixWeight.
  induction ws as [|m ws IH]; intros r Hne Hle; [contradiction|].
  cbn [walk]. destruct (Qle_bool (r - effectiveWeight m) 0) eqn:E.
  - apply Qle_bool_iff in E. exists 0%nat, m.
    repeat split; [|congruence]. cbn [firstn sumWeights]. lra.
  - assert (Hgt : (0 < r - effectiveWeight m)%Q).
    { destruct (Qlt_le_dec 0 (r - effectiveWeight m)) as [H|H]; [assumption|].
      apply Qle_bool_iff in H. congruence. }
    cbn [sumWeights] in Hle.
    destruct ws as [|m' ws'].
    { cbn [sumWeights] in Hle. lra. }
    destruct (IH (r - effectiveWeight m)%Q ltac:(discriminate) ltac:(lra))
      as (k & msg & Hnth & Hwalk & Hup & Hlow).
    exists (S k), msg. repeat split; try assumption.
    + cbn [firstn sumWeights] in *. lra.
    + intros _. destruct k as [|k].
      * cbn [firstn sumWeights]. lra.
      * specialize (Hlow ltac:(discriminate)).
        cbn [firstn sumWeights] in *. lra.
Qed.

Lemma sumWeights_pos (ws : list WeightedMessage) :
  Forall (fun m => (0 < effectiveWeight m)%Q) ws -> (0 <= sumWeights ws)%Q.
Proof.
  induction 1 as [|m ws Hm _ IH]; simpl; lra.
Qed.

Lemma weigh_positive (now : Z) (msg : Message.t) :
  0 <= Message.weight msg -> (0 < effectiveWeight (weigh now msg))%Q.
Proof.
  intros Hw. unfold weigh. cbn [effectiveWeight].
  destruct (Z.eqb_spec (Message.weight msg) 0) as [H0|H0].
  - cbn [Z.eqb andb]. destruct (isMessageNew now msg); reflexivity.
  - assert (Hpos : (0 < inject_Z (Message.weight msg))%Q).
    { change 0%Q with (inject_Z 0). rewrite <- Zlt_Qlt. lia. }
    destruct (_ && _); lra.
Qed.

Lemma candidatesOf_positive (w : World) :
  Forall (fun m => 0 <= Message.weight m) (storedMessages w) ->
  Forall (fun m => (0 < effectiveWeight m)%Q) (candidatesOf w).
Proof.
  intros Hall. unfold candidatesOf, regularMessagesOf.
  apply Forall_forall. intros wm Hin.
  apply in_map_iff in Hin as (m & <- & Hm). apply filter_In in Hm as [Hm _].
  apply weigh_positive. rewrite Forall_forall in Hall. now apply Hall.
Qed.

(** X1: when the draw of [Math.random()] is in [[0, 1)] and no stored
    weight is negative, [selectNextMessage] on a store with a non-nag
    message never needs its fallback: the walk itself stops at a
    candidate, the one in whose share of the total weight the scaled
    draw [r] falls ([r] is above the weights of the candidates before
    it, unless it is the first, and not above those up to it). *)
Theorem selectNextMessage_proportional (rand : nat -> Q) (w : World) :
  unitDraw (rand (rngPos w)) ->
  Forall (fun m => 0 <= Message.weight m) (storedMessages w) ->
  regularMessagesOf w <> [] ->
  exists (k : nat) (msg : WeightedMessage),
    nth_error (candidatesOf w) k = Some msg /\
    fst (selectNextMessage rand w) = Done (Some msg) /\
    walk (rand (rngPos w) * totalWeightOf (candidatesOf w)) (candidatesOf w)
    = Some msg /\
    (rand (rngPos w) * totalWeightOf (candidatesOf w)
     <= prefixWeight (candidatesOf w) (S k))%Q /\
    (k <> 0%nat ->
     (prefixWeight (candidatesOf w) k
      < rand (rngPos w) * totalWeightOf (candidatesOf w))%Q).
Proof.
  intros [Hu0 Hu1] Hw Hreg.
  pose proof (sumWeights_pos _ (candidatesOf_positive w Hw)) as Hsum.
  pose proof (totalWeightOf_sum (candidatesOf w)) as Htot.
  destruct (walk_within (candidatesOf w)
              (rand (rngPos w) * totalWeightOf (candidatesOf w))%Q)
    as (k & msg & Hnth & Hwalk & Hup & Hlow).
  - unfold candidatesOf. destruct (regularMessagesOf w); [contradiction|].
    discriminate.
  - rewrite Htot. nra.
  - exists k, msg. repeat split; try assumption.
    rewrite selectNextMessage_run.
    destruct (regularMessagesOf w) eqn:E; [contradiction|].
    cbn [fst]. unfold pickWeighted. now rewrite Hwalk.
Qed.

Lemma selectNextMessage_proportional_witness :
  let a := Message.mk "a" "fresh" 3 false 90 (29 * msPerDay) None in
  let b := Message.mk "b" "low" 1 false 90 0 None in
  let w := mkWorld (30 * msPerDay) 0 [a; b] None None [] 0 [] in
  let rand := fun _ : nat => (9 # 10)%Q in
  exists (k : nat) (msg : WeightedMessage),
    nth_error (candidatesOf w) k = Some msg /\
    fst (selectNextMessage rand w) = Done (Some msg) /\
    walk (rand (rngPos w) * totalWeightOf (candidatesOf w)) (candidatesOf w)
    = Some msg /\
    (rand (rngPos w) * totalWeightOf (candidatesOf w)
     <= prefixWeight (candidatesOf w) (S k))%Q /\
    (k <> 0%nat ->
     (prefixWeight (candidatesOf w) k
      < rand (rngPos w) * totalWeightOf (candidatesOf w))%Q).
Proof.
  apply (selectNextMessage_proportional (fun _ : nat => (9 # 10)%Q)
           (mkWorld (30 * msPerDay) 0
              [Message.mk "a" "fresh" 3 false 90 (29 * msPerDay) None;
               Message.mk "b" "low" 1 false 90 0 None] None None [] 0 [])).
  - split; simpl; [unfold Qle|unfold Qlt]; simpl; lia.
  - repeat constructor; simpl; lia.
  - discriminate.
Defined.

(** ** The draws of the window sampler *)

Lemma drawValidTime_rng (rand : nat -> Q) (now startTime windowMs minGapMs : Z)
    (times : list Z) :
  forall (attempts rng : nat),
    (rng <= snd (drawValidTime rand now startTime windowMs minGapMs times
                   attempts rng)
     <= rng + attempts)%nat /\
    (0 < attempts ->
     rng < snd (drawValidTime rand now startTime windowMs minGapMs times
                  attempts rng))%nat.
Proof.
  induction attempts as [|attempts IH]; intros rng; cbn [drawValidTime].
  - cbn [snd]. lia.
  - destruct (_ && _).
    + cbn [snd]. lia.
    + destruct (IH (S rng)) as [H1 H2]. lia.
Qed.

Lemma fillSlots_rng (rand : nat -> Q) (now startTime windowMs minGapMs : Z) :
  forall (slots : nat) (times : list Z) (rng : nat),
    (rng + slots
     <= snd (fillSlots rand now startTime windowMs minGapMs slots times rng)
     <= rng + 50 * slots)%nat.
Proof.
  induction slots as [|slots IH]; intros times rng.
  - cbn [fillSlots snd]. lia.
  - rewrite fillSlots_S.
    pose proof (drawValidTime_rng rand now startTime windowMs minGapMs times
                  50 rng) as [H1 H2].
    destruct (drawValidTime _ _ _ _ _ _ _ _) as [v rng1]. cbn [snd] in *.
    specialize (IH match v with Some t => times ++ [t] | None => times end rng1).
    lia.
Qed.

(** X2: [calculateNotificationTimes] calls [Math.random()] at least
    once and at most fifty times for each of the [dailyFrequency]
    slots, whatever the settings, the clock and the draws. *)
Theorem calculateNotificationTimes_draws (rand : nat -> Q) (s : Settings)
    (now : Z) (rng : nat) :
  (rng + Z.to_nat (dailyFrequency s)
   <= snd (calculateNotificationTimes rand s now rng)
   <= rng + 50 * Z.to_nat (dailyFrequency s))%nat.
Proof.
  unfold calculateNotificationTimes.
  destruct (notificationWindow s now) as [startTime endTime].
  pose proof (fillSlots_rng rand now startTime (endTime - startTime)
                (minGapHours s * 60 * 60 * 1000)
                (Z.to_nat (dailyFrequency s)) [] rng) as H.
  destruct (fillSlots _ _ _ _ _ _ _ _) as [times rng']. exact H.
Qed.

Lemma Forall_False_nil {A : Type} (l : list A) :
  Forall (fun _ => False) l -> l = [].
Proof. destruct l as [|x l]; [reflexivity|]. inversion 1. contradiction. Qed.

(** X3: at [endHour:00] sharp the window is not moved to the next day
    (the test is [now > endTime]) and no candidate of today's window is
    after [now]: with [startHour < endHour] and draws in [[0, 1)] the
    sampler returns no time at all. *)
Theorem calculateNotificationTimes_at_end (rand : nat -> Q) (s : Settings)
    (now : Z) (rng : nat) :
  (forall n, unitDraw (rand n)) ->
  startHour s < endHour s ->
  now = atHour now (endHour s) ->
  fst (calculateNotificationTimes rand s now rng) = [].
Proof.
  intros Hrand Hse Hnow. apply Forall_False_nil.
  apply (calculateNotificationTimes_inv rand s now rng).
  intros k c Hc Hlt. rewrite notificationWindow_eq in Hc.
  destruct (Z.gtb_spec now (atHour now (endHour s))); [lia|].
  cbn [fst snd] in Hc.
  pose proof (candidateTimeOf_between (atHour now (startHour s))
                (atHour now (endHour s) - atHour now (startHour s))
                (rand k) (Hrand k)) as Hb.
  assert (0 <= atHour now (endHour s) - atHour now (startHour s))
    by (unfold atHour; rewrite msPerHour_eq; lia).
  subst c. lia.
Qed.

Lemma calculateNotificationTimes_at_end_witness :
  fst (calculateNotificationTimes
         (fun n : nat => Z.of_nat (n * 3 mod 7) # 7) DEFAULT_SETTINGS
         (5 * msPerDay + 22 * msPerHour) 0) = [].
Proof.
  apply (calculateNotificationTimes_at_end
           (fun n : nat => Z.of_nat (n * 3 mod 7) # 7) DEFAULT_SETTINGS
           (5 * msPerDay + 22 * msPerHour) 0).
  - intros n. unfold unitDraw, Qle, Qlt. cbn [Qnum Qden].
    pose proof (Nat.mod_upper_bound (n * 3) 7). lia.
  - simpl. lia.
  - reflexivity.
Defined.

Lemma tooClose_nonpositive (minGapMs c : Z) (times : list Z) :
  minGapMs <= 0 -> tooClose minGapMs c times = false.
Proof.
  intros Hgap. unfold tooClose. induction times as [|t times IH]; simpl.
  - reflexivity.
  - rewrite IH. destruct (Z.ltb_spec (Z.abs (c - t)) minGapMs); [lia|].
    reflexivity.
Qed.

Lemma fillSlots_all (rand : nat -> Q) (now startTime windowMs minGapMs : Z) :
  minGapMs <= 0 ->
  (forall k, now < candidateTimeOf startTime windowMs (rand k)) ->
  forall (slots : nat) (times : list Z) (rng : nat),
    List.length
      (fst (fillSlots rand now startTime windowMs minGapMs slots times rng))
    = (List.length times + slots)%nat /\
    snd (fillSlots rand now startTime windowMs minGapMs slots times rng)
    = (rng + slots)%nat.
Proof.
  intros Hgap Hafter. induction slots as [|slots IH]; intros times rng.
  - cbn [fillSlots fst snd]. lia.
  - rewrite fillSlots_S.
    replace (drawValidTime rand now startTime windowMs minGapMs times 50 rng)
      with (Some (candidateTimeOf startTime windowMs (rand rng)), S rng).
    + destruct (IH (times ++ [candidateTimeOf startTime windowMs (rand rng)])
                  (S rng)) as [H1 H2].
      rewrite H1, H2, length_app. simpl. lia.
    + change 50%nat with (S 49). cbn [drawValidTime].
      rewrite tooClose_nonpositive by assumption.
      destruct (Z.gtb_spec (candidateTimeOf startTime windowMs (rand rng)) now)
        as [_|Hle]; [reflexivity|].
      specialize (Hafter rng). lia.
Qed.

(** X4: when [minGapHours] is zero (or less) and the window in use
    starts after [now], the first draw of every slot is accepted: the
    sampler returns exactly [dailyFrequency] times and calls
    [Math.random()] exactly that many times. *)
Theorem calculateNotificationTimes_fills (rand : nat -> Q) (s : Settings)
    (now : Z) (rng : nat) :
  (forall n, unitDraw (rand n)) ->
  startHour s < endHour s ->
  minGapHours s <= 0 ->
  now < fst (notificationWindow s now) ->
  List.length (fst (calculateNotificationTimes rand s now rng))
  = Z.to_nat (dailyFrequency s) /\
  snd (calculateNotificationTimes rand s now rng)
  = (rng + Z.to_nat (dailyFrequency s))%nat.
Proof.
  intros Hrand Hse Hgap Hfuture. unfold calculateNotificationTimes.
  assert (Hwin : 0 <= snd (notificationWindow s now)
                      - fst (notificationWindow s now)).
  { rewrite notificationWindow_eq. unfold atHour. rewrite msPerHour_eq.
    destruct (now >? _); cbn [fst snd]; lia. }
  destruct (notificationWindow s now) as [startTime endTime].
  cbn [fst snd] in *.
  destruct (fillSlots_all rand now startTime (endTime - startTime)
              (minGapHours s * 60 * 60 * 1000) ltac:(lia)
              ltac:(intros k;
                    pose proof (candidateTimeOf_between startTime
                                  (endTime - startTime) (rand k) (Hrand k) Hwin);
                    lia)
              (Z.to_nat (dailyFrequency s)) [] rng) as [H1 H2].
  destruct (fillSlots _ _ _ _ _ _ _ _) as [times rng']. cbn [fst snd] in *.
  split; [|assumption].
  now rewrite (Permutation_length (sortAscending_perm times)).
Qed.

Lemma calculateNotificationTimes_fills_witness :
  let rand := fun n : nat => Z.of_nat (n * 3 mod 7) # 7 in
  let s := mkSettings true 4 8 22 0 in
  let now := 5 * msPerDay + 23 * msPerHour in
  List.length (fst (calculateNotificationTimes rand s now 0))
  = Z.to_nat (dailyFrequency s) /\
  snd (calculateNotificationTimes rand s now 0)
  = (0 + Z.to_nat (dailyFrequency s))%nat.
Proof.
  apply (calculateNotificationTimes_fills
           (fun n : nat => Z.of_nat (n * 3 mod 7) # 7)
           (mkSettings true 4 8 22 0) (5 * msPerDay + 23 * msPerHour) 0).
  - intros n. unfold unitDraw, Qle, Qlt. cbn [Qnum Qden].
    pose proof (Nat.mod_upper_bound (n * 3) 7). lia.
  - simpl. lia.
  - simpl. lia.
  - vm_compute. reflexivity.
Defined.

(** ** A nag interval of zero *)

(** The adjustment moves an instant forward by less than a day. *)
Lemma adjust_lt_day (t : Z) (s : Settings) :
  0 <= startHour s < 24 -> startHour s < endHour s ->
  adjustForQuietHours t s < t + msPerDay.
Proof.
  intros Hr Hse.
  pose proof (getHours_bounds t) as Hb. pose proof (startOfDay_le t) as Hd.
  destruct (Z.lt_ge_cases (getHours t) (startHour s)) as [Hlt|Hge].
  - rewrite adjust_early by assumption. unfold atHour.
    rewrite msPerHour_eq, msPerDay_eq in *. lia.
  - destruct (Z.lt_ge_cases (getHours t) (endHour s)) as [Hlt'|Hge'].
    + rewrite adjust_inside by (split; assumption).
      rewrite msPerDay_eq. lia.
    + rewrite adjust_late by assumption. unfold atHourNextDay.
      rewrite msPerHour_eq, msPerDay_eq in *. nia.
Qed.

(** A loop that stands still before the horizon uses up any fuel. *)
Lemma nagLoop_stuck (s : Settings) (endTime cur : Z) :
  cur < endTime ->
  adjustForQuietHours (cur + 0) s = cur ->
  forall fuel, nagLoop fuel s 0 endTime cur = None.
Proof.
  intros Hlt Hfix. induction fuel as [|fuel IH]; [reflexivity|].
  rewrite nagLoop_S. destruct (Z.ltb_spec cur endTime); [|lia].
  now rewrite Hfix, IH.
Qed.

(** X5: with [nagIntervalMinutes] zero the planning loop of
    [scheduleRepeatingNag] never ends: the current instant, once
    adjusted, is before the horizon and adding the interval leaves it
    where it is.  Whatever the fuel, the plan is not produced, the
    method does not return and no registration is made. *)
Theorem scheduleRepeatingNag_zero_interval (registerFails : nat -> bool)
    (msg : Message.t) (s : Settings) (w : World) (fuel : nat) :
  0 <= startHour s < 24 ->
  startHour s < endHour s ->
  Message.nagIntervalMinutes msg = 0 ->
  planNagTimes fuel msg s (clock w) = None /\
  scheduleRepeatingNag registerFails fuel msg s w = (Diverged, w).
Proof.
  intros Hr Hse Hzero.
  assert (Hplan : planNagTimes fuel msg s (clock w) = None).
  { unfold planNagTimes. rewrite Hzero. cbn [Z.mul].
    apply nagLoop_stuck.
    - pose proof (adjust_lt_day (clock w + 0) s Hr Hse) as H.
      rewrite msPerDay_eq in H. lia.
    - rewrite Z.add_0_r. apply adjust_inside.
      now apply adjust_inActiveHours. }
  split; [assumption|].
  unfold scheduleRepeatingNag, bind, dateNow. now rewrite Hplan.
Qed.

Lemma scheduleRepeatingNag_zero_interval_witness :
  let msg := Message.mk "m" "stretch" 3 true 0 0 None in
  let w :=
    mkWorld (5 * msPerDay + 9 * msPerHour) 0 [msg] None None [] 0 [] in
  planNagTimes 1000 msg DEFAULT_SETTINGS (clock w) = None /\
  scheduleRepeatingNag (fun _ => false) 1000 msg DEFAULT_SETTINGS w
  = (Diverged, w).
Proof.
  apply (scheduleRepeatingNag_zero_interval (fun _ => false)
           (Message.mk "m" "stretch" 3 true 0 0 None) DEFAULT_SETTINGS
           (mkWorld (5 * msPerDay + 9 * msPerHour) 0
              [Message.mk "m" "stretch" 3 true 0 0 None] None None [] 0 [])
           1000).
  - simpl. lia.
  - simpl. lia.
  - reflexivity.
Defined.

(** ** The wisdom pass with notifications enabled *)

Lemma storeKept_same (T : list Z) (w w' : World) :
  storedMessages w' = storedMessages w -> storeKept T w w'.
Proof.
  unfold storeKept. intros ->.
  induction (storedMessages w) as [|m ms IH]; constructor; auto.
Qed.

Lemma storeKept_trans (T : list Z) (w1 w2 w3 : World) :
  storeKept T w1 w2 -> storeKept T w2 w3 -> storeKept T w1 w3.
Proof.
  unfold storeKept. generalize (storedMessages w1) (storedMessages w2)
    (storedMessages w3).
  intros l1 l2 l3 H12. revert l3.
  induction H12 as [|a b l1 l2 [Hs Hl] _ IH]; intros l3 H23;
    inversion H23 as [|b' c l2' l3' [Hs' Hl'] Hrest]; subst; constructor.
  - split; [congruence|].
    destruct Hl' as [Hl'|Hl']; [|now right].
    rewrite Hl'. exact Hl.
  - now apply IH.
Qed.

Lemma storeKept_regular_texts (T : list Z) (w w' : World) :
  storeKept T w w' ->
  map Message.text (regularMessagesOf w')
  = map Message.text (regularMessagesOf w).
Proof.
  unfold storeKept, regularMessagesOf.
  induction 1 as [|m m' l l' [Hs _] _ IH]; [reflexivity|].
  assert (Hnag : Message.isNagMe m' = Message.isNagMe m)
    by exact (f_equal Message.isNagMe Hs).
  assert (Htext : Message.text m' = Message.text m)
    by exact (f_equal Message.text Hs).
  cbn [filter]. rewrite Hnag. destruct (negb (Message.isNagMe m)); cbn [map];
    congruence.
Qed.

Lemma setLastShown_kept (i : string) (t : Z) :
  forall (ms ms' : list Message.t),
    setLastShown i t ms = Some ms' ->
    Forall2
      (fun m m' =>
         withoutLastShown m' = withoutLastShown m /\
         (Message.lastShown m' = Message.lastShown m \/
          Message.lastShown m' = Some t))
      ms ms'.
Proof.
  induction ms as [|m ms IH]; intros ms' Hset; [discriminate|].
  cbn [setLastShown] in Hset. destruct (String.eqb (Message.id m) i).
  - injection Hset as <-. constructor.
    + split; [reflexivity|now right].
    + clear IH. induction ms as [|m0 ms IH0]; constructor; auto.
  - destruct (setLastShown i t ms) as [rest|]; [|discriminate].
    injection Hset as <-. constructor; [auto|]. now apply IH.
Qed.

Lemma slotKeeps_refl (T : list Z) (w : World) : slotKeeps T w w.
Proof.
  repeat split; [now apply storeKept_same|auto|lia|lia].
Qed.

Lemma slotKeeps_trans (T : list Z) (w1 w2 w3 : World) :
  slotKeeps T w1 w2 -> slotKeeps T w2 w3 -> slotKeeps T w1 w3.
Proof.
  intros (Hs1 & Hp1 & Hc1 & Hr1) (Hs2 & Hp2 & Hc2 & Hr2). repeat split.
  - eapply storeKept_trans; eassumption.
  - intros n Hn. destruct (Hp2 n Hn) as [Hold|(time & msg & Ht & -> & Htext)].
    + now apply Hp1.
    + right. exists time, msg. repeat split; [assumption|].
      now rewrite <- (storeKept_regular_texts T w1 w2 Hs1).
  - lia.
  - lia.
Qed.

(** A step that leaves the pending notifications, the store and the
    count of registrations as they are. *)
Lemma slotKeeps_quiet (T : list Z) (w w' : World) :
  pending w' = pending w -> storedMessages w' = storedMessages w ->
  registerCalls w' = registerCalls w -> slotKeeps T w w'.
Proof.
  intros Hp Hs Hr. unfold slotKeeps, wisdomPending. rewrite Hp, Hr.
  repeat split; [now apply storeKept_same|auto|lia|lia].
Qed.

Lemma filter_length_le {A : Type} (f : A -> bool) (l : list A) :
  (List.length (filter f l) <= List.length l)%nat.
Proof.
  induction l as [|x l IH]; simpl; [lia|]. destruct (f x); simpl; lia.
Qed.

Lemma filter_filter_length {A : Type} (f g : A -> bool) (l : list A) :
  (List.length (filter f (filter g l)) <= List.length (filter f l))%nat.
Proof.
  induction l as [|x l IH]; simpl; [lia|].
  destruct (g x); simpl; destruct (f x); simpl; lia.
Qed.

Lemma createWisdom_keeps (registerFails : nat -> bool) (T : list Z)
    (time : Z) (msg : WeightedMessage) (w : World) :
  In time T ->
  In (Message.text (message msg)) (map Message.text (regularMessagesOf w)) ->
  slotKeeps T w
    (snd (createTriggerNotification registerFails
            (wisdomNotification time msg) w)).
Proof.
  intros Ht Htext. unfold createTriggerNotification.
  destruct (registerFails (registerCalls w)); cbn [snd].
  - unfold slotKeeps, wisdomPending. cbn.
    repeat split; [now apply storeKept_same|auto|lia|lia].
  - unfold slotKeeps, wisdomPending. cbn. repeat split.
    + now apply storeKept_same.
    + intros n Hn. apply in_app_or in Hn as [Hn|[<-|[]]].
      * left. now apply filter_In in Hn.
      * right. now exists time, msg.
    + rewrite filter_app, length_app. cbn [filter].
      match goal with
      | |- context [filter ?f (filter ?g (pending w))] =>
          pose proof (filter_filter_length f g (pending w)) as Hlen
      end.
      destruct (idStartsWith "wisdom-" _); simpl; lia.
    + lia.
Qed.

Lemma updateMessage_keeps (T : list Z) (i : string) (t : Z) (w : World) :
  In t T -> slotKeeps T w (snd (updateMessage i t w)).
Proof.
  intros Ht. unfold updateMessage, bind, getMessages. cbn [storedMessages withLog].
  destruct (setLastShown i t (storedMessages w)) as [ms'|] eqn:Hset.
  - cbn. unfold slotKeeps, wisdomPending. cbn. repeat split; [|auto|lia|lia].
    unfold storeKept. cbn.
    eapply Forall2_impl; [|exact (setLastShown_kept i t _ _ Hset)].
    intros m m' [Hs [Hl|Hl]]; split; auto. right. now exists t.
  - cbn. now apply slotKeeps_quiet.
Qed.

Lemma keeps_bind_at (R : World -> World -> Prop) {A B : Type} (m : M A)
    (k : A -> M B) (w : World) :
  (forall w1 w2 w3, R w1 w2 -> R w2 w3 -> R w1 w3) ->
  R w (snd (m w)) ->
  (forall a, R (snd (m w)) (snd (k a (snd (m w))))) ->
  R w (snd (bind m k w)).
Proof.
  intros Htrans Hm Hk. unfold bind.
  destruct (m w) as [[a| |] w1]; cbn [snd] in *; try assumption.
  eapply Htrans; [eassumption|apply Hk].
Qed.

Lemma respects_forEach_in (R : World -> World -> Prop) {A : Type}
    (xs : list A) (f : A -> M unit) :
  (forall w, R w w) ->
  (forall w1 w2 w3, R w1 w2 -> R w2 w3 -> R w1 w3) ->
  (forall x, In x xs -> respects R (f x)) ->
  respects R (forEach xs f).
Proof.
  intros Hrefl Htrans. induction xs as [|x xs IH]; intros Hf; simpl.
  - now apply respects_ret.
  - apply (respects_bind _ Htrans).
    + apply Hf. now left.
    + intros _. apply IH. intros y Hy. apply Hf. now right.
Qed.

Lemma scheduleWisdomAt_keeps (rand : nat -> Q) (registerFails : nat -> bool)
    (T : list Z) (time : Z) :
  In time T ->
  respects (slotKeeps T) (scheduleWisdomAt rand registerFails time).
Proof.
  intros Ht w. unfold scheduleWisdomAt, bind at 1.
  rewrite selectNextMessage_run.
  destruct (regularMessagesOf w) as [|m0 ms0] eqn:Hreg.
  - cbn. now apply slotKeeps_quiet.
  - destruct (pickWeighted _ _) as [msg|] eqn:Hpick.
    + apply slotKeeps_trans
        with (w2 := withRngPos (withLog w GetMessages) (S (rngPos w)));
        [now apply slotKeeps_quiet|].
      apply (keeps_bind_at _ _ _ _ (slotKeeps_trans T)).
      * apply createWisdom_keeps; [assumption|].
        apply pickWeighted_In in Hpick. unfold candidatesOf in Hpick.
        apply in_map_iff in Hpick as (m & <- & Hm).
        rewrite weigh_message. apply in_map.
        unfold regularMessagesOf in *. cbn [storedMessages withRngPos withLog].
        rewrite Hreg in *. exact Hm.
      * intros _. now apply updateMessage_keeps.
    + cbn. now apply slotKeeps_quiet.
Qed.

Lemma wisdomSlots_keep (rand : nat -> Q) (registerFails : nat -> bool)
    (T : list Z) :
  respects (slotKeeps T) (forEach T (scheduleWisdomAt rand registerFails)).
Proof.
  apply respects_forEach_in;
    [apply slotKeeps_refl|apply slotKeeps_trans|].
  intros time Ht. now apply scheduleWisdomAt_keeps.
Qed.

(** Each slot makes at most one registration. *)
Lemma scheduleWisdomAt_calls (rand : nat -> Q) (registerFails : nat -> bool)
    (time : Z) (w : World) :
  (registerCalls (snd (scheduleWisdomAt rand registerFails time w))
   <= S (registerCalls w))%nat.
Proof.
  unfold scheduleWisdomAt, bind at 1. rewrite selectNextMessage_run.
  destruct (regularMessagesOf w); [cbn; lia|].
  destruct (pickWeighted _ _) as [msg|]; [|cbn; lia].
  unfold bind, createTriggerNotification.
  cbn [registerCalls withRngPos withLog].
  destruct (registerFails (registerCalls w)); [cbn; lia|].
  unfold updateMessage, bind, getMessages.
  destruct (setLastShown _ _ _); cbn; lia.
Qed.

Lemma wisdomSlots_calls (rand : nat -> Q) (registerFails : nat -> bool) :
  forall (ts : list Z) (w : World),
    (registerCalls
       (snd (forEach ts (scheduleWisdomAt rand registerFails) w))
     <= registerCalls w + List.length ts)%nat.
Proof.
  induction ts as [|t ts IH]; intros w; cbn [forEach].
  - cbn. lia.
  - unfold bind.
    pose proof (scheduleWisdomAt_calls rand registerFails t w) as Ht.
    destruct (scheduleWisdomAt rand registerFails t w) as [[[]| |] w1];
      cbn [snd] in *.
    + specialize (IH w1). simpl. lia.
    + simpl. lia.
    + simpl. lia.
Qed.

Lemma scheduleWisdomNotifications_enabled_run (rand : nat -> Q)
    (registerFails : nat -> bool) (w : World) :
  notificationsEnabled (settingsOf w) = true ->
  scheduleWisdomNotifications rand registerFails w
  = bind
      (forEach
         (fst (calculateNotificationTimes rand (settingsOf w) (clock w)
                 (rngPos w)))
         (scheduleWisdomAt rand registerFails))
      (fun _ => bind saveState (fun _ => ret tt))
      (withRngPos (snd (cancelAllWisdomNotifications (withLog w GetSettings)))
         (snd (calculateNotificationTimes rand (settingsOf w) (clock w)
                 (rngPos w)))).
Proof.
  intros Hon. unfold scheduleWisdomNotifications. unfold bind at 1.
  unfold getSettings. fold (settingsOf w). rewrite Hon. cbn [negb].
  unfold bind at 1. rewrite cancelAllWisdomNotifications_run.
  unfold bind at 1. unfold calculateNotificationTimesM.
  cbn [clock rngPos withLog withPending snd].
  destruct (calculateNotificationTimes rand (settingsOf w) (clock w) (rngPos w))
    as [times rng']. reflexivity.
Qed.

Lemma scheduleWisdomNotifications_disabled_run (rand : nat -> Q)
    (registerFails : nat -> bool) (w : World) :
  notificationsEnabled (settingsOf w) = false ->
  scheduleWisdomNotifications rand registerFails w
  = cancelAllWisdomNotifications (withLog w GetSettings).
Proof.
  intros Hoff. unfold scheduleWisdomNotifications. unfold bind at 1.
  unfold getSettings. fold (settingsOf w). now rewrite Hoff.
Qed.

(** The end of the wisdom pass, [saveState], touches neither the sink
    nor the messages. *)
Lemma saveState_after {A : Type} (m : M A) (w : World) :
  pending (snd (bind m (fun _ => bind saveState (fun _ => ret tt)) w))
  = pending (snd (m w)) /\
  storedMessages (snd (bind m (fun _ => bind saveState (fun _ => ret tt)) w))
  = storedMessages (snd (m w)) /\
  registerCalls (snd (bind m (fun _ => bind saveState (fun _ => ret tt)) w))
  = registerCalls (snd (m w)).
Proof.
  unfold bind. destruct (m w) as [[a| |] w1]; cbn; auto.
Qed.

Lemma filter_negb_nil {A : Type} (f : A -> bool) (l : list A) :
  filter f (filter (fun x => negb (f x)) l) = [].
Proof.
  induction l as [|x l IH]; simpl; [reflexivity|].
  destruct (f x) eqn:E; simpl; [assumption|]. now rewrite E.
Qed.

(** Where the pending wisdom notifications come from after a wisdom pass. *)
Lemma wisdomPass_provenance (rand : nat -> Q)
    (registerFails : nat -> bool) (w : World) :
  (forall n,
     In n (pending (snd (scheduleWisdomNotifications rand registerFails w))) ->
     idStartsWith "wisdom-" n = true ->
     exists time msg,
       In time
         (fst (calculateNotificationTimes rand (settingsOf w) (clock w)
                 (rngPos w))) /\
       clock w < time /\
       n = wisdomNotification time msg /\
       In (Message.text (message msg))
         (map Message.text (regularMessagesOf w))) /\
  (List.length
     (wisdomPending (snd (scheduleWisdomNotifications rand registerFails w)))
   <= Z.to_nat (dailyFrequency (settingsOf w)))%nat.
Proof.
  destruct (notificationsEnabled (settingsOf w)) eqn:Hon.
  - rewrite scheduleWisdomNotifications_enabled_run by assumption.
    set (T := fst (calculateNotificationTimes rand (settingsOf w) (clock w)
                     (rngPos w))).
    set (w1 := withRngPos _ _).
    destruct (saveState_after (forEach T (scheduleWisdomAt rand registerFails))
                w1) as (Hp & _ & _).
    unfold wisdomPending. rewrite Hp.
    destruct (wisdomSlots_keep rand registerFails T w1)
      as (_ & Hprov & Hcount & _).
    pose proof (wisdomSlots_calls rand registerFails T w1) as Hcalls.
    destruct (calculateNotificationTimes_inv rand (settingsOf w) (clock w)
                (rngPos w) (fun c => clock w < c))
      as (Hafter & _ & Hlen); [auto|]. fold T in Hafter, Hlen.
    assert (Hw1 : pending w1
                  = filter (fun n => negb (idStartsWith "wisdom-" n))
                      (pending w)).
    { unfold w1. now rewrite cancelAllWisdomNotifications_run. }
    split.
    + intros n Hn Hwis.
      destruct (Hprov n Hn) as [Hold|(time & msg & Ht & -> & Htext)].
      * rewrite Hw1 in Hold. apply filter_In in Hold as [_ Hold].
        rewrite Hwis in Hold. discriminate.
      * exists time, msg. repeat split; try assumption.
        rewrite Forall_forall in Hafter. now apply Hafter.
    + assert (Hr1 : registerCalls w1 = registerCalls w)
        by (unfold w1; now rewrite cancelAllWisdomNotifications_run).
      unfold wisdomPending in Hcount. rewrite Hw1 in Hcount.
      rewrite filter_negb_nil in Hcount. cbn [List.length] in Hcount. lia.
  - rewrite scheduleWisdomNotifications_disabled_run by assumption.
    rewrite cancelAllWisdomNotifications_run. unfold wisdomPending.
    cbn [snd pending withLog withPending]. split.
    + intros n Hn Hwis. apply filter_In in Hn as [_ Hn].
      rewrite Hwis in Hn. discriminate.
    + rewrite filter_negb_nil. simpl. lia.
Qed.

(** X6: whatever the world, after [scheduleWisdomNotifications] every
    pending notification whose id starts with [wisdom-] was registered
    by this pass: it is the notification the pass builds for one of the
    times it sampled, that time is strictly after the clock, and its
    body is the text of a stored message that is not a nag; and there
    are at most [dailyFrequency] of them.  No wisdom notification of an
    earlier pass is left. *)
Theorem scheduleWisdomNotifications_fresh (rand : nat -> Q)
    (registerFails : nat -> bool) (w : World) :
  (forall n,
     In n (pending (snd (scheduleWisdomNotifications rand registerFails w))) ->
     idStartsWith "wisdom-" n = true ->
     exists time msg,
       In time
         (fst (calculateNotificationTimes rand (settingsOf w) (clock w)
                 (rngPos w))) /\
       clock w < time /\
       n = wisdomNotification time msg /\
       In (Message.text (message msg))
         (map Message.text (regularMessagesOf w))) /\
  (List.length
     (wisdomPending (snd (scheduleWisdomNotifications rand registerFails w)))
   <= Z.to_nat (dailyFrequency (settingsOf w)))%nat.
Proof. exact (wisdomPass_provenance rand registerFails w). Qed.

(** X7: [scheduleWisdomNotifications] never adds, removes or reorders
    a stored message and writes no field but [lastShown]: afterwards
    the store holds the same messages, one by one, each with its
    [lastShown] as before or set to one of the times sampled by the
    pass. *)
Theorem scheduleWisdomNotifications_store (rand : nat -> Q)
    (registerFails : nat -> bool) (w : World) :
  storeKept
    (fst (calculateNotificationTimes rand (settingsOf w) (clock w) (rngPos w)))
    w (snd (scheduleWisdomNotifications rand registerFails w)).
Proof.
  destruct (notificationsEnabled (settingsOf w)) eqn:Hon.
  - rewrite scheduleWisdomNotifications_enabled_run by assumption.
    set (T := fst (calculateNotificationTimes rand (settingsOf w) (clock w)
                     (rngPos w))).
    set (w1 := withRngPos _ _).
    destruct (saveState_after (forEach T (scheduleWisdomAt rand registerFails))
                w1) as (_ & Hs & _).
    destruct (wisdomSlots_keep rand registerFails T w1) as (Hkept & _).
    apply storeKept_trans with (w2 := w1).
    + apply storeKept_same. unfold w1.
      now rewrite cancelAllWisdomNotifications_run.
    + unfold storeKept in *. now rewrite Hs.
  - rewrite scheduleWisdomNotifications_disabled_run by assumption.
    apply storeKept_same. now rewrite cancelAllWisdomNotifications_run.
Qed.




(** ** The nag pass *)

Lemma scheduleNagNotifications_run (registerFails : nat -> bool) (fuel : nat)
    (w : World) :
  scheduleNagNotifications registerFails fuel w
  = forEach (filter Message.isNagMe (storedMessages w))
      (fun msg => scheduleRepeatingNag registerFails fuel msg (settingsOf w))
      (snd (cancelAllNagNotifications
              (withLog (withLog w GetMessages) GetSettings))).
Proof.
  unfold scheduleNagNotifications. unfold bind at 1. unfold getMessages.
  unfold bind at 1. unfold getSettings.
  cbn [storedSettings storedMessages withLog]. fold (settingsOf w).
  unfold bind at 1. now rewrite cancelAllNagNotifications_run.
Qed.

Lemma nagKeeps_refl (fuel : nat) (msgs : list Message.t) (s : Settings)
    (w : World) :
  nagKeeps fuel msgs s w w.
Proof. repeat split; auto. Qed.

Lemma nagKeeps_trans (fuel : nat) (msgs : list Message.t) (s : Settings)
    (w1 w2 w3 : World) :
  nagKeeps fuel msgs s w1 w2 -> nagKeeps fuel msgs s w2 w3 ->
  nagKeeps fuel msgs s w1 w3.
Proof.
  intros (Hc1 & Hs1 & Hg1 & Hp1) (Hc2 & Hs2 & Hg2 & Hp2).
  repeat split; try congruence.
  intros n Hn. destruct (Hp2 n Hn) as [Hold|Hnew]; [now apply Hp1|].
  right. now rewrite <- Hc1.
Qed.

Lemma createNag_keeps (registerFails : nat -> bool) (fuel : nat)
    (msgs : list Message.t) (s : Settings) (msg : Message.t) (now : Z)
    (ts : list Z) (t : Z) :
  In msg msgs -> planNagTimes fuel msg s now = Some ts -> In t ts ->
  forall w, clock w = now ->
    nagKeeps fuel msgs s w
      (snd (createTriggerNotification registerFails (nagNotification msg t) w)).
Proof.
  intros Hmsg Hplan Ht w Hclock. unfold createTriggerNotification.
  destruct (registerFails (registerCalls w)); cbn [snd].
  - unfold nagKeeps. cbn. repeat split; auto.
  - unfold nagKeeps. cbn. repeat split.
    intros n Hn. apply in_app_or in Hn as [Hn|[<-|[]]].
    + left. now apply filter_In in Hn.
    + right. exists msg, t, ts. rewrite Hclock. now repeat split.
Qed.

Lemma nagRegistrations_keep (registerFails : nat -> bool) (fuel : nat)
    (msgs : list Message.t) (s : Settings) (msg : Message.t) (now : Z)
    (ts : list Z) :
  In msg msgs -> planNagTimes fuel msg s now = Some ts ->
  forall (sub : list Z) (w : World),
    incl sub ts -> clock w = now ->
    nagKeeps fuel msgs s w
      (snd (forEach sub
              (fun time =>
                 createTriggerNotification registerFails
                   (nagNotification msg time)) w)).
Proof.
  intros Hmsg Hplan. induction sub as [|t sub IH]; intros w Hincl Hclock.
  - apply nagKeeps_refl.
  - cbn [forEach].
    apply (keeps_bind_at _ _ _ _ (nagKeeps_trans fuel msgs s)).
    + apply (createNag_keeps registerFails fuel msgs s msg now ts t);
        auto. apply Hincl. now left.
    + intros _. apply IH.
      * intros x Hx. apply Hincl. now right.
      * pose proof (createNag_keeps registerFails fuel msgs s msg now ts t
                      Hmsg Hplan (Hincl t (or_introl eq_refl)) w Hclock)
          as (Hc & _).
        congruence.
Qed.

Lemma scheduleRepeatingNag_keeps (registerFails : nat -> bool) (fuel : nat)
    (msgs : list Message.t) (s : Settings) (msg : Message.t) :
  In msg msgs ->
  respects (nagKeeps fuel msgs s)
    (scheduleRepeatingNag registerFails fuel msg s).
Proof.
  intros Hmsg w. unfold scheduleRepeatingNag, bind, dateNow.
  destruct (planNagTimes fuel msg s (clock w)) as [ts|] eqn:Hplan.
  - apply (nagRegistrations_keep registerFails fuel msgs s msg (clock w) ts);
      auto. apply incl_refl.
  - apply nagKeeps_refl.
Qed.

(** Where the pending nag notifications come from after a nag pass. *)
Lemma nagPass_provenance (registerFails : nat -> bool)
    (fuel : nat) (w : World) :
  (forall n,
     In n (pending (snd (scheduleNagNotifications registerFails fuel w))) ->
     idStartsWith "nag-" n = true ->
     exists msg t ts,
       In msg (storedMessages w) /\ Message.isNagMe msg = true /\
       planNagTimes fuel msg (settingsOf w) (clock w) = Some ts /\
       In t ts /\ n = nagNotification msg t) /\
  storedMessages (snd (scheduleNagNotifications registerFails fuel w))
  = storedMessages w /\
  storedSettings (snd (scheduleNagNotifications registerFails fuel w))
  = storedSettings w.
Proof.
  rewrite scheduleNagNotifications_run.
  set (msgs := filter Message.isNagMe (storedMessages w)).
  set (w1 := snd (cancelAllNagNotifications _)).
  assert (Hw1 : pending w1
                = filter (fun n => negb (idStartsWith "nag-" n)) (pending w)
                /\ storedMessages w1 = storedMessages w
                /\ storedSettings w1 = storedSettings w
                /\ clock w1 = clock w).
  { unfold w1. rewrite cancelAllNagNotifications_run. cbn. auto. }
  destruct Hw1 as (Hp1 & Hs1 & Hg1 & Hc1).
  destruct (respects_forEach_in (nagKeeps fuel msgs (settingsOf w)) msgs
              (fun msg =>
                 scheduleRepeatingNag registerFails fuel msg (settingsOf w))
              (nagKeeps_refl fuel msgs (settingsOf w))
              (nagKeeps_trans fuel msgs (settingsOf w))
              (fun msg Hmsg =>
                 scheduleRepeatingNag_keeps registerFails fuel msgs
                   (settingsOf w) msg Hmsg)
              w1)
    as (Hc & Hs & Hg & Hprov).
  split; [|split; congruence].
  intros n Hn Hnag.
  destruct (Hprov n Hn) as [Hold|(msg & t & ts & Hmsg & Hplan & Ht & ->)].
  - rewrite Hp1 in Hold. apply filter_In in Hold as [_ Hold].
    rewrite Hnag in Hold. discriminate.
  - exists msg, t, ts. unfold msgs in Hmsg.
    apply filter_In in Hmsg as [Hin Hflag]. rewrite Hc1 in Hplan.
    now repeat split.
Qed.

(** X9: whatever the world, after [scheduleNagNotifications] every
    pending notification whose id starts with [nag-] was registered by
    this pass: it is the notification built for a stored message with
    [isNagMe] set, at an instant of the plan of that message from the
    clock of the pass.  The pass leaves the stored messages and
    settings as they are. *)
Theorem scheduleNagNotifications_fresh (registerFails : nat -> bool)
    (fuel : nat) (w : World) :
  (forall n,
     In n (pending (snd (scheduleNagNotifications registerFails fuel w))) ->
     idStartsWith "nag-" n = true ->
     exists msg t ts,
       In msg (storedMessages w) /\ Message.isNagMe msg = true /\
       planNagTimes fuel msg (settingsOf w) (clock w) = Some ts /\
       In t ts /\ n = nagNotification msg t) /\
  storedMessages (snd (scheduleNagNotifications registerFails fuel w))
  = storedMessages w /\
  storedSettings (snd (scheduleNagNotifications registerFails fuel w))
  = storedSettings w.
Proof. exact (nagPass_provenance registerFails fuel w). Qed.

(** X10: with [startHour] an hour of the day and below [endHour],
    every notification under [nag-] that is pending after
    [scheduleNagNotifications] fires inside active hours and strictly
    before the clock plus 24 hours. *)
Theorem scheduleNagNotifications_quiet_hours (registerFails : nat -> bool)
    (fuel : nat) (w : World) :
  0 <= startHour (settingsOf w) < 24 ->
  startHour (settingsOf w) < endHour (settingsOf w) ->
  forall n,
    In n (pending (snd (scheduleNagNotifications registerFails fuel w))) ->
    idStartsWith "nag-" n = true ->
    inActiveHours (Notification.timestamp n) (settingsOf w) /\
    Notification.timestamp n < clock w + 24 * msPerHour.
Proof.
  intros Hr Hse n Hn Hnag.
  rewrite scheduleNagNotifications_run in Hn.
  set (msgs := filter Message.isNagMe (storedMessages w)) in Hn.
  set (w1 := snd (cancelAllNagNotifications _)) in Hn.
  assert (Hw1 : pending w1
                = filter (fun n => negb (idStartsWith "nag-" n)) (pending w)
                /\ clock w1 = clock w).
  { unfold w1. rewrite cancelAllNagNotifications_run. cbn. auto. }
  destruct Hw1 as (Hp1 & Hc1).
  destruct (respects_forEach_in (nagKeeps fuel msgs (settingsOf w)) msgs
              (fun msg =>
                 scheduleRepeatingNag registerFails fuel msg (settingsOf w))
              (nagKeeps_refl fuel msgs (settingsOf w))
              (nagKeeps_trans fuel msgs (settingsOf w))
              (fun msg Hmsg =>
                 scheduleRepeatingNag_keeps registerFails fuel msgs
                   (settingsOf w) msg Hmsg)
              w1)
    as (_ & _ & _ & Hprov).
  destruct (Hprov n Hn) as [Hold|(msg & t & ts & Hmsg & Hplan & Ht & ->)].
  - rewrite Hp1 in Hold. apply filter_In in Hold as [_ Hold].
    rewrite Hnag in Hold. discriminate.
  - rewrite Hc1 in Hplan. unfold planNagTimes in Hplan.
    apply nagLoop_sound in Hplan;
      [|assumption|assumption|now apply adjust_inActiveHours].
    destruct Hplan as (Hend & Hact & _).
    rewrite Forall_forall in Hend, Hact. cbn [Notification.timestamp nagNotification].
    split; [now apply Hact|].
    rewrite msPerHour_eq. specialize (Hend t Ht). lia.
Qed.

Lemma scheduleNagNotifications_quiet_hours_witness :
  let msg := Message.mk "m" "stretch" 3 true 300 0 None in
  let w :=
    mkWorld (5 * msPerDay + 9 * msPerHour) 0 [msg] None None [] 0 [] in
  let n := nagNotification msg (5 * msPerDay + 14 * msPerHour) in
  inActiveHours (Notification.timestamp n) (settingsOf w) /\
  Notification.timestamp n < clock w + 24 * msPerHour.
Proof.
  refine (scheduleNagNotifications_quiet_hours (fun _ => false) 20
            (mkWorld (5 * msPerDay + 9 * msPerHour) 0
               [Message.mk "m" "stretch" 3 true 300 0 None] None None [] 0 [])
            _ _
            (nagNotification (Message.mk "m" "stretch" 3 true 300 0 None)
               (5 * msPerDay + 14 * msPerHour))
            _ _).
  - simpl. lia.
  - simpl. lia.
  - vm_compute. left. reflexivity.
  - reflexivity.
Defined.

Lemma nagFuel_bound (msg : Message.t) :
  1 <= Message.nagIntervalMinutes msg -> (nagFuel msg <= 1441)%nat.
Proof.
  intros Hm. unfold nagFuel, horizonMs, intervalMsOf.
  assert (24 * 60 * 60 * 1000 / (Message.nagIntervalMinutes msg * 60 * 1000)
          <= 1440).
  { apply Z.div_le_upper_bound; lia. }
  lia.
Qed.

(** The registrations of one nag message when no call fails. *)
Lemma registrations_all_ok (registerFails : nat -> bool) (msg : Message.t) :
  (forall k, registerFails k = false) ->
  forall (ts : list Z) (w : World),
    let run :=
      forEach ts
        (fun time =>
           createTriggerNotification registerFails (nagNotification msg time))
        w in
    fst run = Done tt /\
    clock (snd run) = clock w /\
    registerCalls (snd run) = (registerCalls w + List.length ts)%nat /\
    idsStay w (snd run) /\
    forall t, In t ts ->
      exists n, In n (pending (snd run)) /\
                Notification.id n = Some (nagId msg t).
Proof.
  intros Hok. induction ts as [|t ts IH]; intros w; cbn zeta.
  - cbn. repeat split; [lia|intros i H; exact H|intros t []].
  - rewrite (registrations_cons_ok _ _ _ _ _ (Hok (registerCalls w))).
    match goal with
    | |- context [forEach _ _ ?w1] => set (w1' := w1)
    end.
    destruct (IH w1') as (Hd & Hc & Hr & Hstay & Hpend).
    split; [exact Hd|]. split; [exact Hc|]. split.
    { rewrite Hr. unfold w1'. cbn. lia. }
    split.
    + intros i Hi. apply Hstay.
      apply (createTriggerNotification_idsStay registerFails
               (nagNotification msg t) w i) in Hi.
      unfold createTriggerNotification in Hi.
      rewrite (Hok (registerCalls w)) in Hi. exact Hi.
    + intros x [<-|Hx]; [|now apply Hpend].
      apply Hstay. exists (nagNotification msg t). split; [|reflexivity].
      unfold w1'. cbn [pending withLog withPending]. apply in_or_app.
      right. now left.
Qed.

Lemma nagMessages_all_ok (registerFails : nat -> bool) (fuel : nat)
    (s : Settings) :
  0 <= startHour s -> startHour s < endHour s ->
  (forall k, registerFails k = false) ->
  (1441 <= fuel)%nat ->
  forall (msgs : list Message.t) (w : World),
    Forall (fun msg => 1 <= Message.nagIntervalMinutes msg) msgs ->
    let run :=
      forEach msgs
        (fun msg => scheduleRepeatingNag registerFails fuel msg s) w in
    fst run = Done tt /\
    clock (snd run) = clock w /\
    idsStay w (snd run) /\
    forall msg, In msg msgs ->
      exists ts,
        planNagTimes fuel msg s (clock w) = Some ts /\
        forall t, In t ts ->
          exists n, In n (pending (snd run)) /\
                    Notification.id n = Some (nagId msg t).
Proof.
  intros Hr Hse Hok Hfuel.
  induction msgs as [|msg msgs IH]; intros w Hint; cbn zeta.
  - cbn. repeat split; [intros i H; exact H|intros msg []].
  - inversion Hint as [|? ? Hm Hrest]; subst.
    destruct (planNagTimes_total msg s (clock w) Hm Hr Hse)
      as (ts & Hplan0 & _).
    assert (Hplan : planNagTimes fuel msg s (clock w) = Some ts).
    { unfold planNagTimes in *.
      apply nagLoop_more_fuel with (fuel := nagFuel msg); [assumption|].
      pose proof (nagFuel_bound msg Hm). lia. }
    destruct (registrations_all_ok registerFails msg Hok ts w)
      as (Hd1 & Hc1 & _ & Hstay1 & Hpend1).
    assert (Hhead : scheduleRepeatingNag registerFails fuel msg s w
                    = forEach ts
                        (fun time =>
                           createTriggerNotification registerFails
                             (nagNotification msg time)) w).
    { unfold scheduleRepeatingNag, bind, dateNow. now rewrite Hplan. }
    destruct (forEach ts _ w) as [[[]| |] w1] eqn:Hrun1;
      cbn [fst snd] in *; try discriminate.
    assert (Hstep : forEach (msg :: msgs)
                      (fun msg => scheduleRepeatingNag registerFails fuel msg s)
                      w
                    = forEach msgs
                        (fun msg =>
                           scheduleRepeatingNag registerFails fuel msg s) w1).
    { cbn [forEach]. unfold bind at 1. now rewrite Hhead. }
    rewrite Hstep.
    destruct (IH w1 Hrest) as (Hd & Hc & Hstay & Hpend).
    split; [exact Hd|]. split; [congruence|]. split.
    + intros i Hi. apply Hstay, Hstay1, Hi.
    + intros m [<-|Hm'].
      * exists ts. split; [assumption|]. intros t Ht.
        apply Hstay. now apply Hpend1.
      * destruct (Hpend m Hm') as (ts' & Hplan' & Hall).
        exists ts'. rewrite <- Hc1. now split.
Qed.

(** X11: when no registration fails, [startHour] is between 0 and
    [endHour], every nag message has an interval of at least one minute
    and the planning loop is given room for a day of minutes, the nag
    pass ends normally and every instant planned for every nag message
    is pending under its id [nag-<message id>-<instant>]. *)
Theorem scheduleNagNotifications_complete (registerFails : nat -> bool)
    (fuel : nat) (w : World) :
  0 <= startHour (settingsOf w) ->
  startHour (settingsOf w) < endHour (settingsOf w) ->
  (forall k, registerFails k = false) ->
  (1441 <= fuel)%nat ->
  (forall msg, In msg (storedMessages w) -> Message.isNagMe msg = true ->
               1 <= Message.nagIntervalMinutes msg) ->
  fst (scheduleNagNotifications registerFails fuel w) = Done tt /\
  forall msg, In msg (storedMessages w) -> Message.isNagMe msg = true ->
    exists ts,
      planNagTimes fuel msg (settingsOf w) (clock w) = Some ts /\
      forall t, In t ts ->
        exists n,
          In n (pending (snd (scheduleNagNotifications registerFails fuel w)))
          /\ Notification.id n = Some (nagId msg t).
Proof.
  intros Hr Hse Hok Hfuel Hint. rewrite scheduleNagNotifications_run.
  set (w1 := snd (cancelAllNagNotifications _)).
  assert (Hc1 : clock w1 = clock w)
    by (unfold w1; now rewrite cancelAllNagNotifications_run).
  destruct (nagMessages_all_ok registerFails fuel (settingsOf w) Hr Hse Hok
              Hfuel (filter Message.isNagMe (storedMessages w)) w1)
    as (Hd & _ & _ & Hall).
  { apply Forall_forall. intros msg Hmsg. apply filter_In in Hmsg as [H1 H2].
    now apply Hint. }
  split; [exact Hd|]. intros msg Hin Hnag.
  destruct (Hall msg) as (ts & Hplan & Hts).
  { apply filter_In. now split. }
  exists ts. rewrite <- Hc1. now split.
Qed.

Lemma scheduleNagNotifications_complete_witness :
  let msg := Message.mk "m" "stretch" 3 true 300 0 None in
  let w :=
    mkWorld (5 * msPerDay + 9 * msPerHour) 0 [msg] None None [] 0 [] in
  fst (scheduleNagNotifications (fun _ => false) 1441 w) = Done tt /\
  forall msg, In msg (storedMessages w) -> Message.isNagMe msg = true ->
    exists ts,
      planNagTimes 1441 msg (settingsOf w) (clock w) = Some ts /\
      forall t, In t ts ->
        exists n,
          In n (pending (snd (scheduleNagNotifications (fun _ => false) 1441 w)))
          /\ Notification.id n = Some (nagId msg t).
Proof.
  apply (scheduleNagNotifications_complete (fun _ => false) 1441
           (mkWorld (5 * msPerDay + 9 * msPerHour) 0
              [Message.mk "m" "stretch" 3 true 300 0 None] None None [] 0 [])).
  - simpl. lia.
  - simpl. lia.
  - reflexivity.
  - lia.
  - intros msg [<-|[]] _. simpl. lia.
Defined.

(** ** The nag pass and the settings it does not read *)

Lemma adjustForQuietHours_ext (t : Z) (s s' : Settings) :
  startHour s' = startHour s -> endHour s' = endHour s ->
  adjustForQuietHours t s' = adjustForQuietHours t s.
Proof. intros Hs He. unfold adjustForQuietHours. now rewrite Hs, He. Qed.

Lemma planNagTimes_ext (fuel : nat) (msg : Message.t) (s s' : Settings)
    (now : Z) :
  startHour s' = startHour s -> endHour s' = endHour s ->
  planNagTimes fuel msg s' now = planNagTimes fuel msg s now.
Proof.
  intros Hs He. unfold planNagTimes.
  rewrite (adjustForQuietHours_ext _ s s' Hs He).
  generalize (adjustForQuietHours
                (now + Message.nagIntervalMinutes msg * 60 * 1000) s).
  induction fuel as [|fuel IH]; intros cur; [reflexivity|].
  rewrite !nagLoop_S, (adjustForQuietHours_ext _ s s' Hs He).
  now rewrite IH.
Qed.

Lemma ignoresSettings_ret {A : Type} (a : A) : ignoresSettings (ret a).
Proof. intros w s. reflexivity. Qed.

Lemma ignoresSettings_bind {A B : Type} (m : M A) (k : A -> M B) :
  ignoresSettings m -> (forall a, ignoresSettings (k a)) ->
  ignoresSettings (bind m k).
Proof.
  intros Hm Hk w s. unfold bind. rewrite Hm.
  destruct (m w) as [[a| |] w1]; cbn [fst snd]; [apply Hk| |]; reflexivity.
Qed.

Lemma ignoresSettings_forEach {A : Type} (xs : list A) (f : A -> M unit) :
  (forall x, ignoresSettings (f x)) -> ignoresSettings (forEach xs f).
Proof.
  intros Hf. induction xs as [|x xs IH]; cbn [forEach].
  - apply ignoresSettings_ret.
  - apply ignoresSettings_bind; [apply Hf|intros _; exact IH].
Qed.

Lemma createTriggerNotification_ignoresSettings (registerFails : nat -> bool)
    (n : Notification.t) :
  ignoresSettings (createTriggerNotification registerFails n).
Proof.
  intros w s. unfold createTriggerNotification.
  cbn [registerCalls withStoredSettings].
  destruct (registerFails (registerCalls w)); reflexivity.
Qed.

Lemma cancelAllNagNotifications_ignoresSettings :
  ignoresSettings cancelAllNagNotifications.
Proof. intros w s. now rewrite !cancelAllNagNotifications_run. Qed.

Lemma scheduleRepeatingNag_ignoresSettings (registerFails : nat -> bool)
    (fuel : nat) (msg : Message.t) (s : Settings) :
  ignoresSettings (scheduleRepeatingNag registerFails fuel msg s).
Proof.
  unfold scheduleRepeatingNag. apply ignoresSettings_bind.
  - intros w s0. reflexivity.
  - intros now. destruct (planNagTimes fuel msg s now) as [ts|].
    + apply ignoresSettings_forEach. intros time.
      apply createTriggerNotification_ignoresSettings.
    + intros w s0. reflexivity.
Qed.

Lemma forEach_ext {A : Type} (xs : list A) (f g : A -> M unit) :
  (forall x w, f x w = g x w) -> forall w, forEach xs f w = forEach xs g w.
Proof.
  intros Hfg. induction xs as [|x xs IH]; intros w; cbn [forEach].
  - reflexivity.
  - unfold bind. rewrite Hfg. destruct (g x w) as [[[]| |] w1]; auto.
Qed.

(** X12: the nag pass reads [startHour] and [endHour] and nothing else
    of the settings.  With any other stored settings that have the same
    two hours (notifications disabled, another frequency or gap) it
    ends in the same way and leaves the same world, stored settings
    apart: nag notifications are registered whether notifications are
    enabled or not. *)
Theorem scheduleNagNotifications_only_hours (registerFails : nat -> bool)
    (fuel : nat) (w : World) (s' : Settings) :
  startHour s' = startHour (settingsOf w) ->
  endHour s' = endHour (settingsOf w) ->
  scheduleNagNotifications registerFails fuel
    (withStoredSettings w (Some s'))
  = (fst (scheduleNagNotifications registerFails fuel w),
     withStoredSettings
       (snd (scheduleNagNotifications registerFails fuel w)) (Some s')).
Proof.
  intros Hs He. rewrite !scheduleNagNotifications_run.
  change (settingsOf (withStoredSettings w (Some s'))) with s'.
  change (storedMessages (withStoredSettings w (Some s')))
    with (storedMessages w).
  change (withLog (withLog (withStoredSettings w (Some s')) GetMessages)
            GetSettings)
    with (withStoredSettings (withLog (withLog w GetMessages) GetSettings)
            (Some s')).
  rewrite cancelAllNagNotifications_ignoresSettings. cbn [snd].
  rewrite (forEach_ext _
             (fun msg => scheduleRepeatingNag registerFails fuel msg s')
             (fun msg =>
                scheduleRepeatingNag registerFails fuel msg (settingsOf w))).
  - apply ignoresSettings_forEach. intros msg.
    apply scheduleRepeatingNag_ignoresSettings.
  - intros msg w0. unfold scheduleRepeatingNag, bind, dateNow.
    now rewrite (planNagTimes_ext fuel msg (settingsOf w) s' _ Hs He).
Qed.

Lemma scheduleNagNotifications_only_hours_witness :
  let msg := Message.mk "m" "stretch" 3 true 300 0 None in
  let w :=
    mkWorld (5 * msPerDay + 9 * msPerHour) 0 [msg]
      (Some (mkSettings true 3 8 22 2)) None [] 0 [] in
  let s' := mkSettings false 1 8 22 4 in
  scheduleNagNotifications (fun _ => false) 20
    (withStoredSettings w (Some s'))
  = (fst (scheduleNagNotifications (fun _ => false) 20 w),
     withStoredSettings
       (snd (scheduleNagNotifications (fun _ => false) 20 w)) (Some s')).
Proof.
  apply (scheduleNagNotifications_only_hours (fun _ => false) 20
           (mkWorld (5 * msPerDay + 9 * msPerHour) 0
              [Message.mk "m" "stretch" 3 true 300 0 None]
              (Some (mkSettings true 3 8 22 2)) None [] 0 [])
           (mkSettings false 1 8 22 4)).
  - reflexivity.
  - reflexivity.
Defined.

(** ** The message store *)




Lemma setLastShown_replaceFirst (i : string) (t : Z) (ms : list Message.t) :
  setLastShown i t ms
  = option_map fst
      (replaceFirst i (mkUpdates None None None None (Some t)) ms).
Proof.
  induction ms as [|m ms IH]; cbn [setLastShown replaceFirst]; [reflexivity|].
  destruct (String.eqb (Message.id m) i); [reflexivity|].
  rewrite IH. now destruct (replaceFirst _ _ ms) as [[rest x]|].
Qed.

(** The [updateMessage] call of the wisdom pass, with [{ lastShown }],
    is [updateMessage] in general at those updates. *)
Lemma updateMessage_lastShown (i : string) (t : Z) (w : World) :
  snd (updateMessage i t w)
  = snd (updateMessageWith i (mkUpdates None None None None (Some t)) w).
Proof.
  unfold updateMessage, updateMessageWith, bind, getMessages.
  cbn [storedMessages withLog]. rewrite setLastShown_replaceFirst.
  now destruct (replaceFirst _ _ _) as [[ms' m']|].
Qed.






(** ** Sorting with a comparator *)

Lemma insertBy_perm {A : Type} (cmp : A -> A -> Z) (x : A) (l : list A) :
  Permutation (insertBy cmp x l) (x :: l).
Proof.
  induction l as [|y l IH]; simpl; [reflexivity|].
  destruct (cmp x y <=? 0); [reflexivity|].
  rewrite IH. apply perm_swap.
Qed.

Lemma sortBy_perm {A : Type} (cmp : A -> A -> Z) (l : list A) :
  Permutation (sortBy cmp l) l.
Proof.
  induction l as [|x l IH]; simpl; [reflexivity|].
  rewrite insertBy_perm. now constructor.
Qed.

Section SortedBy.

Variable A : Type.
Variable cmp : A -> A -> Z.
Variable before : A -> A -> Prop.
Hypothesis cmp_before : forall a b, cmp a b <= 0 -> before a b.
Hypothesis cmp_after : forall a b, 0 < cmp a b -> before b a.
Hypothesis before_trans : forall a b c, before a b -> before b c -> before a c.

Lemma insertBy_sorted (x : A) (l : list A) :
  StronglySorted before l -> StronglySorted before (insertBy cmp x l).
Proof.
  induction 1 as [|y l Hl IH Hy]; simpl.
  - repeat constructor.
  - destruct (Z.leb_spec (cmp x y) 0) as [Hle|Hgt].
    + constructor; [now constructor|]. constructor; [now apply cmp_before|].
      eapply Forall_impl; [|exact Hy]. intros z Hz.
      eapply before_trans; [apply cmp_before|]; eassumption.
    + constructor; [assumption|].
      apply (Permutation_Forall (x := x :: l)).
      * symmetry. apply insertBy_perm.
      * constructor; [now apply cmp_after|assumption].
Qed.

Lemma sortBy_sorted (l : list A) : StronglySorted before (sortBy cmp l).
Proof.
  induction l as [|x l IH]; simpl; [constructor|].
  now apply insertBy_sorted.
Qed.

End SortedBy.

Lemma StronglySorted_nth {A : Type} (R : A -> A -> Prop) (l : list A) :
  StronglySorted R l ->
  forall (i j : nat) (a b : A),
    (i < j)%nat -> nth_error l i = Some a -> nth_error l j = Some b -> R a b.
Proof.
  induction 1 as [|x l Hl IH Hx]; intros i j a b Hij Ha Hb.
  - destruct i; discriminate.
  - destruct j as [|j]; [lia|]. destruct i as [|i]; simpl in *.
    + injection Ha as <-. rewrite Forall_forall in Hx.
      apply Hx. eapply nth_error_In. eassumption.
    + apply (IH i j); auto. lia.
Qed.

(** ** The library screen *)

Lemma libraryCompare_before (a b : Message.t) :
  libraryCompare a b <= 0 -> libraryBefore a b.
Proof.
  unfold libraryCompare, libraryBefore.
  destruct (Message.isNagMe a), (Message.isNagMe b); cbn; intros H;
    split; intros; try congruence; lia.
Qed.

Lemma libraryCompare_after (a b : Message.t) :
  0 < libraryCompare a b -> libraryBefore b a.
Proof.
  unfold libraryCompare, libraryBefore.
  destruct (Message.isNagMe a), (Message.isNagMe b); cbn; intros H;
    split; intros; try congruence; lia.
Qed.

Lemma libraryBefore_trans (a b c : Message.t) :
  libraryBefore a b -> libraryBefore b c -> libraryBefore a c.
Proof.
  unfold libraryBefore.
  destruct (Message.isNagMe a), (Message.isNagMe b), (Message.isNagMe c);
    intros [H1 H2] [H3 H4]; split; intros; try congruence;
    try (specialize (H1 eq_refl)); try (specialize (H3 eq_refl));
    try discriminate;
    try (specialize (H2 eq_refl)); try (specialize (H4 eq_refl)); lia.
Qed.

(** X16: the list [loadMessages] gives the library screen holds
    exactly the stored messages, each as often as it is stored, and of
    any two of its entries the earlier one is a nag message whenever
    the later one is, and, when both are of the same kind, was created
    no earlier than the later one. *)
Theorem loadMessages_order (w : World) :
  exists shown,
    fst (loadMessages w) = Done shown /\
    Permutation shown (storedMessages w) /\
    forall (i j : nat) (a b : Message.t),
      (i < j)%nat -> nth_error shown i = Some a -> nth_error shown j = Some b ->
      (Message.isNagMe b = true -> Message.isNagMe a = true) /\
      (Message.isNagMe a = Message.isNagMe b ->
       Message.createdAt b <= Message.createdAt a).
Proof.
  exists (sortBy libraryCompare (storedMessages w)).
  split; [reflexivity|]. split; [apply sortBy_perm|].
  intros i j a b Hij Ha Hb.
  exact (StronglySorted_nth libraryBefore _
           (sortBy_sorted _ libraryCompare libraryBefore
              libraryCompare_before libraryCompare_after libraryBefore_trans
              (storedMessages w))
           i j a b Hij Ha Hb).
Qed.

(** ** The home screen *)

(** X17: for a next time that is not before the clock, the label of
    [formatNextNotification] shows whole hours [h] and minutes [m] that
    are the time left rounded down to the minute, with [m] below 60;
    the hours are left out when there are none. *)
Theorem formatNextNotification_spec (next now : Z) :
  now <= next ->
  exists h m r,
    0 <= h /\ 0 <= m < 60 /\ 0 <= r < 60000 /\
    next - now = h * 3600000 + m * 60000 + r /\
    formatNextNotification (Some next) now
    = if h =? 0
      then ("In " ++ numberToString m ++ "m")%string
      else ("In " ++ numberToString h ++ "h " ++ numberToString m ++ "m")%string.
Proof.
  intros Hle. unfold formatNextNotification.
  set (diff := next - now). assert (Hd : 0 <= diff) by (unfold diff; lia).
  destruct (Z.ltb_spec diff 0) as [Hneg|_]; [lia|].
  change (1000 * 60 * 60) with 3600000. change (1000 * 60) with 60000.
  rewrite Z.rem_mod_nonneg by lia.
  exists (diff / 3600000), (diff mod 3600000 / 60000),
    (diff mod 3600000 mod 60000).
  repeat split.
  - apply Z.div_pos; lia.
  - apply Z.div_pos; [apply Z.mod_pos_bound|]; lia.
  - apply Z.div_lt_upper_bound; [lia|].
    pose proof (Z.mod_pos_bound diff 3600000). lia.
  - apply Z.mod_pos_bound. lia.
  - apply Z.mod_pos_bound. lia.
  - pose proof (Z.div_mod diff 3600000).
    pose proof (Z.div_mod (diff mod 3600000) 60000). lia.
  - assert (Hh : 0 <= diff / 3600000) by (apply Z.div_pos; lia).
    destruct (Z.eqb_spec (diff / 3600000) 0) as [E|E].
    + rewrite E. reflexivity.
    + destruct (Z.gtb_spec (diff / 3600000) 0); [reflexivity|lia].
Qed.

Lemma formatNextNotification_spec_witness :
  exists h m r,
    0 <= h /\ 0 <= m < 60 /\ 0 <= r < 60000 /\
    (5 * msPerDay + 11 * msPerHour + 125000) - (5 * msPerDay + 9 * msPerHour)
    = h * 3600000 + m * 60000 + r /\
    formatNextNotification (Some (5 * msPerDay + 11 * msPerHour + 125000))
      (5 * msPerDay + 9 * msPerHour)
    = if h =? 0
      then ("In " ++ numberToString m ++ "m")%string
      else ("In " ++ numberToString h ++ "h " ++ numberToString m ++ "m")%string.
Proof.
  apply (formatNextNotification_spec (5 * msPerDay + 11 * msPerHour + 125000)
           (5 * msPerDay + 9 * msPerHour)).
  simpl. lia.
Defined.

Example formatNextNotification_labels :
  formatNextNotification (Some (5 * msPerDay + 11 * msPerHour + 125000))
    (5 * msPerDay + 9 * msPerHour) = "In 2h 2m"%string /\
  formatNextNotification (Some 125000) 0 = "In 2m"%string /\
  formatNextNotification (Some 0) 1 = "Pending..."%string /\
  formatNextNotification None 1 = "Not scheduled"%string.
Proof. repeat split. Qed.

Lemma mathFloor_index (u : Q) (n : nat) :
  unitDraw u -> (0 < n)%nat ->
  0 <= mathFloor (u * inject_Z (Z.of_nat n)) < Z.of_nat n.
Proof.
  intros [H0 H1] Hn. unfold mathFloor.
  assert (Hn' : (0 < inject_Z (Z.of_nat n))%Q).
  { change 0%Q with (inject_Z 0). rewrite <- Zlt_Qlt. lia. }
  split.
  - rewrite <- (Qfloor_Z 0). apply Qfloor_resp_le.
    change (inject_Z 0) with 0%Q. nra.
  - rewrite Zlt_Qlt. eapply Qle_lt_trans; [apply Qfloor_le|]. nra.
Qed.

Lemma at_In {A : Type} (l : list A) (index : Z) :
  0 <= index < Z.of_nat (List.length l) ->
  exists x, at_ l index = Some x /\ In x l.
Proof.
  intros Hi. unfold at_. destruct (Z.ltb_spec index 0); [lia|].
  destruct (nth_error l (Z.to_nat index)) as [x|] eqn:E.
  - exists x. split; [reflexivity|]. eapply nth_error_In. eassumption.
  - apply nth_error_None in E. lia.
Qed.

Lemma loadData_run (rand : nat -> Q) (st : HomeState) (w : World) :
  loadData rand st w
  = let regularMessages := regularMessagesOf w in
    let wisdomNotifs :=
      sortBy
        (fun a b => Notification.timestamp a - Notification.timestamp b)
        (wisdomPending w) in
    let next :=
      match wisdomNotifs with
      | n :: _ => Some (Notification.timestamp n)
      | [] => None
      end in
    if (0 <? List.length regularMessages)%nat
    then
      (Done
         {| currentMessage :=
              at_ regularMessages
                (mathFloor
                   (rand (rngPos w)
                    * inject_Z (Z.of_nat (List.length regularMessages))));
            nextNotificationTime := next;
            messageCount := List.length (storedMessages w) |},
       withLog (withRngPos (withLog w GetMessages) (S (rngPos w)))
         GetTriggerNotifications)
    else
      (Done
         {| currentMessage := currentMessage st;
            nextNotificationTime := next;
            messageCount := List.length (storedMessages w) |},
       withLog (withLog w GetMessages) GetTriggerNotifications).
Proof.
  unfold loadData, bind, getMessages, regularMessagesOf, wisdomPending.
  cbn [storedMessages withLog]. cbv zeta.
  destruct (0 <? _)%nat; reflexivity.
Qed.

(** X18: when the draw of [Math.random()] is in [[0, 1)] and the store
    holds a message that is not a nag, the message [loadData] puts on
    the home screen is one of the stored messages that are not nags
    (the index it computes is never outside the list). *)
Theorem loadData_current (rand : nat -> Q) (st : HomeState) (w : World) :
  unitDraw (rand (rngPos w)) ->
  regularMessagesOf w <> [] ->
  exists st' m,
    fst (loadData rand st w) = Done st' /\
    currentMessage st' = Some m /\
    In m (storedMessages w) /\ Message.isNagMe m = false.
Proof.
  intros Hu Hreg. rewrite loadData_run. cbv zeta.
  assert (Hlen : (0 < List.length (regularMessagesOf w))%nat).
  { destruct (regularMessagesOf w); [contradiction|simpl; lia]. }
  destruct (Nat.ltb_spec 0 (List.length (regularMessagesOf w))); [|lia].
  destruct (at_In (regularMessagesOf w) _
              (mathFloor_index _ _ Hu Hlen)) as (m & Hat & Hin).
  eexists. exists m. split; [reflexivity|]. cbn [currentMessage].
  split; [assumption|]. unfold regularMessagesOf in Hin.
  apply filter_In in Hin as [Hin Hflag]. split; [assumption|].
  now apply negb_true_iff in Hflag.
Qed.

Lemma loadData_current_witness :
  let a := Message.mk "a" "fresh" 3 false 90 0 None in
  let n := Message.mk "n" "nag" 5 true 30 0 None in
  let w := mkWorld (30 * msPerDay) 0 [n; a] None None [] 0 [] in
  exists st' m,
    fst (loadData (fun _ => (9 # 10)%Q) (mkHomeState None None 0) w)
    = Done st' /\
    currentMessage st' = Some m /\
    In m (storedMessages w) /\ Message.isNagMe m = false.
Proof.
  apply (loadData_current (fun _ => (9 # 10)%Q) (mkHomeState None None 0)
           (mkWorld (30 * msPerDay) 0
              [Message.mk "n" "nag" 5 true 30 0 None;
               Message.mk "a" "fresh" 3 false 90 0 None] None None [] 0 [])).
  - split; simpl; [unfold Qle|unfold Qlt]; simpl; lia.
  - discriminate.
Defined.

(** What [loadData] shows as the next time. *)
Lemma loadData_earliest (rand : nat -> Q) (st : HomeState) (w : World) :
  exists st',
    fst (loadData rand st w) = Done st' /\
    messageCount st' = List.length (storedMessages w) /\
    (nextNotificationTime st' = None <-> wisdomPending w = []) /\
    (forall t, nextNotificationTime st' = Some t ->
       (exists n, In n (wisdomPending w) /\ Notification.timestamp n = t) /\
       forall n, In n (wisdomPending w) -> t <= Notification.timestamp n) /\
    storedMessages (snd (loadData rand st w)) = storedMessages w /\
    pending (snd (loadData rand st w)) = pending w.
Proof.
  rewrite loadData_run. cbv zeta.
  set (cmp := fun a b : Notification.t =>
                Notification.timestamp a - Notification.timestamp b).
  pose proof (sortBy_perm cmp (wisdomPending w)) as Hperm.
  pose proof (sortBy_sorted _ cmp
                (fun a b => Notification.timestamp a
                            <= Notification.timestamp b)
                ltac:(unfold cmp; cbn; intros; lia)
                ltac:(unfold cmp; cbn; intros; lia)
                ltac:(cbn; intros; lia)
                (wisdomPending w)) as Hsorted.
  assert (Hnext :
    (match sortBy cmp (wisdomPending w) with
     | n :: _ => Some (Notification.timestamp n)
     | [] => None
     end = None <-> wisdomPending w = []) /\
    (forall t,
       match sortBy cmp (wisdomPending w) with
       | n :: _ => Some (Notification.timestamp n)
       | [] => None
       end = Some t ->
       (exists n, In n (wisdomPending w) /\ Notification.timestamp n = t) /\
       forall n, In n (wisdomPending w) -> t <= Notification.timestamp n)).
  { destruct (sortBy cmp (wisdomPending w)) as [|n0 rest].
    - split.
      + split; [intros _|reflexivity].
        now apply Permutation_nil.
      + discriminate.
    - split.
      + split; [discriminate|]. intros E. rewrite E in Hperm.
        symmetry in Hperm. apply Permutation_nil in Hperm. discriminate.
      + intros t Ht. injection Ht as <-. split.
        * exists n0. split; [|reflexivity].
          apply (Permutation_in _ Hperm). now left.
        * intros n Hn. apply Permutation_sym in Hperm.
          apply (Permutation_in _ Hperm) in Hn. destruct Hn as [<-|Hn]; [lia|].
          inversion Hsorted as [|? ? _ Hall]; subst.
          rewrite Forall_forall in Hall. now apply Hall. }
  destruct Hnext as [Hnone Hsome].
  destruct (0 <? _)%nat; eexists; cbn; repeat split;
    try apply Hnone; try apply Hsome; auto.
Qed.

(** X19: the next time [loadData] puts on the home screen is the
    earliest timestamp among the pending notifications whose id starts
    with [wisdom-], and none exactly when no such notification is
    pending; the count it shows is the number of stored messages, and
    it changes neither the store nor the pending notifications. *)
Theorem loadData_next (rand : nat -> Q) (st : HomeState) (w : World) :
  exists st',
    fst (loadData rand st w) = Done st' /\
    messageCount st' = List.length (storedMessages w) /\
    (nextNotificationTime st' = None <-> wisdomPending w = []) /\
    (forall t, nextNotificationTime st' = Some t ->
       (exists n, In n (wisdomPending w) /\ Notification.timestamp n = t) /\
       forall n, In n (wisdomPending w) -> t <= Notification.timestamp n) /\
    storedMessages (snd (loadData rand st w)) = storedMessages w /\
    pending (snd (loadData rand st w)) = pending w.
Proof. exact (loadData_earliest rand st w). Qed.

(** ** The edit screen and deletion *)

Lemma respects_tryCatch (R : World -> World -> Prop) {A : Type}
    (body handler : M A) :
  (forall w1 w2 w3, R w1 w2 -> R w2 w3 -> R w1 w3) ->
  respects R body -> respects R handler -> respects R (tryCatch body handler).
Proof.
  intros Htrans Hb Hh w. unfold tryCatch. specialize (Hb w).
  destruct (body w) as [[a| |] w1]; cbn [snd] in *; try assumption.
  eapply Htrans; [eassumption|apply Hh].
Qed.

Lemma updateMessageWith_touches (p : string) (i : string) (u : Updates) :
  respects (touchesOnly p) (updateMessageWith i u).
Proof.
  unfold updateMessageWith. apply touches_bind; [apply getMessages_touches|].
  intros ms. destruct (replaceFirst i u ms) as [[ms' m']|].
  - apply touches_bind; [apply saveMessages_touches|intros _; apply touches_ret].
  - apply touches_ret.
Qed.

Lemma addMessage_touches (p : string) (d : MessageData) :
  respects (touchesOnly p) (addMessage d).
Proof.
  unfold addMessage. apply touches_bind; [apply getMessages_touches|].
  intros ms. apply touches_bind; [apply dateNow_touches|]. intros i.
  apply touches_bind; [apply dateNow_touches|]. intros c.
  apply touches_bind; [apply saveMessages_touches|intros _; apply touches_ret].
Qed.

(** X20: [handleSave] with the Nag Me switch off never cancels a nag
    notification: every pending notification whose id starts with
    [nag-] is still pending afterwards, whatever the outcome.  So after
    a nag message is edited into a plain one, its nag notifications
    stay in the sink. *)
Theorem handleSave_keeps_nags (rand : nat -> Q) (registerFails : nat -> bool)
    (fuel : nat) (trim : string -> string) (parseInt : string -> option Z)
    (existingMessage : option Message.t) (text : string) (weight : Z)
    (nagIntervalMinutes : string) (w : World) :
  forall n,
    In n (pending w) -> idStartsWith "nag-" n = true ->
    In n (pending
            (snd (handleSave rand registerFails fuel trim parseInt
                    existingMessage text weight false nagIntervalMinutes w))).
Proof.
  intros n Hin Hnag.
  assert (Hkeep : respects (touchesOnly "wisdom-")
                    (handleSave rand registerFails fuel trim parseInt
                       existingMessage text weight false nagIntervalMinutes)).
  { unfold handleSave. destruct (isEmptyString (trim text));
      [apply touches_ret|]. cbn [andb].
    apply respects_tryCatch;
      [apply touchesOnly_trans| |apply touches_ret].
    apply touches_bind.
    - destruct existingMessage as [m|].
      + apply touches_bind; [apply updateMessageWith_touches|].
        intros _. apply touches_ret.
      + apply touches_bind; [apply addMessage_touches|].
        intros _. apply touches_ret.
    - intros _. apply touches_bind;
        [apply scheduleWisdomNotifications_touches|].
      intros _. apply touches_bind; [apply touches_ret|].
      intros _. apply touches_ret. }
  destruct (Hkeep w) as (Hstay & _).
  apply Hstay; [assumption|now apply nag_not_wisdom].
Qed.

Lemma handleSave_keeps_nags_witness :
  let m := Message.mk "m" "stretch" 3 true 300 0 None in
  let n := nagNotification m (5 * msPerDay + 14 * msPerHour) in
  let w :=
    mkWorld (5 * msPerDay + 9 * msPerHour) 0 [m] None None [n] 0 [] in
  In n (pending
          (snd (handleSave (fun k : nat => Z.of_nat (k * 3 mod 7) # 7)
                  (fun _ => false) 20 (fun s => s) (fun _ => Some 300)
                  (Some m) "stretch" 3 false "300" w))).
Proof.
  refine (handleSave_keeps_nags (fun k : nat => Z.of_nat (k * 3 mod 7) # 7)
            (fun _ => false) 20 (fun s => s) (fun _ => Some 300)
            (Some (Message.mk "m" "stretch" 3 true 300 0 None)) "stretch" 3
            "300"
            (mkWorld (5 * msPerDay + 9 * msPerHour) 0
               [Message.mk "m" "stretch" 3 true 300 0 None] None None
               [nagNotification (Message.mk "m" "stretch" 3 true 300 0 None)
                  (5 * msPerDay + 14 * msPerHour)] 0 [])
            (nagNotification (Message.mk "m" "stretch" 3 true 300 0 None)
               (5 * msPerDay + 14 * msPerHour))
            _ _).
  - left. reflexivity.
  - reflexivity.
Defined.

(** A plain message edited from a nag message: the store no longer
    holds a nag message, the nag notification is still pending. *)
Example handleSave_stale_nag :
  let m := Message.mk "m" "stretch" 3 true 300 0 None in
  let w :=
    mkWorld (5 * msPerDay + 9 * msPerHour) 0 [m] None None
      [nagNotification m (5 * msPerDay + 14 * msPerHour)] 0 [] in
  let run :=
    handleSave (fun k : nat => Z.of_nat (k * 3 mod 7) # 7) (fun _ => false) 20
      (fun s => s) (fun _ => Some 300) (Some m) "stretch" 3 false "300" w in
  fst run = Done WentBack /\
  map Message.isNagMe (storedMessages (snd run)) = [false] /\
  In (nagNotification m (5 * msPerDay + 14 * msPerHour)) (pending (snd run)).
Proof. vm_compute. repeat split. now left. Qed.








(** Deleting one of two nag messages: the notification of the deleted
    one is gone, those of the other are registered. *)
Example handleDelete_run :
  let m := Message.mk "m" "stretch" 3 true 300 0 None in
  let k := Message.mk "k" "water" 3 true 600 0 None in
  let w :=
    mkWorld (5 * msPerDay + 9 * msPerHour) 0 [m; k] None None
      [nagNotification m (5 * msPerDay + 14 * msPerHour)] 0 [] in
  let run := handleDeleteConfirmed (fun _ => false) 20 m w in
  fst run = Done [k] /\
  map Notification.body (pending (snd run)) = ["water"; "water"]%string /\
  map Notification.timestamp (pending (snd run))
  = [5 * msPerDay + 19 * msPerHour; 6 * msPerDay + 8 * msPerHour].
Proof. vm_compute. repeat split. Qed.




(** X23: when [handleReschedule] of the home screen ends normally, the
    next time it shows, if any, is one of the times the wisdom pass has
    just sampled and is strictly after the clock: no notification of an
    earlier schedule is shown as the next one. *)
Theorem handleReschedule_next (rand : nat -> Q) (registerFails : nat -> bool)
    (fuel : nat) (st st' : HomeState) (w : World) :
  fst (handleReschedule rand registerFails fuel st w) = Done st' ->
  forall t,
    nextNotificationTime st' = Some t ->
    clock w < t /\
    In t (fst (calculateNotificationTimes rand (settingsOf w) (clock w)
                 (rngPos w))).
Proof.
  unfold handleReschedule. intros Hrun t Ht.
  pose proof (wisdomPass_provenance rand registerFails w) as (Hprov & _).
  unfold bind at 1 in Hrun.
  destruct (scheduleWisdomNotifications rand registerFails w)
    as [[[]| |] w1]; try discriminate. cbn [snd] in Hprov.
  pose proof (scheduleNagNotifications_touches registerFails fuel w1)
    as (_ & Hold & _).
  unfold bind at 1 in Hrun.
  destruct (scheduleNagNotifications registerFails fuel w1)
    as [[[]| |] w2]; try discriminate. cbn [snd] in Hold.
  destruct (loadData_earliest rand st w2)
    as (st2 & Hd & _ & _ & Hmin & _).
  rewrite Hd in Hrun. injection Hrun as ->.
  destruct (Hmin t Ht) as ((n & Hn & Hts) & _).
  unfold wisdomPending in Hn. apply filter_In in Hn as [Hn Hwis].
  destruct (Hold n Hn) as [Hin1|Hnag].
  - destruct (Hprov n Hin1 Hwis) as (time & msg & Htime & Hafter & -> & _).
    cbn [Notification.timestamp wisdomNotification] in Hts. subst t.
    now split.
  - apply nag_not_wisdom in Hnag. congruence.
Qed.

Lemma handleReschedule_next_witness :
  let a := Message.mk "a" "fresh" 3 false 90 (29 * msPerDay) None in
  let w :=
    mkWorld (30 * msPerDay + 9 * msPerHour) 0 [a] None None
      [Notification.mk (Some "wisdom-1"%string) "t" "b" "c" 1] 0 [] in
  let rand := fun k : nat => Z.of_nat (k * 3 mod 7) # 7 in
  clock w < 30 * msPerDay + 12 * msPerHour /\
  In (30 * msPerDay + 12 * msPerHour)
    (fst (calculateNotificationTimes rand (settingsOf w) (clock w)
            (rngPos w))).
Proof.
  refine (handleReschedule_next (fun k : nat => Z.of_nat (k * 3 mod 7) # 7)
            (fun _ => false) 20 (mkHomeState None None 0)
            (mkHomeState
               (Some (Message.mk "a" "fresh" 3 false 90 (29 * msPerDay)
                        (Some (30 * msPerDay + 20 * msPerHour))))
               (Some (30 * msPerDay + 12 * msPerHour)) 1)
            (mkWorld (30 * msPerDay + 9 * msPerHour) 0
               [Message.mk "a" "fresh" 3 false 90 (29 * msPerDay) None]
               None None
               [Notification.mk (Some "wisdom-1"%string) "t" "b" "c" 1] 0 [])
            _ (30 * msPerDay + 12 * msPerHour) _).
  - vm_compute. reflexivity.
  - reflexivity.
Defined.

(** ** The settings screen *)








(** Disabling notifications on a screen that had them enabled: the
    wisdom notification is cancelled, the nag pass still registers the
    nags. *)
Example updateSetting_disable_run :
  let m := Message.mk "m" "stretch" 3 true 600 0 None in
  let settings := mkSettings true 3 8 22 2 in
  let w :=
    mkWorld (5 * msPerDay + 9 * msPerHour) 0 [m] (Some settings) None
      [Notification.mk (Some "wisdom-1"%string) "t" "b" "c" 1] 0 [] in
  let run :=
    updateSetting (fun _ => (1 # 2)%Q) (fun _ => false) 20 settings
      (SetNotificationsEnabled false) w in
  fst run = Done (mkSettings false 3 8 22 2, Some 2%nat) /\
  map Notification.timestamp (pending (snd run))
  = [5 * msPerDay + 19 * msPerHour; 6 * msPerDay + 8 * msPerHour].
Proof. vm_compute. repeat split. Qed.
